(** * nf: a hierarchical task list (main.go)

    A shallow embedding of the task manager of [main.go]: the SQLite table
    of tasks, the in-memory task objects built by [loadTasks], the flat view
    used for navigation, the scroll controller and the three keyboard modes.

    Conventions of the model.
    - Go's [int] is modelled by [Z].  Every integer of the program is a slice
      length, a terminal size, an index or a priority, so the 64-bit
      wrap-around is out of reach; the one place where the width of [int] is
      observable, the range check of [strconv.Atoi], is modelled.
    - A Go [string] is a sequence of bytes: [string] of [ascii].
    - A [*Task] is modelled by the key under which [loadTasks] files the
      object in [taskMap]; the objects live in a heap [gmap Z Task], and
      slices of pointers are lists of keys.  Mutating a task through one
      slice is thereby seen through every other slice.
    - A method that may panic (index out of range) or recurse without bound
      returns [option]; [None] is the panic.
    - The terminal size and the wall clock are read from a [World] handed to
      every step.  A failing SQLite call is an entry of the [faults] of the
      store handle.
    - [render] writes to the terminal and [formatDuration] works on floating
      point numbers; both only read the state and are left out. *)

From Stdlib Require Import Ascii String ZArith DecimalString Sorted Permutation.
From stdpp Require Import base option list gmap strings.

(** ** Strings: the pieces of [fmt], [strconv], [strings] and [utf8] in use *)

Module GoString.

Local Open Scope Z_scope.

Definition byte_of (c : ascii) : Z := Z.of_nat (nat_of_ascii c).

Definition ascii_of (z : Z) : ascii := ascii_of_nat (Z.to_nat z).

(** [fmt.Sprintf("%d", z)] *)
Definition itoa (z : Z) : string := NilZero.string_of_int (Z.to_int z).

Definition is_digit (c : ascii) : bool :=
  ((48 <=? byte_of c) && (byte_of c <=? 57))%Z.

Fixpoint digits (s : string) (n : Z) : option Z :=
  match s with
  | EmptyString => Some n
  | String c s' =>
      if is_digit c then digits s' (n * 10 + (byte_of c - 48))%Z else None
  end.

Definition minInt : Z := (- 2 ^ 63)%Z.
Definition maxInt : Z := (2 ^ 63 - 1)%Z.

(** [strconv.Atoi]: an optional sign, then one decimal digit or more; [None]
    is a non-nil [err] (syntax or range). *)
Definition Atoi (s : string) : option Z :=
  match s with
  | EmptyString => None
  | String c rest =>
      let neg := Ascii.eqb c "-"%char in
      let body := if neg || Ascii.eqb c "+"%char then rest else s in
      match body with
      | EmptyString => None
      | _ =>
          n ← digits body 0;
          let v := if neg then (- n)%Z else n in
          if ((minInt <=? v) && (v <=? maxInt))%Z then Some v else None
      end
  end.

(** [string(r)] for a rune: its UTF-8 encoding, U+FFFD for an invalid one. *)
Definition encodeRune (r : Z) : string :=
  let b (z : Z) := ascii_of z in
  let cont (z : Z) := b (Z.lor 128 (Z.land z 63)) in
  let bad := String (b 239) (String (b 191) (String (b 189) EmptyString)) in
  if (r <? 0)%Z then bad
  else if (r <? 128)%Z then String (b r) EmptyString
  else if (r <? 2048)%Z then
    String (b (Z.lor 192 (Z.shiftr r 6))) (String (cont r) EmptyString)
  else if ((55296 <=? r) && (r <=? 57343))%Z then bad
  else if (r <? 65536)%Z then
    String (b (Z.lor 224 (Z.shiftr r 12)))
      (String (cont (Z.shiftr r 6)) (String (cont r) EmptyString))
  else if (r <=? 1114111)%Z then
    String (b (Z.lor 240 (Z.shiftr r 18)))
      (String (cont (Z.shiftr r 12))
         (String (cont (Z.shiftr r 6)) (String (cont r) EmptyString)))
  else bad.

(** [s[:len(s)-1]] for a non-empty [s] *)
Fixpoint dropLast (s : string) : string :=
  match s with
  | EmptyString => EmptyString
  | String c EmptyString => EmptyString
  | String c s' => String c (dropLast s')
  end.

(** White space in the sense of [unicode.IsSpace], as UTF-8 byte sequences. *)
Definition spaces : list (list Z) :=
  [ [9]; [10]; [11]; [12]; [13]; [32]; [194; 133]; [194; 160];
    [225; 154; 128];
    [226; 128; 128]; [226; 128; 129]; [226; 128; 130]; [226; 128; 131];
    [226; 128; 132]; [226; 128; 133]; [226; 128; 134]; [226; 128; 135];
    [226; 128; 136]; [226; 128; 137]; [226; 128; 138];
    [226; 128; 168]; [226; 128; 169]; [226; 128; 175];
    [226; 129; 159]; [227; 128; 128] ]%Z.

Fixpoint strip (p : list ascii) (l : list ascii) : option (list ascii) :=
  match p, l with
  | [], _ => Some l
  | a :: p', b :: l' => if Ascii.eqb a b then strip p' l' else None
  | _ :: _, [] => None
  end.

Definition stripSpace (pats : list (list ascii)) (l : list ascii)
  : option (list ascii) :=
  foldr (λ p r, match strip p l with Some l' => Some l' | None => r end)
        None pats.

Fixpoint trimLeft (fuel : nat) (pats : list (list ascii)) (l : list ascii)
  : list ascii :=
  match fuel with
  | O => l
  | S fuel' =>
      match stripSpace pats l with
      | Some l' => trimLeft fuel' pats l'
      | None => l
      end
  end.

Definition trimBy (pats : list (list ascii)) (l : list ascii) : list ascii :=
  trimLeft (length l) pats l.

(** [strings.TrimSpace] *)
Definition TrimSpace (s : string) : string :=
  let fwd := map (map ascii_of) spaces in
  let bwd := map (@rev ascii) fwd in
  let l := trimBy fwd (list_ascii_of_string s) in
  string_of_list_ascii (rev (trimBy bwd (rev l))).

(** The first occurrence of [sep] cuts [s] in two. *)
Fixpoint cut (sep : ascii) (s : string) : option (string * string) :=
  match s with
  | EmptyString => None
  | String c s' =>
      if Ascii.eqb c sep then Some (EmptyString, s')
      else '(a, b) ← cut sep s'; Some (String c a, b)
  end.

(** [strings.SplitN(s, sep, 2)] for a separator of one byte *)
Definition SplitN2 (s : string) (sep : ascii) : list string :=
  match cut sep s with
  | Some (a, b) => [a; b]
  | None => [s]
  end.

Fixpoint contains (sep : ascii) (s : string) : bool :=
  match s with
  | EmptyString => false
  | String c s' => Ascii.eqb c sep || contains sep s'
  end.

End GoString.

Import GoString.

(** ** Sorting *)

Fixpoint insert_by {A} (less : A → A → bool) (x : A) (l : list A) : list A :=
  match l with
  | [] => [x]
  | y :: l' => if less y x then y :: insert_by less x l' else x :: l
  end.

(** A sort by a comparison [less], as [ORDER BY] and [sort.Slice] perform
    one.  Neither promises an order among elements that compare equal; this
    one keeps them in the order of the input. *)
Definition sort_by {A} (less : A → A → bool) (l : list A) : list A :=
  foldr (insert_by less) [] l.

(** ** The store: the table [tasks] of [tasks.db] behind [database/sql] *)

(** A row of [tasks].  [row_created_at] is the instant that [loadTasks] gets
    from the column with [time.Parse], whose error it drops. *)
Record Row := mkRow {
  row_id : Z;
  row_title : string;
  row_priority : Z;
  row_created_at : Z;
  row_parent_id : option Z
}.

(** The data file: the rows and the counter of [AUTOINCREMENT]. *)
Record File := mkFile {
  file_table : list Row;
  file_seq : Z
}.

(** The handle [tm.db]: the table as the connection sees it.  [faults] says
    how the coming calls end: [Some msg] is a call that fails with that
    error, [None] (or an exhausted list) one that succeeds. *)
Record DB := mkDB {
  table : list Row;
  seq : Z;
  faults : list (option string)
}.

Abbreviation error := string (only parsing).

Module Sql.

Local Open Scope Z_scope.

(** The data source name that [initDB] hands to [sql.Open] *)
Definition dataSourceName : string := "tasks.db".

(** Whether the connection enforces foreign keys, and with them the clause
    [ON DELETE CASCADE] of the schema.  SQLite does so only on request; the
    data source name asks for nothing and the program runs no [PRAGMA], so
    the connection keeps the default. *)
Definition foreign_keys : bool := false.

(** [sql.Open("sqlite3", dataSourceName)] *)
Definition Open (f : File) (io : list (option string)) : DB :=
  {| table := file_table f; seq := file_seq f; faults := io |}.

(** Every call consumes its entry of [faults]. *)
Definition call (d : DB) : DB * option error :=
  match faults d with
  | [] => (d, None)
  | f :: io => ({| table := table d; seq := seq d; faults := io |}, f)
  end.

Definition with_table (rows : list Row) (n : Z) (d : DB) : DB :=
  {| table := rows; seq := n; faults := faults d |}.

Definition has_id (i : Z) (r : Row) : bool := bool_decide (row_id r = i).

Definition has_parent (i : Z) (r : Row) : bool :=
  bool_decide (row_parent_id r = Some i).

(** [ORDER BY priority DESC, created_at ASC] *)
Definition row_before (a b : Row) : bool :=
  (row_priority b <? row_priority a)
  || ((row_priority a =? row_priority b)
      && (row_created_at a <? row_created_at b)).

(** [CREATE TABLE IF NOT EXISTS tasks (...)] *)
Definition Exec_create (d : DB) : DB * option error := call d.

(** [SELECT id, title, priority, created_at, parent_id FROM tasks
     ORDER BY priority DESC, created_at ASC] *)
Definition Query_tasks (d : DB) : DB * (error + list Row) :=
  match call d with
  | (d', Some e) => (d', inl e)
  | (d', None) => (d', inr (sort_by row_before (table d')))
  end.

(** [SELECT priority FROM tasks WHERE id = ?], scanned from the first row *)
Definition QueryRow_priority (d : DB) (i : Z) : DB * (error + Z) :=
  match call d with
  | (d', Some e) => (d', inl e)
  | (d', None) =>
      match filter (λ r, has_id i r = true) (table d') with
      | r :: _ => (d', inr (row_priority r))
      | [] => (d', inl "sql: no rows in result set")
      end
  end.

(** [INSERT INTO tasks (title, priority[, parent_id]) VALUES (...)]: the id
    is one more than the largest ever used, [created_at] the current time.
    The result is [LastInsertId]. *)
Definition Exec_insert (d : DB) (now : Z) (ttl : string) (prio : Z)
    (parent : option Z) : DB * (error + Z) :=
  match call d with
  | (d', Some e) => (d', inl e)
  | (d', None) =>
      let known := match parent with
                   | Some p => existsb (has_id p) (table d')
                   | None => true
                   end in
      if foreign_keys && negb known
      then (d', inl "FOREIGN KEY constraint failed")
      else
        let i := 1 + foldr Z.max (Z.max 0 (seq d')) (row_id <$> table d') in
        (with_table (table d' ++ [mkRow i ttl prio now parent]) i d', inr i)
  end.

(** [UPDATE tasks SET title = ?, priority = ? WHERE id = ?] *)
Definition Exec_update (d : DB) (ttl : string) (prio : Z) (i : Z)
  : DB * option error :=
  match call d with
  | (d', Some e) => (d', Some e)
  | (d', None) =>
      (with_table
         ((λ r, if has_id i r
                then mkRow (row_id r) ttl prio (row_created_at r)
                       (row_parent_id r)
                else r) <$> table d') (seq d') d', None)
  end.

(** [UPDATE tasks SET priority = ? WHERE id = ?] *)
Definition Exec_set_priority (d : DB) (prio : Z) (i : Z)
  : DB * option error :=
  match call d with
  | (d', Some e) => (d', Some e)
  | (d', None) =>
      (with_table
         ((λ r, if has_id i r
                then mkRow (row_id r) (row_title r) prio (row_created_at r)
                       (row_parent_id r)
                else r) <$> table d') (seq d') d', None)
  end.

(** What [ON DELETE CASCADE] removes once the rows [gone] are deleted, when
    foreign keys are enforced: the rows that refer to them, and so on. *)
Fixpoint cascade (fuel : nat) (gone : list Z) (rows : list Row) : list Row :=
  match fuel with
  | O => rows
  | S fuel' =>
      let refers (r : Row) :=
        match row_parent_id r with
        | Some p => bool_decide (p ∈ gone)
        | None => false
        end in
      match filter (λ r, refers r = true) rows with
      | [] => rows
      | dead =>
          cascade fuel' (row_id <$> dead)
            (filter (λ r, refers r = false) rows)
      end
  end.

(** [DELETE FROM tasks WHERE id = ? OR parent_id = ?], both placeholders
    bound to the same id *)
Definition Exec_delete (d : DB) (i : Z) : DB * option error :=
  match call d with
  | (d', Some e) => (d', Some e)
  | (d', None) =>
      let hit (r : Row) := has_id i r || has_parent i r in
      let dead := filter (λ r, hit r = true) (table d') in
      let live := filter (λ r, hit r = false) (table d') in
      let rows := if foreign_keys
                  then cascade (length live) (row_id <$> dead) live
                  else live in
      (with_table rows (seq d') d', None)
  end.

End Sql.

(** ** Tasks and the task manager *)

(** [ParentID] is [None] for a nil pointer.  [Children] holds pointers. *)
Record Task := mkTask {
  ID : Z;
  Title : string;
  Priority : Z;
  CreatedAt : Z;
  ParentID : option Z;
  Children : list Z;
  IsExpanded : bool
}.

Definition set_Children (v : list Z) (t : Task) : Task :=
  {| ID := ID t; Title := Title t; Priority := Priority t;
     CreatedAt := CreatedAt t; ParentID := ParentID t;
     Children := v; IsExpanded := IsExpanded t |}.

Definition set_IsExpanded (v : bool) (t : Task) : Task :=
  {| ID := ID t; Title := Title t; Priority := Priority t;
     CreatedAt := CreatedAt t; ParentID := ParentID t;
     Children := Children t; IsExpanded := v |}.

Record TaskManager := mkTaskManager {
  db : DB;
  heap : gmap Z Task;
  tasks : list Z;
  currentIndex : Z;
  scrollOffset : Z;
  flatView : list Z;
  editMode : bool;
  editBuffer : string;
  statusMsg : string;
  inputMode : string;
  inputStep : Z;
  inputTitle : string;
  inputPriority : string
}.

Definition set_db (v : DB) (tm : TaskManager) : TaskManager :=
  {| db := v; heap := heap tm; tasks := tasks tm;
     currentIndex := currentIndex tm; scrollOffset := scrollOffset tm;
     flatView := flatView tm; editMode := editMode tm;
     editBuffer := editBuffer tm; statusMsg := statusMsg tm;
     inputMode := inputMode tm; inputStep := inputStep tm;
     inputTitle := inputTitle tm; inputPriority := inputPriority tm |}.
Definition set_heap (v : gmap Z Task) (tm : TaskManager) : TaskManager :=
  {| db := db tm; heap := v; tasks := tasks tm;
     currentIndex := currentIndex tm; scrollOffset := scrollOffset tm;
     flatView := flatView tm; editMode := editMode tm;
     editBuffer := editBuffer tm; statusMsg := statusMsg tm;
     inputMode := inputMode tm; inputStep := inputStep tm;
     inputTitle := inputTitle tm; inputPriority := inputPriority tm |}.
Definition set_tasks (v : list Z) (tm : TaskManager) : TaskManager :=
  {| db := db tm; heap := heap tm; tasks := v;
     currentIndex := currentIndex tm; scrollOffset := scrollOffset tm;
     flatView := flatView tm; editMode := editMode tm;
     editBuffer := editBuffer tm; statusMsg := statusMsg tm;
     inputMode := inputMode tm; inputStep := inputStep tm;
     inputTitle := inputTitle tm; inputPriority := inputPriority tm |}.
Definition set_currentIndex (v : Z) (tm : TaskManager) : TaskManager :=
  {| db := db tm; heap := heap tm; tasks := tasks tm; currentIndex := v;
     scrollOffset := scrollOffset tm; flatView := flatView tm;
     editMode := editMode tm; editBuffer := editBuffer tm;
     statusMsg := statusMsg tm; inputMode := inputMode tm;
     inputStep := inputStep tm; inputTitle := inputTitle tm;
     inputPriority := inputPriority tm |}.
Definition set_scrollOffset (v : Z) (tm : TaskManager) : TaskManager :=
  {| db := db tm; heap := heap tm; tasks := tasks tm;
     currentIndex := currentIndex tm; scrollOffset := v;
     flatView := flatView tm; editMode := editMode tm;
     editBuffer := editBuffer tm; statusMsg := statusMsg tm;
     inputMode := inputMode tm; inputStep := inputStep tm;
     inputTitle := inputTitle tm; inputPriority := inputPriority tm |}.
Definition set_flatView (v : list Z) (tm : TaskManager) : TaskManager :=
  {| db := db tm; heap := heap tm; tasks := tasks tm;
     currentIndex := currentIndex tm; scrollOffset := scrollOffset tm;
     flatView := v; editMode := editMode tm; editBuffer := editBuffer tm;
     statusMsg := statusMsg tm; inputMode := inputMode tm;
     inputStep := inputStep tm; inputTitle := inputTitle tm;
     inputPriority := inputPriority tm |}.
Definition set_editMode (v : bool) (tm : TaskManager) : TaskManager :=
  {| db := db tm; heap := heap tm; tasks := tasks tm;
     currentIndex := currentIndex tm; scrollOffset := scrollOffset tm;
     flatView := flatView tm; editMode := v; editBuffer := editBuffer tm;
     statusMsg := statusMsg tm; inputMode := inputMode tm;
     inputStep := inputStep tm; inputTitle := inputTitle tm;
     inputPriority := inputPriority tm |}.
Definition set_editBuffer (v : string) (tm : TaskManager) : TaskManager :=
  {| db := db tm; heap := heap tm; tasks := tasks tm;
     currentIndex := currentIndex tm; scrollOffset := scrollOffset tm;
     flatView := flatView tm; editMode := editMode tm; editBuffer := v;
     statusMsg := statusMsg tm; inputMode := inputMode tm;
     inputStep := inputStep tm; inputTitle := inputTitle tm;
     inputPriority := inputPriority tm |}.
Definition set_statusMsg (v : string) (tm : TaskManager) : TaskManager :=
  {| db := db tm; heap := heap tm; tasks := tasks tm;
     currentIndex := currentIndex tm; scrollOffset := scrollOffset tm;
     flatView := flatView tm; editMode := editMode tm;
     editBuffer := editBuffer tm; statusMsg := v; inputMode := inputMode tm;
     inputStep := inputStep tm; inputTitle := inputTitle tm;
     inputPriority := inputPriority tm |}.
Definition set_inputMode (v : string) (tm : TaskManager) : TaskManager :=
  {| db := db tm; heap := heap tm; tasks := tasks tm;
     currentIndex := currentIndex tm; scrollOffset := scrollOffset tm;
     flatView := flatView tm; editMode := editMode tm;
     editBuffer := editBuffer tm; statusMsg := statusMsg tm; inputMode := v;
     inputStep := inputStep tm; inputTitle := inputTitle tm;
     inputPriority := inputPriority tm |}.
Definition set_inputStep (v : Z) (tm : TaskManager) : TaskManager :=
  {| db := db tm; heap := heap tm; tasks := tasks tm;
     currentIndex := currentIndex tm; scrollOffset := scrollOffset tm;
     flatView := flatView tm; editMode := editMode tm;
     editBuffer := editBuffer tm; statusMsg := statusMsg tm;
     inputMode := inputMode tm; inputStep := v; inputTitle := inputTitle tm;
     inputPriority := inputPriority tm |}.
Definition set_inputTitle (v : string) (tm : TaskManager) : TaskManager :=
  {| db := db tm; heap := heap tm; tasks := tasks tm;
     currentIndex := currentIndex tm; scrollOffset := scrollOffset tm;
     flatView := flatView tm; editMode := editMode tm;
     editBuffer := editBuffer tm; statusMsg := statusMsg tm;
     inputMode := inputMode tm; inputStep := inputStep tm; inputTitle := v;
     inputPriority := inputPriority tm |}.
Definition set_inputPriority (v : string) (tm : TaskManager) : TaskManager :=
  {| db := db tm; heap := heap tm; tasks := tasks tm;
     currentIndex := currentIndex tm; scrollOffset := scrollOffset tm;
     flatView := flatView tm; editMode := editMode tm;
     editBuffer := editBuffer tm; statusMsg := statusMsg tm;
     inputMode := inputMode tm; inputStep := inputStep tm;
     inputTitle := inputTitle tm; inputPriority := v |}.

(** What the process reads from its environment while it handles one event:
    the height reported by [termbox.Size] and the clock of the store. *)
Record World := mkWorld {
  height : Z;
  now : Z
}.

Inductive Key :=
  | KeyNone | KeyCtrlC | KeyCtrlD | KeyCtrlU | KeySpace | KeyEsc | KeyEnter
  | KeyBackspace | KeyBackspace2 | KeyOther.

(** A [termbox.Event]: of type [EventKey] with its [Key] and [Ch], or of
    another type (resize, mouse, ...). *)
Inductive Event :=
  | EventKey (key : Key) (ch : Z)
  | EventOther.

Definition rune (c : ascii) : Z := byte_of c.

Section Methods.

Local Open Scope Z_scope.

Definition len {A} (l : list A) : Z := Z.of_nat (length l).

(** [l[i]], which panics out of range *)
Definition index {A} (l : list A) (i : Z) : option A :=
  if i <? 0 then None else l !! Z.to_nat i.

(** One row scanned into a fresh [&Task{Children: ..., IsExpanded: true}] *)
Definition scanRow (r : Row) : Task :=
  {| ID := row_id r; Title := row_title r; Priority := row_priority r;
     CreatedAt := row_created_at r; ParentID := row_parent_id r;
     Children := []; IsExpanded := true |}.

(** The comparison of [sortTasks] on two elements of the slice *)
Definition less (h : gmap Z Task) (a b : Z) : bool :=
  match h !! a, h !! b with
  | Some ta, Some tb =>
      if negb (Priority ta =? Priority tb)
      then Priority tb <? Priority ta
      else CreatedAt ta <? CreatedAt tb
  | _, _ => false
  end.

Definition sortTasks (h : gmap Z Task) (l : list Z) : list Z :=
  sort_by (less h) l.

Definition addChild (c : Z) (t : Task) : Task :=
  set_Children (Children t ++ [c]) t.

(** The body of the loop "Build hierarchy" for one entry of [taskMap] *)
Definition link (acc : gmap Z Task * list Z) (kt : Z * Task)
  : gmap Z Task * list Z :=
  match ParentID kt.2 with
  | None => (acc.1, acc.2 ++ [kt.1])
  | Some pid =>
      match acc.1 !! pid with
      | Some parent => (<[pid := addChild kt.1 parent]> acc.1, acc.2)
      | None => acc
      end
  end.

(** [taskMap[task.ID] = task] for every row *)
Definition buildTaskMap (rows : list Row) : gmap Z Task :=
  foldl (λ m r, <[row_id r := scanRow r]> m) ∅ rows.

(** The loop "Build hierarchy".  Go leaves the order in which [range] visits
    a map open; the loop runs here in the order of [map_to_list], and the
    sort that follows is what the properties below rest on. *)
Definition buildHierarchy (taskMap : gmap Z Task) : gmap Z Task * list Z :=
  foldl link (taskMap, []) (map_to_list taskMap).

(** The objects and the root slice that [loadTasks] builds from the rows.
    Sorting a slice changes no field that the comparison reads, so the
    second loop is a map over the objects. *)
Definition buildForest (rows : list Row) : gmap Z Task * list Z :=
  let hr := buildHierarchy (buildTaskMap rows) in
  (( λ t, set_Children (sortTasks hr.1 (Children t)) t) <$> hr.1,
   sortTasks hr.1 hr.2).

Definition loadTasks (tm : TaskManager) : TaskManager * option error :=
  match Sql.Query_tasks (db tm) with
  | (d, inl e) => (set_db d tm, Some e)
  | (d, inr rows) =>
      let hr := buildForest rows in
      (set_tasks hr.2 (set_heap hr.1 (set_db d tm)), None)
  end.

(** [buildFlatView] appends to [tm.flatView], here [fv].  The recursion of
    the source follows the pointers; [fuel] bounds its depth. *)
Fixpoint buildFlatView (fuel : nat) (h : gmap Z Task) (ts : list Z)
    (fv : list Z) : option (list Z) :=
  match fuel with
  | O => None
  | S fuel' =>
      (fix range (ts : list Z) (fv : list Z) : option (list Z) :=
         match ts with
         | [] => Some fv
         | task :: ts' =>
             t ← h !! task;
             let fv := fv ++ [task] in
             fv ← (if IsExpanded t && (0 <? len (Children t))
                   then buildFlatView fuel' h (Children t) fv
                   else Some fv);
             range ts' fv
         end) ts fv
  end.

Definition adjustScroll (w : World) (tm : TaskManager) : TaskManager :=
  let maxVisibleTasks := height w - 4 in
  if maxVisibleTasks <=? 0 then tm
  else
    let tm :=
      if currentIndex tm <? scrollOffset tm
      then set_scrollOffset (currentIndex tm) tm
      else if scrollOffset tm + maxVisibleTasks <=? currentIndex tm
      then set_scrollOffset (currentIndex tm - maxVisibleTasks + 1) tm
      else tm in
    let tm :=
      if len (flatView tm) - maxVisibleTasks <? scrollOffset tm
      then set_scrollOffset (len (flatView tm) - maxVisibleTasks) tm
      else tm in
    if scrollOffset tm <? 0 then set_scrollOffset 0 tm else tm.

Definition fuel_of (h : gmap Z Task) : nat := S (size h).

Definition rebuildFlatView (w : World) (tm : TaskManager)
  : option TaskManager :=
  fv ← buildFlatView (fuel_of (heap tm)) (heap tm) (tasks tm) [];
  let tm := set_flatView fv tm in
  let tm := if len (flatView tm) <=? currentIndex tm
            then set_currentIndex (len (flatView tm) - 1) tm else tm in
  let tm := if currentIndex tm <? 0 then set_currentIndex 0 tm else tm in
  Some (adjustScroll w tm).

Definition reload (w : World) (tm : TaskManager) : option TaskManager :=
  rebuildFlatView w (loadTasks tm).1.

Definition addTask (w : World) (ttl : string) (prio : Z) (parentID : option Z)
    (tm : TaskManager) : option (TaskManager * option error) :=
  match Sql.Exec_insert (db tm) (now w) ttl prio parentID with
  | (d, inl e) => Some (set_db d tm, Some e)
  | (d, inr i) =>
      let tm := set_db d tm in
      let tm := set_statusMsg
                  ("Added task: " +:+ ttl +:+ " (ID: " +:+ itoa i +:+ ")") tm in
      tm ← reload w tm;
      Some (tm, None)
  end.

Definition deleteTask (w : World) (taskID : Z) (tm : TaskManager)
  : option (TaskManager * option error) :=
  match Sql.Exec_delete (db tm) taskID with
  | (d, Some e) => Some (set_db d tm, Some e)
  | (d, None) =>
      let tm := set_db d tm in
      let tm := set_statusMsg ("Deleted task ID: " +:+ itoa taskID) tm in
      tm ← reload w tm;
      Some (tm, None)
  end.

Definition updateTask (w : World) (taskID : Z) (ttl : string) (prio : Z)
    (tm : TaskManager) : option (TaskManager * option error) :=
  match Sql.Exec_update (db tm) ttl prio taskID with
  | (d, Some e) => Some (set_db d tm, Some e)
  | (d, None) =>
      let tm := set_db d tm in
      let tm := set_statusMsg ("Updated task ID: " +:+ itoa taskID) tm in
      tm ← reload w tm;
      Some (tm, None)
  end.

Definition clamp (p : Z) : Z :=
  let p := if p <? 1 then 1 else p in
  if 100 <? p then 100 else p.

Definition updateTaskPriority (w : World) (taskID : Z) (priorityChange : Z)
    (tm : TaskManager) : option (TaskManager * option error) :=
  match Sql.QueryRow_priority (db tm) taskID with
  | (d, inl e) => Some (set_db d tm, Some e)
  | (d, inr currentPriority) =>
      let newPriority := clamp (currentPriority + priorityChange) in
      match Sql.Exec_set_priority d newPriority taskID with
      | (d, Some e) => Some (set_db d tm, Some e)
      | (d, None) =>
          let tm := set_db d tm in
          let tm := set_statusMsg
                      ("Updated task priority: " +:+ itoa currentPriority
                       +:+ " -> " +:+ itoa newPriority) tm in
          tm ← reload w tm;
          Some (tm, None)
      end
  end.

Definition scrollHalfPageDown (w : World) (tm : TaskManager) : TaskManager :=
  let halfPage := (height w - 4) ÷ 2 in
  let tm := set_currentIndex (currentIndex tm + halfPage) tm in
  let tm := if len (flatView tm) <=? currentIndex tm
            then set_currentIndex (len (flatView tm) - 1) tm else tm in
  adjustScroll w tm.

Definition scrollHalfPageUp (w : World) (tm : TaskManager) : TaskManager :=
  let halfPage := (height w - 4) ÷ 2 in
  let tm := set_currentIndex (currentIndex tm - halfPage) tm in
  let tm := if currentIndex tm <? 0 then set_currentIndex 0 tm else tm in
  adjustScroll w tm.

(** [len(tm.flatView) > 0 && tm.currentIndex < len(tm.flatView)] *)
Definition hasCurrent (tm : TaskManager) : bool :=
  (0 <? len (flatView tm)) && (currentIndex tm <? len (flatView tm)).

(** [tm.flatView[tm.currentIndex]] and the object it points to *)
Definition current (tm : TaskManager) : option (Z * Task) :=
  p ← index (flatView tm) (currentIndex tm);
  t ← heap tm !! p;
  Some (p, t).

Definition toggle (w : World) (tm : TaskManager) : option TaskManager :=
  if hasCurrent tm then
    '(p, t) ← current tm;
    if 0 <? len (Children t) then
      rebuildFlatView w
        (set_heap (<[p := set_IsExpanded (negb (IsExpanded t)) t]> (heap tm))
           tm)
    else Some tm
  else Some tm.

Definition clearInput (tm : TaskManager) : TaskManager :=
  set_inputPriority "" (set_inputTitle "" (set_inputStep 0 tm)).

(** The first [switch] of [handleNormalMode], on [ev.Key]; [KeyCtrlC]
    returns before it. *)
Definition normalKey (w : World) (key : Key) (tm : TaskManager)
  : option TaskManager :=
  match key with
  | KeyCtrlD => Some (scrollHalfPageDown w tm)
  | KeyCtrlU => Some (scrollHalfPageUp w tm)
  | KeySpace => toggle w tm
  | _ => Some tm
  end.

(** The second [switch] of [handleNormalMode], on [ev.Ch] *)
Definition normalCh (w : World) (ch : Z) (tm : TaskManager)
  : option (TaskManager * bool) :=
  if ch =? rune "q" then Some (tm, true)
  else
    tm ←
      (if ch =? rune "j" then
         if currentIndex tm <? len (flatView tm) - 1
         then Some (adjustScroll w
                      (set_currentIndex (currentIndex tm + 1) tm))
         else Some tm
       else if ch =? rune "k" then
         if 0 <? currentIndex tm
         then Some (adjustScroll w
                      (set_currentIndex (currentIndex tm - 1) tm))
         else Some tm
       else if ch =? rune "J" then
         if hasCurrent tm then
           '(_, t) ← current tm;
           fst <$> updateTaskPriority w (ID t) (-1) tm
         else Some tm
       else if ch =? rune "K" then
         if hasCurrent tm then
           '(_, t) ← current tm;
           fst <$> updateTaskPriority w (ID t) 1 tm
         else Some tm
       else if ch =? rune "g" then
         Some (adjustScroll w (set_currentIndex 0 tm))
       else if ch =? rune "G" then
         Some (adjustScroll w
                 (set_currentIndex (len (flatView tm) - 1) tm))
       else if ch =? rune "a" then
         Some (clearInput (set_inputMode "add" tm))
       else if ch =? rune "s" then
         if hasCurrent tm
         then Some (clearInput (set_inputMode "addsubtask" tm))
         else Some tm
       else if ch =? rune "d" then
         if hasCurrent tm then
           '(_, t) ← current tm;
           fst <$> deleteTask w (ID t) tm
         else Some tm
       else if ch =? rune "e" then
         if hasCurrent tm then
           '(_, t) ← current tm;
           Some (set_editBuffer (Title t +:+ ":" +:+ itoa (Priority t))
                   (set_editMode true tm))
         else Some tm
       else Some tm);
    Some (tm, false).

Definition handleNormalMode (w : World) (key : Key) (ch : Z)
    (tm : TaskManager) : option (TaskManager * bool) :=
  let tm := set_statusMsg "" tm in
  match key with
  | KeyCtrlC => Some (tm, true)
  | _ => tm ← normalKey w key tm; normalCh w ch tm
  end.

Definition leaveInput (tm : TaskManager) : TaskManager :=
  clearInput (set_inputMode "" tm).

Definition typeInput (s : string) (tm : TaskManager) : TaskManager :=
  if inputStep tm =? 0
  then set_inputTitle (inputTitle tm +:+ s) tm
  else set_inputPriority (inputPriority tm +:+ s) tm.

Definition handleInputMode (w : World) (key : Key) (ch : Z)
    (tm : TaskManager) : option (TaskManager * bool) :=
  match key with
  | KeyEsc => Some (leaveInput tm, false)
  | KeyEnter =>
      if inputStep tm =? 0 then
        if String.eqb (inputTitle tm) ""
        then Some (set_statusMsg "Task title cannot be empty" tm, false)
        else Some (set_inputStep 1 tm, false)
      else
        let priority :=
          if String.eqb (inputPriority tm) "" then 50
          else match Atoi (inputPriority tm) with
               | Some p => if (1 <=? p) && (p <=? 100) then p else 50
               | None => 50
               end in
        parentID ←
          (if String.eqb (inputMode tm) "addsubtask" && hasCurrent tm
           then '(_, currentTask) ← current tm; Some (Some (ID currentTask))
           else Some None);
        '(tm, err) ← addTask w (inputTitle tm) priority parentID tm;
        let tm := match err with
                  | Some e => set_statusMsg ("Error adding task: " +:+ e) tm
                  | None => tm
                  end in
        Some (leaveInput tm, false)
  | KeyBackspace | KeyBackspace2 =>
      if inputStep tm =? 0
      then Some (set_inputTitle (dropLast (inputTitle tm)) tm, false)
      else Some (set_inputPriority (dropLast (inputPriority tm)) tm, false)
  | KeySpace => Some (typeInput " " tm, false)
  | _ =>
      if ch =? 0 then Some (tm, false)
      else Some (typeInput (encodeRune ch) tm, false)
  end.

Definition leaveEdit (tm : TaskManager) : TaskManager :=
  set_editBuffer "" (set_editMode false tm).

Definition handleEditMode (w : World) (key : Key) (ch : Z)
    (tm : TaskManager) : option (TaskManager * bool) :=
  match key with
  | KeyEsc => Some (leaveEdit tm, false)
  | KeyEnter =>
      tm ←
        (if hasCurrent tm then
           '(_, task) ← current tm;
           match SplitN2 (editBuffer tm) ":" with
           | [part0; part1] =>
               let ttl := TrimSpace part0 in
               let priority := match Atoi (TrimSpace part1) with
                               | Some p => p
                               | None => Priority task
                               end in
               fst <$> updateTask w (ID task) ttl (clamp priority) tm
           | _ => Some tm
           end
         else Some tm);
      Some (leaveEdit tm, false)
  | KeyBackspace | KeyBackspace2 =>
      Some (set_editBuffer (dropLast (editBuffer tm)) tm, false)
  | _ =>
      if ch =? 0 then Some (tm, false)
      else Some (set_editBuffer (editBuffer tm +:+ encodeRune ch) tm, false)
  end.

(** One turn of the loop of [Run] without the rendering: the event polled
    is [ev]; the result says whether to quit. *)
Definition handleInput (w : World) (ev : Event) (tm : TaskManager)
  : option (TaskManager * bool) :=
  match ev with
  | EventKey key ch =>
      if editMode tm then handleEditMode w key ch tm
      else if negb (String.eqb (inputMode tm) "") then
        handleInputMode w key ch tm
      else handleNormalMode w key ch tm
  | EventOther => Some (tm, false)
  end.

(** [initDB]: the error of [CREATE TABLE] is the result. *)
Definition initDB (f : File) (io : list (option string))
  : DB * option error :=
  Sql.Exec_create (Sql.Open f io).

(** [NewTaskManager]; [None] is also the exit of [log.Fatal]. *)
Definition NewTaskManager (w : World) (f : File) (io : list (option string))
  : option TaskManager :=
  match initDB f io with
  | (_, Some _) => None
  | (d, None) =>
      reload w
        {| db := d; heap := ∅; tasks := []; currentIndex := 0;
           scrollOffset := 0; flatView := []; editMode := false;
           editBuffer := ""; statusMsg := ""; inputMode := "";
           inputStep := 0; inputTitle := ""; inputPriority := "" |}
  end.

(** The first element of the view whose [ID] is [i], as the two loops of
    [getTaskDepth] look for one *)
Fixpoint findID (h : gmap Z Task) (fv : list Z) (i : Z)
  : option (option Z) :=
  match fv with
  | [] => Some None
  | p :: fv' =>
      t ← h !! p;
      if ID t =? i then Some (Some p) else findID h fv' i
  end.

(** [getTaskDepth]: 0 for a task that is not in the view or has no parent
    in it, one more than the depth of its parent otherwise.  [fuel] bounds
    the recursion. *)
Fixpoint getTaskDepth (fuel : nat) (tm : TaskManager) (task : Z)
  : option Z :=
  match fuel with
  | O => None
  | S fuel' =>
      tk ← heap tm !! task;
      found ← findID (heap tm) (flatView tm) (ID tk);
      match found, ParentID tk with
      | Some _, Some parentID =>
          par ← findID (heap tm) (flatView tm) parentID;
          match par with
          | Some parent =>
              d ← getTaskDepth fuel' tm parent; Some (d + 1)
          | None => Some 0
          end
      | _, _ => Some 0
      end
  end.

End Methods.

(** ** The states the program reaches *)

Inductive reachable : TaskManager → Prop :=
  | reach_new w f io tm :
      NewTaskManager w f io = Some tm → reachable tm
  | reach_step w ev tm tm' quit :
      reachable tm → handleInput w ev tm = Some (tm', quit) → reachable tm'.

(** ** The shape of the objects: parents, depth, well-formed forests *)

Definition parent (h : gmap Z Task) (x : Z) : option Z :=
  t ← h !! x; ParentID t.

(** The [k]-th ancestor along the [ParentID]s *)
Fixpoint anc (h : gmap Z Task) (k : nat) (x : Z) : option Z :=
  match k with
  | O => Some x
  | S k' => p ← parent h x; anc h k' p
  end.

Definition top (h : gmap Z Task) (r : Z) : Prop :=
  ∃ t, h !! r = Some t ∧ ParentID t = None.

Definition depth (h : gmap Z Task) (x : Z) (d : nat) : Prop :=
  ∃ r, anc h d x = Some r ∧ top h r.

(** The root slice and the [Children] slices list each object once, under
    the parent its [ParentID] names, and an object is filed under its [ID]. *)
Record wf_forest (h : gmap Z Task) (roots : list Z) : Prop := {
  wf_roots_nodup : NoDup roots;
  wf_roots : ∀ r, r ∈ roots → top h r;
  wf_children_nodup : ∀ p t, h !! p = Some t → NoDup (Children t);
  wf_children :
    ∀ p t c, h !! p = Some t → c ∈ Children t → parent h c = Some p;
  wf_id : ∀ p t, h !! p = Some t → ID t = p
}.

(** What the loop "Build hierarchy" comes to: the keys of [taskMap] without
    a parent, and those with the parent [p], in the order of the iteration *)
Definition roots_of (taskMap : gmap Z Task) : list Z :=
  (filter (λ kt, ParentID kt.2 = None) (map_to_list taskMap)).*1.

Definition kids_of (taskMap : gmap Z Task) (p : Z) : list Z :=
  (filter (λ kt, ParentID kt.2 = Some p) (map_to_list taskMap)).*1.

(** Two heaps that hold the same objects up to [Children] and [IsExpanded] *)
Definition similar (h1 h2 : gmap Z Task) : Prop :=
  ∀ k, set_IsExpanded true ∘ set_Children [] <$> h1 !! k
       = set_IsExpanded true ∘ set_Children [] <$> h2 !! k.

(** ** The order of the specification *)

(** Priority descending, ties broken by creation time ascending. *)
Definition task_le (a b : Task) : Prop :=
  (Priority b < Priority a
   ∨ (Priority a = Priority b ∧ CreatedAt a ≤ CreatedAt b))%Z.

Definition ptr_le (h : gmap Z Task) (a b : Z) : Prop :=
  ∃ ta tb, h !! a = Some ta ∧ h !! b = Some tb ∧ task_le ta tb.

Definition sorted_heap (h : gmap Z Task) (roots : list Z) : Prop :=
  StronglySorted (ptr_le h) roots
  ∧ ∀ p t, h !! p = Some t → StronglySorted (ptr_le h) (Children t).

(** ** The forest of the specification *)

(** A task that owns its subtasks. *)
#[warnings="-register-all"] Inductive Tree := Node (task : Task) (kids : list Tree).

Definition root (t : Tree) : Task :=
  match t with Node task _ => task end.

(** The tree that hangs below each pointer of [ps] *)
Fixpoint forest (fuel : nat) (h : gmap Z Task) (ps : list Z)
  : option (list Tree) :=
  match fuel with
  | O => None
  | S fuel' =>
      mapM (λ p, t ← h !! p;
                 kids ← forest fuel' h (Children t);
                 Some (Node t kids)) ps
  end.

(** The pre-order walk in the words of the specification: visit a node,
    then, only if it is expanded and has at least one child, its children in
    their order. *)
Fixpoint preorder (t : Tree) : list Task :=
  match t with
  | Node task kids =>
      task :: (if IsExpanded task && negb (bool_decide (kids = []))
               then flat_map preorder kids else [])
  end.

(** Every sibling group of the tree is in the order of the specification. *)
#[warnings="-register-all"] Inductive ordered : Tree → Prop :=
  | ordered_node task kids :
      StronglySorted task_le (root <$> kids) →
      Forall ordered kids →
      ordered (Node task kids).

(** All the nodes below the roots, collapsed or not *)
Fixpoint nodes (t : Tree) : list Task :=
  match t with
  | Node task kids => task :: flat_map nodes kids
  end.

(** The transitive descendants of the object [p] *)
Definition descendants (h : gmap Z Task) (p : Z) : option (list Task) :=
  t ← h !! p;
  kids ← forest (fuel_of h) h (Children t);
  Some (flat_map nodes kids).

(** What [buildFlatView] appends after the task [t] before it goes on to
    the next sibling *)
Definition below (fuel : nat) (h : gmap Z Task) (t : Task)
  : option (list Z) :=
  if IsExpanded t && (0 <? len (Children t))%Z
  then buildFlatView fuel h (Children t) []
  else Some [].

(** The descendants of [p] that the flat view shows when [p] is shown *)
Definition shown_below (h : gmap Z Task) (p : Z) : option (list Z) :=
  t ← h !! p; below (fuel_of h) h t.

(** ** The invariant of the reachable states *)

(** The objects form a sorted forest and the flat view is its walk. *)
Record core (tm : TaskManager) : Prop := {
  core_wf : wf_forest (heap tm) (tasks tm);
  core_sorted : sorted_heap (heap tm) (tasks tm);
  core_flat :
    buildFlatView (fuel_of (heap tm)) (heap tm) (tasks tm) []
    = Some (flatView tm)
}.

Record inv (tm : TaskManager) : Prop := {
  inv_core : core tm;
  inv_edit :
    editMode tm = true →
    (0 ≤ currentIndex tm < len (flatView tm))%Z
}.

(** A step that touches neither the objects nor the view nor the store *)
Record frame (tm tm' : TaskManager) : Prop := {
  frame_heap : heap tm' = heap tm;
  frame_tasks : tasks tm' = tasks tm;
  frame_flatView : flatView tm' = flatView tm;
  frame_editMode : editMode tm' = editMode tm;
  frame_db : db tm' = db tm
}.

(** The two tests of [rebuildFlatView] on the cursor *)
Definition clampCursor (tm : TaskManager) : TaskManager :=
  let tm := if (len (flatView tm) <=? currentIndex tm)%Z
            then set_currentIndex (len (flatView tm) - 1) tm else tm in
  if (currentIndex tm <? 0)%Z then set_currentIndex 0 tm else tm.

(** What a reload may change: the store, the objects, the view, the cursor
    and the scroll offset *)
Definition rebuilt (tm tm' : TaskManager) : Prop :=
  ∃ d h r fv c so,
    tm' = set_scrollOffset so (set_currentIndex c (set_flatView fv
            (set_tasks r (set_heap h (set_db d tm))))).

(** The cursor is a valid index of a view that is not empty, and 0 on an
    empty one. *)
Definition valid_cursor (tm : TaskManager) : Prop :=
  (0 ≤ currentIndex tm < len (flatView tm))%Z
  ∨ (flatView tm = [] ∧ currentIndex tm = 0%Z).

(** ** Stores, worlds and key sequences of the examples *)

Definition world (rows : Z) : World := {| height := rows; now := 1000 |}.

Definition press (w : World) (key : Key) (ch : ascii)
    (o : option TaskManager) : option TaskManager :=
  tm ← o; fst <$> handleInput w (EventKey key (rune ch)) tm.

Definition hit (w : World) (key : Key) (o : option TaskManager)
  : option TaskManager :=
  tm ← o; fst <$> handleInput w (EventKey key 0) tm.

Definition row_A : Row := mkRow 1 "A" 50 10 None.
Definition row_B : Row := mkRow 2 "B" 50 11 (Some 1%Z).
Definition row_C : Row := mkRow 3 "C" 50 12 (Some 2%Z).

(** A task, its child and its grandchild *)
Definition file_chain : File :=
  {| file_table := [row_A; row_B; row_C]; file_seq := 3 |}.

(** One record whose parent is not in the table *)
Definition file_orphan : File :=
  {| file_table := [mkRow 2 "B" 50 11 (Some 7%Z)]; file_seq := 2 |}.

Definition file_empty : File := {| file_table := []; file_seq := 0 |}.

(** Three root tasks *)
Definition file_three : File :=
  {| file_table := [mkRow 1 "A" 70 10 None; mkRow 2 "B" 60 11 None;
                    mkRow 3 "C" 50 12 None];
     file_seq := 3 |}.

(** The chain loaded on a terminal of 24 rows *)
Definition st_chain : option TaskManager :=
  NewTaskManager (world 24) file_chain [].

(** The chain with [B] collapsed and the cursor back on [A] *)
Definition st_hidden : option TaskManager :=
  press (world 24) KeyNone "k"
    (hit (world 24) KeySpace (press (world 24) KeyNone "j" st_chain)).

(** Three tasks on a terminal that shows one row, the cursor on the last;
    then the terminal shrinks to four rows and two tasks are deleted. *)
Definition st_short : option TaskManager :=
  press (world 4) KeyNone "d"
    (press (world 4) KeyNone "d"
       (press (world 5) KeyNone "G"
          (NewTaskManager (world 5) file_three []))).

(** The chain in edit mode on [A], the buffer emptied and [":30"] typed *)
Definition st_edit : option TaskManager :=
  press (world 24) KeyNone "0"
    (press (world 24) KeyNone "3"
       (press (world 24) KeyNone ":"
          (hit (world 24) KeyBackspace
             (hit (world 24) KeyBackspace
                (hit (world 24) KeyBackspace
                   (hit (world 24) KeyBackspace
                      (press (world 24) KeyNone "e" st_chain))))))).

(** The chain in edit mode on [A], the colon of the buffer deleted *)
Definition st_edit_no_colon : option TaskManager :=
  hit (world 24) KeyBackspace
    (hit (world 24) KeyBackspace
       (hit (world 24) KeyBackspace
          (press (world 24) KeyNone "e" st_chain))).

(** The chain in edit mode on [A], the priority replaced by ["x"] *)
Definition st_edit_bad_priority : option TaskManager :=
  press (world 24) KeyNone "x"
    (hit (world 24) KeyBackspace
       (hit (world 24) KeyBackspace
          (press (world 24) KeyNone "e" st_chain))).

(** A new root task ["T"] at the priority step, with ["0"] typed *)
Definition st_create : option TaskManager :=
  press (world 24) KeyNone "0"
    (hit (world 24) KeyEnter
       (press (world 24) KeyNone "T"
          (press (world 24) KeyNone "a" st_chain))).

(** The chain on a terminal of two rows: half a page down, then a subtask
    ["T"] at the priority step, nothing typed for the priority *)
Definition st_lost_cursor : option TaskManager :=
  hit (world 2) KeyEnter
    (press (world 2) KeyNone "T"
       (press (world 2) KeyNone "s"
          (hit (world 2) KeyCtrlD
             (NewTaskManager (world 2) file_chain [])))).

(** Creation mode at the title step, nothing typed *)
Definition st_title : option TaskManager :=
  press (world 24) KeyNone "a" st_chain.

(** A state given by a run of the program is a reachable one. *)
Definition reached (o : option TaskManager) : Prop :=
  ∀ tm, o = Some tm → reachable tm.

(** ** Events and runs *)

(** An event as termbox delivers one: a key or a character, not both. *)
Definition plain (ev : Event) : Prop :=
  match ev with
  | EventKey key ch => key = KeyNone ∨ ch = 0%Z
  | EventOther => True
  end.

(** The two events of normal mode that move the cursor towards the end *)
Definition jumps_down (ev : Event) : bool :=
  match ev with
  | EventKey KeyCtrlD _ => true
  | EventKey _ ch => (ch =? rune "G")%Z
  | EventOther => false
  end.

Definition normalMode (tm : TaskManager) : Prop :=
  editMode tm = false ∧ inputMode tm = "".

(** The events of a run, handled one after the other in one world *)
Definition run (w : World) (evs : list Event) (o : option TaskManager)
  : option TaskManager :=
  foldl (λ o ev, tm ← o; fst <$> handleInput w ev tm) o evs.

(** The text that typing the runes [cs] appends to a buffer *)
Definition typed (cs : list Z) : string :=
  foldr (λ c s, encodeRune c +:+ s) "" cs.

Definition char (c : Z) : Event := EventKey KeyNone c.

Definition confirm : Event := EventKey KeyEnter 0.

(** The rows of [rows] as [updateTask] leaves them *)
Definition updated (i : Z) (ttl : string) (prio : Z) (rows : list Row)
  : list Row :=
  (λ r, if Sql.has_id i r
        then mkRow (row_id r) ttl prio (row_created_at r) (row_parent_id r)
        else r) <$> rows.


(** A task titled ["a:b"] *)
Definition file_colon : File :=
  {| file_table := [mkRow 1 "a:b" 50 10 None]; file_seq := 1 |}.

Definition st_colon : option TaskManager :=
  NewTaskManager (world 24) file_colon [].

(** The chain with a store whose next call fails *)
Definition st_failing : option TaskManager :=
  NewTaskManager (world 24) file_chain [None; None; Some "disk I/O error"].

(** Creation mode at the priority step on that store *)
Definition st_create_failing : option TaskManager :=
  hit (world 24) KeyEnter
    (press (world 24) KeyNone "T" (press (world 24) KeyNone "a" st_failing)).

(** The store whose fourth call fails: the reload after the first write *)
Definition st_reload_failing : option TaskManager :=
  NewTaskManager (world 24) file_chain
    [None; None; None; Some "disk I/O error"].

(** The id that [AUTOINCREMENT] gives to the next row *)
Definition next_id (d : DB) : Z :=
  (1 + foldr Z.max (Z.max 0 (seq d)) (row_id <$> table d))%Z.
(** ** The string functions on examples *)

Example Atoi_42 : Atoi "42" = Some 42%Z.
Proof. reflexivity. Qed.
Example Atoi_neg : Atoi "-7" = Some (-7)%Z.
Proof. reflexivity. Qed.
Example Atoi_sign_only : Atoi "+" = None.
Proof. reflexivity. Qed.
Example Atoi_blank : Atoi " 5" = None.
Proof. reflexivity. Qed.
Example Atoi_range : Atoi "9223372036854775808" = None.
Proof. reflexivity. Qed.
Example itoa_50 : itoa 50 = "50".
Proof. reflexivity. Qed.
Example itoa_0 : itoa 0 = "0".
Proof. reflexivity. Qed.
Example TrimSpace_both : TrimSpace "  New Title 	" = "New Title".
Proof. reflexivity. Qed.
Example SplitN2_two : SplitN2 "a:b:c" ":"%char = ["a"; "b:c"].
Proof. reflexivity. Qed.
Example SplitN2_one : SplitN2 "no-colon-here" ":"%char = ["no-colon-here"].
Proof. reflexivity. Qed.
Example encodeRune_e_acute : encodeRune 233 = String (ascii_of 195) (String (ascii_of 169) EmptyString).
Proof. reflexivity. Qed.

(** ** Sorting yields a sorted rearrangement *)

Section Sorting.

Context {A : Type} (less : A → A → bool).

Lemma insert_by_perm (x : A) (l : list A) : insert_by less x l ≡ₚ x :: l.
Proof.
  induction l as [|y l IH]; simpl; [done|].
  destruct (less y x); [|done].
  rewrite IH. apply Permutation_swap.
Qed.

Lemma sort_by_perm (l : list A) : sort_by less l ≡ₚ l.
Proof.
  induction l as [|x l IH]; simpl; [done|].
  fold (sort_by less l). by rewrite insert_by_perm, IH.
Qed.

Lemma sort_by_elem (x : A) (l : list A) : x ∈ sort_by less l ↔ x ∈ l.
Proof. by rewrite sort_by_perm. Qed.

Lemma sort_by_NoDup (l : list A) : NoDup l → NoDup (sort_by less l).
Proof. by rewrite sort_by_perm. Qed.

Context (R : relation A) (P : A → Prop).
Hypothesis less_R : ∀ a b, P a → P b → less a b = true → R a b.
Hypothesis nless_R : ∀ a b, P a → P b → less a b = false → R b a.
Hypothesis R_trans : ∀ a b c, R a b → R b c → R a c.

Lemma insert_by_sorted (x : A) (l : list A) :
  P x → Forall P l → StronglySorted R l →
  StronglySorted R (insert_by less x l).
Proof.
  intros Hx. induction l as [|y l IH]; intros HP Hs; simpl.
  - repeat constructor.
  - apply Forall_cons in HP as [Hy HP].
    apply StronglySorted_inv in Hs as [Hs Hall].
    destruct (less y x) eqn:Hyx.
    + constructor; [by apply IH|].
      rewrite insert_by_perm. constructor; [by apply less_R|done].
    + assert (R x y) as Hxy by by apply nless_R.
      constructor; [by constructor|].
      constructor; [done|].
      eapply Forall_impl; [exact Hall|]. intros z Hz. by eapply R_trans.
Qed.

Lemma sort_by_sorted (l : list A) :
  Forall P l → StronglySorted R (sort_by less l).
Proof.
  induction l as [|x l IH]; intros HP; simpl; [constructor|].
  apply Forall_cons in HP as [Hx HP]. fold (sort_by less l).
  apply insert_by_sorted; [done| |by apply IH].
  by rewrite sort_by_perm.
Qed.

End Sorting.

Lemma task_le_trans (a b c : Task) : task_le a b → task_le b c → task_le a c.
Proof. unfold task_le. lia. Qed.

Lemma ptr_le_trans (h : gmap Z Task) (a b c : Z) :
  ptr_le h a b → ptr_le h b c → ptr_le h a c.
Proof.
  intros (ta & tb & Ha & Hb & Hab) (tb' & tc & Hb' & Hc & Hbc).
  simplify_eq. exists ta, tc. eauto using task_le_trans.
Qed.

Lemma less_ptr_le (h : gmap Z Task) (a b : Z) :
  is_Some (h !! a) → is_Some (h !! b) → less h a b = true → ptr_le h a b.
Proof.
  intros [ta Ha] [tb Hb]. unfold less. rewrite Ha, Hb. intros Hl.
  exists ta, tb. split_and!; [done..|]. unfold task_le.
  destruct (Priority ta =? Priority tb)%Z eqn:E; simpl in Hl; lia.
Qed.

Lemma nless_ptr_le (h : gmap Z Task) (a b : Z) :
  is_Some (h !! a) → is_Some (h !! b) → less h a b = false → ptr_le h b a.
Proof.
  intros [ta Ha] [tb Hb]. unfold less. rewrite Ha, Hb. intros Hl.
  exists tb, ta. split_and!; [done..|]. unfold task_le.
  destruct (Priority ta =? Priority tb)%Z eqn:E; simpl in Hl; lia.
Qed.

Lemma sortTasks_sorted (h : gmap Z Task) (l : list Z) :
  Forall (λ x, is_Some (h !! x)) l → StronglySorted (ptr_le h) (sortTasks h l).
Proof.
  apply sort_by_sorted.
  - apply less_ptr_le.
  - apply nless_ptr_le.
  - apply ptr_le_trans.
Qed.

(** ** What [loadTasks] builds *)

Lemma set_Children_id (t : Task) : set_Children (Children t) t = t.
Proof. by destruct t. Qed.

Lemma set_IsExpanded_id (t : Task) : set_IsExpanded (IsExpanded t) t = t.
Proof. by destruct t. Qed.

Lemma similar_refl (h : gmap Z Task) : similar h h.
Proof. by intros k. Qed.

Lemma similar_sym (h1 h2 : gmap Z Task) : similar h1 h2 → similar h2 h1.
Proof. by intros H k. Qed.

Lemma similar_trans (h1 h2 h3 : gmap Z Task) :
  similar h1 h2 → similar h2 h3 → similar h1 h3.
Proof. intros H1 H2 k. by rewrite H1. Qed.

Lemma similar_lookup (h1 h2 : gmap Z Task) (k : Z) (t1 : Task) :
  similar h1 h2 → h1 !! k = Some t1 →
  ∃ t2, h2 !! k = Some t2 ∧ ID t2 = ID t1 ∧ Title t2 = Title t1
        ∧ Priority t2 = Priority t1 ∧ CreatedAt t2 = CreatedAt t1
        ∧ ParentID t2 = ParentID t1.
Proof.
  intros H H1. specialize (H k). rewrite H1 in H.
  destruct (h2 !! k) as [t2|]; [|done].
  exists t2. destruct t1, t2. simpl in H. by simplify_eq.
Qed.

Lemma similar_is_Some (h1 h2 : gmap Z Task) (k : Z) :
  similar h1 h2 → is_Some (h1 !! k) → is_Some (h2 !! k).
Proof.
  intros H [t1 H1]. destruct (similar_lookup _ _ _ _ H H1) as (t2 & ? & _).
  by exists t2.
Qed.

Lemma similar_parent (h1 h2 : gmap Z Task) (k : Z) :
  similar h1 h2 → parent h1 k = parent h2 k.
Proof.
  intros H. unfold parent. destruct (h1 !! k) as [t1|] eqn:H1.
  - destruct (similar_lookup _ _ _ _ H H1) as (t2 & -> & _ & _ & _ & _ & ?).
    done.
  - destruct (h2 !! k) as [t2|] eqn:H2; [|done].
    destruct (similar_lookup _ _ _ _ (similar_sym _ _ H) H2) as (? & ? & _).
    congruence.
Qed.

Lemma similar_ptr_le (h1 h2 : gmap Z Task) (a b : Z) :
  similar h1 h2 → ptr_le h1 a b → ptr_le h2 a b.
Proof.
  intros H (ta & tb & Ha & Hb & Hab).
  destruct (similar_lookup _ _ _ _ H Ha) as (ta' & ? & _ & _ & ? & ? & _).
  destruct (similar_lookup _ _ _ _ H Hb) as (tb' & ? & _ & _ & ? & ? & _).
  exists ta', tb'. split_and!; [done..|]. unfold task_le in *. lia.
Qed.

Lemma similar_sorted (h1 h2 : gmap Z Task) (l : list Z) :
  similar h1 h2 →
  StronglySorted (ptr_le h1) l → StronglySorted (ptr_le h2) l.
Proof.
  intros H. induction 1 as [|x l Hs IH Hall]; constructor; [done|].
  eapply Forall_impl; [exact Hall|]. intros y. by apply similar_ptr_le.
Qed.

Lemma similar_insert (h : gmap Z Task) (k : Z) (t t' : Task) :
  h !! k = Some t →
  set_IsExpanded true (set_Children [] t')
  = set_IsExpanded true (set_Children [] t) →
  similar h (<[k := t']> h).
Proof.
  intros Hk Heq j. destruct (decide (k = j)) as [->|].
  - rewrite lookup_insert_eq, Hk. simpl. by rewrite Heq.
  - by rewrite lookup_insert_ne.
Qed.

Lemma similar_fmap (h : gmap Z Task) (f : Task → Task) :
  (∀ t, set_IsExpanded true (set_Children [] (f t))
        = set_IsExpanded true (set_Children [] t)) →
  similar h (f <$> h).
Proof.
  intros Hf k. rewrite lookup_fmap. destruct (h !! k); simpl; [|done].
  by rewrite Hf.
Qed.

(** The objects of [taskMap] are the scanned rows, each under its id. *)
Lemma buildTaskMap_lookup (rows : list Row) (k : Z) (t : Task) :
  buildTaskMap rows !! k = Some t →
  ∃ r, r ∈ rows ∧ t = scanRow r ∧ row_id r = k.
Proof.
  unfold buildTaskMap.
  induction rows as [|r rows IH] using rev_ind; simpl.
  - by rewrite lookup_empty.
  - rewrite foldl_snoc. destruct (decide (row_id r = k)) as [<-|Hne].
    + rewrite lookup_insert_eq. intros [= <-]. exists r.
      rewrite elem_of_app, list_elem_of_singleton. auto.
    + rewrite lookup_insert_ne by done. intros (r' & ? & ? & ?)%IH.
      exists r'. rewrite elem_of_app. auto.
Qed.

Lemma buildTaskMap_unique (rows : list Row) (r : Row) :
  NoDup (row_id <$> rows) → r ∈ rows →
  buildTaskMap rows !! row_id r = Some (scanRow r).
Proof.
  unfold buildTaskMap.
  induction rows as [|r' rows IH] using rev_ind; [by inversion 2|].
  rewrite fmap_app, foldl_snoc. simpl.
  intros [Hnd [Hdis _]]%NoDup_app.
  rewrite elem_of_app, list_elem_of_singleton. intros [Hin| ->].
  - rewrite lookup_insert_ne; [by apply IH|].
    intros Heq. apply (Hdis (row_id r)).
    + by apply list_elem_of_fmap_2.
    + rewrite Heq. apply list_elem_of_singleton. done.
  - by rewrite lookup_insert_eq.
Qed.

(** The state of the loop "Build hierarchy" after the entries [done]. *)
Lemma link_fold (taskMap : gmap Z Task) (todo done : list (Z * Task))
    (h : gmap Z Task) (roots : list Z) :
  roots = (filter (λ kt, ParentID kt.2 = None) done).*1 →
  (∀ p, h !! p
        = (λ t0, set_Children
                   (Children t0
                    ++ (filter (λ kt, ParentID kt.2 = Some p) done).*1) t0)
          <$> taskMap !! p) →
  let r := foldl link (h, roots) todo in
  r.2 = (filter (λ kt, ParentID kt.2 = None) (done ++ todo)).*1
  ∧ ∀ p, r.1 !! p
         = (λ t0, set_Children
                    (Children t0
                     ++ (filter (λ kt, ParentID kt.2 = Some p)
                           (done ++ todo)).*1) t0)
           <$> taskMap !! p.
Proof.
  revert done h roots.
  induction todo as [|[k t] todo IH]; intros done h roots Hr Hh; simpl.
  { by rewrite app_nil_r. }
  replace (done ++ (k, t) :: todo) with ((done ++ [(k, t)]) ++ todo)
    by by rewrite <-app_assoc.
  destruct (ParentID t) as [pid|] eqn:Hp.
  - assert (∀ p, (filter (λ kt : Z * Task, ParentID kt.2 = Some p)
                    (done ++ [(k, t)])).*1
                 = (filter (λ kt : Z * Task, ParentID kt.2 = Some p) done).*1
                   ++ (if decide (pid = p) then [k] else [])) as Hf.
    { intros p. rewrite filter_app, fmap_app. f_equal.
      rewrite filter_cons. simpl. rewrite Hp.
      destruct (decide (Some pid = Some p)), (decide (pid = p));
        by simplify_eq. }
    assert ((filter (λ kt : Z * Task, ParentID kt.2 = None)
               (done ++ [(k, t)])).*1 = roots) as Hf0.
    { rewrite filter_app, fmap_app, filter_cons. simpl. rewrite Hp.
      rewrite decide_False by done. simpl. by rewrite app_nil_r. }
    destruct (h !! pid) as [par|] eqn:Hpar.
    + replace (link (h, roots) (k, t)) with (<[pid:=addChild k par]> h, roots)
        by (unfold link; simpl; by rewrite Hp, Hpar).
      apply IH; [done|]. intros p. rewrite Hf.
      destruct (decide (pid = p)) as [<-|Hne].
      * rewrite lookup_insert_eq. rewrite Hh in Hpar.
        destruct (taskMap !! pid) as [t0|]; [|done]. simpl in *.
        injection Hpar as <-. unfold addChild. simpl.
        by rewrite <-app_assoc.
      * rewrite lookup_insert_ne by done. by rewrite app_nil_r.
    + replace (link (h, roots) (k, t)) with (h, roots)
        by (unfold link; simpl; by rewrite Hp, Hpar).
      apply IH; [done|]. intros p. rewrite Hf.
      destruct (decide (pid = p)) as [<-|Hne].
      * rewrite Hpar. rewrite Hh in Hpar.
        by destruct (taskMap !! pid).
      * by rewrite app_nil_r.
  - replace (link (h, roots) (k, t)) with (h, roots ++ [k])
      by (unfold link; simpl; by rewrite Hp).
    apply IH.
    + rewrite filter_app, fmap_app, filter_cons. simpl. rewrite Hp.
      rewrite decide_True by done. by rewrite Hr.
    + intros p. rewrite filter_app, fmap_app, filter_cons. simpl.
      rewrite Hp. rewrite decide_False by done. simpl.
      by rewrite app_nil_r.
Qed.

Lemma buildHierarchy_spec (taskMap : gmap Z Task) :
  (buildHierarchy taskMap).2 = roots_of taskMap
  ∧ ∀ p, (buildHierarchy taskMap).1 !! p
         = (λ t0, set_Children (Children t0 ++ kids_of taskMap p) t0)
           <$> taskMap !! p.
Proof.
  unfold buildHierarchy, roots_of, kids_of.
  apply (link_fold taskMap (map_to_list taskMap) []); [done|].
  intros p. rewrite filter_nil. simpl.
  destruct (taskMap !! p) as [t0|]; simpl; [|done].
  by rewrite app_nil_r, set_Children_id.
Qed.

Lemma elem_of_roots_of (taskMap : gmap Z Task) (k : Z) :
  k ∈ roots_of taskMap ↔ ∃ t, taskMap !! k = Some t ∧ ParentID t = None.
Proof.
  unfold roots_of. rewrite list_elem_of_fmap. split.
  - intros ([k' t] & -> & [Hp Hin%elem_of_map_to_list]%list_elem_of_filter).
    eauto.
  - intros (t & Hk & Hp). exists (k, t). split; [done|].
    apply list_elem_of_filter. by rewrite elem_of_map_to_list.
Qed.

Lemma elem_of_kids_of (taskMap : gmap Z Task) (p k : Z) :
  k ∈ kids_of taskMap p ↔ ∃ t, taskMap !! k = Some t ∧ ParentID t = Some p.
Proof.
  unfold kids_of. rewrite list_elem_of_fmap. split.
  - intros ([k' t] & -> & [Hp Hin%elem_of_map_to_list]%list_elem_of_filter).
    eauto.
  - intros (t & Hk & Hp). exists (k, t). split; [done|].
    apply list_elem_of_filter. by rewrite elem_of_map_to_list.
Qed.

Lemma NoDup_filter_keys (taskMap : gmap Z Task) (P : Z * Task → Prop)
    `{∀ x, Decision (P x)} :
  NoDup (filter P (map_to_list taskMap)).*1.
Proof.
  apply (sublist_NoDup _ ((map_to_list taskMap).*1)).
  - apply NoDup_fst_map_to_list.
  - apply fmap_sublist, sublist_filter.
Qed.

(** The heap of [buildForest], object by object. *)
Lemma buildForest_lookup (rows : list Row) (p : Z) :
  (buildForest rows).1 !! p
  = (λ t0, set_Children
             (sortTasks (buildHierarchy (buildTaskMap rows)).1
                (kids_of (buildTaskMap rows) p)) t0)
    <$> buildTaskMap rows !! p.
Proof.
  unfold buildForest. simpl. rewrite lookup_fmap.
  destruct (buildHierarchy_spec (buildTaskMap rows)) as [_ Hh].
  rewrite Hh. destruct (buildTaskMap rows !! p) as [t0|] eqn:Ht0; [|done].
  simpl. apply buildTaskMap_lookup in Ht0 as (r & _ & -> & _). done.
Qed.

Lemma buildForest_roots (rows : list Row) :
  (buildForest rows).2
  = sortTasks (buildHierarchy (buildTaskMap rows)).1
      (roots_of (buildTaskMap rows)).
Proof.
  unfold buildForest. simpl.
  by destruct (buildHierarchy_spec (buildTaskMap rows)) as [-> _].
Qed.

Lemma buildForest_similar (rows : list Row) :
  similar (buildTaskMap rows) (buildForest rows).1.
Proof.
  intros k. rewrite buildForest_lookup.
  by destruct (buildTaskMap rows !! k).
Qed.

Lemma buildHierarchy_similar (taskMap : gmap Z Task) :
  similar taskMap (buildHierarchy taskMap).1.
Proof.
  intros k. destruct (buildHierarchy_spec taskMap) as [_ ->].
  by destruct (taskMap !! k).
Qed.

Lemma buildForest_wf (rows : list Row) :
  wf_forest (buildForest rows).1 (buildForest rows).2.
Proof.
  pose proof (buildForest_similar rows) as Hsim.
  split.
  - rewrite buildForest_roots. apply sort_by_NoDup, NoDup_filter_keys.
  - intros r. rewrite buildForest_roots.
    unfold sortTasks. rewrite sort_by_elem, elem_of_roots_of.
    intros (t & Ht & Hp).
    destruct (similar_lookup _ _ _ _ Hsim Ht) as (t' & ? & _ & _ & _ & _ & ?).
    exists t'. split; [done|congruence].
  - intros p t. rewrite buildForest_lookup.
    destruct (buildTaskMap rows !! p) as [t0|]; [|done].
    intros [= <-]. simpl. apply sort_by_NoDup, NoDup_filter_keys.
  - intros p t c. rewrite buildForest_lookup.
    destruct (buildTaskMap rows !! p) as [t0|]; [|done].
    intros [= <-]. simpl. unfold sortTasks.
    rewrite sort_by_elem, elem_of_kids_of. intros (tc & Hc & Hp).
    rewrite <-(similar_parent _ _ _ Hsim). unfold parent. by rewrite Hc.
  - intros p t. rewrite buildForest_lookup.
    destruct (buildTaskMap rows !! p) as [t0|] eqn:Ht0; [|done].
    intros [= <-]. simpl.
    by apply buildTaskMap_lookup in Ht0 as (r & _ & -> & <-).
Qed.

Lemma buildForest_sorted (rows : list Row) :
  sorted_heap (buildForest rows).1 (buildForest rows).2.
Proof.
  pose proof (buildForest_similar rows) as Hsim.
  pose proof (buildHierarchy_similar (buildTaskMap rows)) as Hsim'.
  assert (similar (buildHierarchy (buildTaskMap rows)).1
                  (buildForest rows).1) as Hs
    by eauto using similar_trans, similar_sym.
  split.
  - rewrite buildForest_roots. apply (similar_sorted _ _ _ Hs).
    apply sortTasks_sorted, Forall_forall. intros k.
    rewrite elem_of_roots_of. intros (t & Ht & _).
    eapply similar_is_Some; [exact Hsim'|]. by exists t.
  - intros p t. rewrite buildForest_lookup.
    destruct (buildTaskMap rows !! p) as [t0|]; [|done].
    intros [= <-]. simpl. apply (similar_sorted _ _ _ Hs).
    apply sortTasks_sorted, Forall_forall. intros k.
    rewrite elem_of_kids_of. intros (tk & Ht & _).
    eapply similar_is_Some; [exact Hsim'|]. by exists tk.
Qed.

(** ** The walk of [buildFlatView] *)

Arguments buildFlatView : simpl never.
Arguments forest : simpl never.

Lemma buildFlatView_nil (f : nat) (h : gmap Z Task) (fv : list Z) :
  buildFlatView (S f) h [] fv = Some fv.
Proof. reflexivity. Qed.

Lemma buildFlatView_cons (f : nat) (h : gmap Z Task) (task : Z)
    (ts fv : list Z) :
  buildFlatView (S f) h (task :: ts) fv
  = t ← h !! task;
    fv' ← (if IsExpanded t && (0 <? len (Children t))%Z
           then buildFlatView f h (Children t) (fv ++ [task])
           else Some (fv ++ [task]));
    buildFlatView (S f) h ts fv'.
Proof. reflexivity. Qed.

(** The walk only appends to the view it is given. *)
Lemma buildFlatView_acc (f : nat) (h : gmap Z Task) (ts fv : list Z) :
  buildFlatView f h ts fv = (fv ++.) <$> buildFlatView f h ts [].
Proof.
  revert ts fv. induction f as [|f IHf]; [done|].
  induction ts as [|task ts IHts]; intros fv.
  { rewrite !buildFlatView_nil. simpl. by rewrite app_nil_r. }
  rewrite !buildFlatView_cons.
  destruct (h !! task) as [t|]; [|done]. simpl.
  destruct (IsExpanded t && (0 <? len (Children t))%Z); simpl.
  - rewrite (IHf _ (fv ++ [task])), (IHf _ [task]).
    destruct (buildFlatView f h (Children t) []) as [sub|]; [|done]. simpl.
    rewrite (IHts ((fv ++ [task]) ++ sub)), (IHts (task :: sub)).
    destruct (buildFlatView (S f) h ts []) as [rest|]; [|done]. simpl.
    by rewrite <-!app_assoc.
  - rewrite (IHts (fv ++ [task])), (IHts [task]).
    destruct (buildFlatView (S f) h ts []) as [rest|]; [|done]. simpl.
    by rewrite <-!app_assoc.
Qed.

Lemma flat_cons (f : nat) (h : gmap Z Task) (task : Z) (ts : list Z) :
  buildFlatView (S f) h (task :: ts) []
  = t ← h !! task;
    sub ← below f h t;
    rest ← buildFlatView (S f) h ts [];
    Some (task :: sub ++ rest).
Proof.
  rewrite buildFlatView_cons. unfold below.
  destruct (h !! task) as [t|]; [|done]. simpl.
  destruct (IsExpanded t && (0 <? len (Children t))%Z); simpl.
  - rewrite (buildFlatView_acc _ _ _ [task]).
    destruct (buildFlatView f h (Children t) []) as [sub|]; [|done]. simpl.
    rewrite (buildFlatView_acc _ _ _ (task :: sub)).
    by destruct (buildFlatView (S f) h ts []).
  - rewrite (buildFlatView_acc _ _ _ [task]).
    by destruct (buildFlatView (S f) h ts []).
Qed.

Lemma flat_cons_inv (f : nat) (h : gmap Z Task) (task : Z) (ts l : list Z) :
  buildFlatView (S f) h (task :: ts) [] = Some l →
  ∃ t sub rest, h !! task = Some t ∧ below f h t = Some sub
    ∧ buildFlatView (S f) h ts [] = Some rest ∧ l = task :: sub ++ rest.
Proof.
  rewrite flat_cons. intros H.
  destruct (h !! task) as [t|] eqn:Ht; simpl in H; [|done].
  destruct (below f h t) as [sub|] eqn:Hsub; simpl in H; [|done].
  destruct (buildFlatView (S f) h ts []) as [rest|] eqn:Hrest;
    simpl in H; [|done].
  injection H as <-. by exists t, sub, rest.
Qed.

(** More fuel does not change a walk that has come to its end. *)
Lemma flat_mono (f f' : nat) (h : gmap Z Task) (ts l : list Z) :
  f ≤ f' →
  buildFlatView f h ts [] = Some l → buildFlatView f' h ts [] = Some l.
Proof.
  revert f' ts l. induction f as [|f IHf]; [done|].
  intros [|f'] ts l Hle; [lia|]. revert l.
  induction ts as [|task ts IHts]; intros l; [done|].
  intros (t & sub & rest & Ht & Hsub & Hrest & ->)%flat_cons_inv.
  rewrite flat_cons, Ht. simpl.
  assert (below f' h t = Some sub) as ->.
  { unfold below in *. destruct (_ && _); [|done]. apply IHf; [lia|done]. }
  simpl. by rewrite (IHts _ Hrest).
Qed.

Lemma flat_elem_heap (f : nat) (h : gmap Z Task) (ts l : list Z) (x : Z) :
  buildFlatView f h ts [] = Some l → x ∈ l → is_Some (h !! x).
Proof.
  revert ts l. induction f as [|f IHf]; [done|].
  induction ts as [|task ts IHts]; intros l.
  { intros [= <-]. by inversion 1. }
  intros (t & sub & rest & Ht & Hsub & Hrest & ->)%flat_cons_inv.
  rewrite elem_of_cons, elem_of_app. intros [->|[Hx|Hx]]; [by eexists| |eauto].
  unfold below in Hsub. destruct (_ && _); [eauto|].
  injection Hsub as <-. by inversion Hx.
Qed.

(** ** Ancestors and depth *)

Section Depth.

Context (h : gmap Z Task).

Lemma anc_add (j k : nat) (x : Z) :
  anc h (j + k) x = y ← anc h j x; anc h k y.
Proof.
  revert x. induction j as [|j IH]; intros x; simpl; [done|].
  destruct (parent h x) as [p|]; simpl; [apply IH|done].
Qed.

Lemma anc_parent (k : nat) (x c p : Z) :
  anc h k x = Some c → parent h c = Some p → anc h (S k) x = Some p.
Proof.
  intros Hc Hp. replace (S k) with (k + 1)%nat by lia.
  rewrite anc_add, Hc. simpl. by rewrite Hp.
Qed.

Lemma top_parent (r : Z) : top h r → parent h r = None.
Proof. intros (t & Ht & Hp). unfold parent. by rewrite Ht. Qed.

Lemma depth_top (r : Z) : top h r → depth h r 0.
Proof. intros Hr. by exists r. Qed.

Lemma depth_child (p c : Z) (d : nat) :
  depth h p d → parent h c = Some p → depth h c (S d).
Proof.
  intros (r & Hr & Htop) Hp. exists r. split; [|done]. simpl. by rewrite Hp.
Qed.

Lemma depth_anc (k d : nat) (x r : Z) :
  anc h k x = Some r → depth h r d → depth h x (k + d).
Proof.
  intros Hk (r' & Hr' & Htop). exists r'. split; [|done].
  rewrite anc_add, Hk. done.
Qed.

Lemma depth_fun (x : Z) (d1 d2 : nat) :
  depth h x d1 → depth h x d2 → d1 = d2.
Proof.
  revert x d2. induction d1 as [|d1 IH]; intros x d2.
  - intros (r & [= <-] & Htop%top_parent). destruct d2 as [|d2]; [done|].
    intros (r' & Hr' & _). simpl in Hr'. by rewrite Htop in Hr'.
  - intros (r & Hr & Htop). simpl in Hr.
    destruct (parent h x) as [p|] eqn:Hp; [|done]. simpl in Hr.
    destruct d2 as [|d2].
    + intros (r' & [= <-] & Htop'%top_parent). congruence.
    + intros (r' & Hr' & Htop'). simpl in Hr'. rewrite Hp in Hr'.
      f_equal. apply (IH p); by eexists.
Qed.

Lemma depth_heap (x : Z) (d : nat) : depth h x d → is_Some (h !! x).
Proof.
  destruct d as [|d]; intros (r & Hr & Htop).
  - injection Hr as <-. destruct Htop as (t & ? & _). by exists t.
  - simpl in Hr. unfold parent in Hr. destruct (h !! x); [done|done].
Qed.

(** The ancestors of an object at depth [d] are [S d] distinct objects. *)
Lemma depth_chain (x : Z) (d : nat) :
  depth h x d →
  ∃ l : list Z, length l = S d ∧ NoDup l
    ∧ ∀ y, y ∈ l → is_Some (h !! y) ∧ ∃ k, (k ≤ d)%nat ∧ depth h y k.
Proof.
  revert x. induction d as [|d IH]; intros x Hd.
  - exists [x]. split_and!; [done|apply NoDup_singleton|].
    intros y ->%list_elem_of_singleton. split; [by eapply depth_heap|].
    by exists 0%nat.
  - pose proof Hd as (r & Hr & Htop). simpl in Hr.
    destruct (parent h x) as [p|] eqn:Hp; [|done]. simpl in Hr.
    destruct (IH p) as (l & Hlen & Hnd & Hl); [by exists r|].
    exists (x :: l). split_and!.
    + simpl. by rewrite Hlen.
    + constructor; [|done]. intros (_ & k & Hk & Hdk)%Hl.
      pose proof (depth_fun _ _ _ Hd Hdk). lia.
    + intros y [->|Hy]%elem_of_cons.
      * split; [by eapply depth_heap|]. by exists (S d).
      * destruct (Hl y Hy) as (? & k & ? & ?). split; [done|].
        exists k. split; [lia|done].
Qed.

Lemma depth_bound (x : Z) (d : nat) : depth h x d → (d < size h)%nat.
Proof.
  intros (l & Hlen & Hnd & Hl)%depth_chain.
  assert (length l ≤ size h)%nat; [|lia].
  rewrite <-length_map_to_list, <-(length_fmap fst).
  apply submseteq_length, NoDup_submseteq; [done|].
  intros y [[t Ht] _]%Hl. apply list_elem_of_fmap.
  exists (y, t). split; [done|]. by apply elem_of_map_to_list.
Qed.

End Depth.

(** ** The objects below the roots form a forest *)

Lemma forest_nil (f : nat) (h : gmap Z Task) : forest (S f) h [] = Some [].
Proof. reflexivity. Qed.

Lemma forest_cons (f : nat) (h : gmap Z Task) (p : Z) (ps : list Z) :
  forest (S f) h (p :: ps)
  = t ← h !! p;
    kids ← forest f h (Children t);
    rest ← forest (S f) h ps;
    Some (Node t kids :: rest).
Proof.
  change (forest (S f) h (p :: ps))
    with (y ← (t ← h !! p; kids ← forest f h (Children t);
               Some (Node t kids));
          k ← forest (S f) h ps; Some (y :: k)).
  destruct (h !! p) as [t|]; simpl; [|done].
  by destruct (forest f h (Children t)).
Qed.

Lemma forest_cons_inv (f : nat) (h : gmap Z Task) (p : Z) (ps : list Z)
    (F : list Tree) :
  forest (S f) h (p :: ps) = Some F →
  ∃ t kids rest, h !! p = Some t ∧ forest f h (Children t) = Some kids
    ∧ forest (S f) h ps = Some rest ∧ F = Node t kids :: rest.
Proof.
  rewrite forest_cons. intros H.
  destruct (h !! p) as [t|] eqn:Ht; simpl in H; [|done].
  destruct (forest f h (Children t)) as [kids|] eqn:Hkids;
    simpl in H; [|done].
  destruct (forest (S f) h ps) as [rest|] eqn:Hrest; simpl in H; [|done].
  injection H as <-. by exists t, kids, rest.
Qed.

Lemma forest_length (f : nat) (h : gmap Z Task) (ps : list Z)
    (F : list Tree) :
  forest f h ps = Some F → length F = length ps.
Proof.
  destruct f as [|f]; [done|]. revert F.
  induction ps as [|p ps IH]; intros F.
  - by intros [= <-].
  - intros (t & kids & rest & _ & _ & Hrest & ->)%forest_cons_inv.
    simpl. by rewrite (IH rest).
Qed.

Lemma forest_roots (f : nat) (h : gmap Z Task) (ps : list Z)
    (F : list Tree) :
  forest f h ps = Some F → Forall2 (λ p t, h !! p = Some t) ps (root <$> F).
Proof.
  destruct f as [|f]; [done|]. revert F.
  induction ps as [|p ps IH]; intros F.
  - intros [= <-]. constructor.
  - intros (t & kids & rest & Ht & _ & Hrest & ->)%forest_cons_inv.
    constructor; [done|by apply IH].
Qed.

(** The flat view is the pre-order walk of the forest. *)
Lemma forest_flat (f : nat) (h : gmap Z Task) (ps : list Z)
    (F : list Tree) :
  forest f h ps = Some F →
  ∃ l, buildFlatView f h ps [] = Some l
       ∧ Forall2 (λ p t, h !! p = Some t) l (flat_map preorder F).
Proof.
  revert ps F. induction f as [|f IHf]; [done|].
  induction ps as [|p ps IHps]; intros F.
  - intros [= <-]. exists []. split; [done|constructor].
  - intros (t & kids & rest & Ht & Hkids & Hrest & ->)%forest_cons_inv.
    destruct (IHps _ Hrest) as (lr & Hlr & Hfr).
    destruct (IHf _ _ Hkids) as (lk & Hlk & Hfk).
    pose proof (forest_length _ _ _ _ Hkids) as Hlen.
    rewrite flat_cons, Ht. simpl. unfold below.
    destruct (IsExpanded t) eqn:Hexp; simpl.
    + destruct (Children t) as [|c cs] eqn:Hcs.
      * destruct kids; [|done]. simpl. rewrite Hlr. simpl.
        eexists. split; [done|]. simpl. rewrite ?Hexp, ?andb_false_r. simpl.
        constructor; [done|done].
      * destruct kids as [|kid kids]; [done|].
        assert ((0 <? len (c :: cs))%Z = true) as ->
          by (apply Z.ltb_lt; unfold len; simpl; lia).
        rewrite Hlk. simpl. rewrite Hlr. simpl.
        eexists. split; [done|]. simpl. rewrite ?Hexp, ?andb_false_r. simpl.
        constructor; [done|]. by apply Forall2_app.
    + rewrite Hlr. simpl. eexists. split; [done|]. simpl. rewrite ?Hexp, ?andb_false_r. simpl.
      by constructor.
Qed.

Section Forest.

Context (h : gmap Z Task).
Hypothesis kids_parent :
  ∀ p t c, h !! p = Some t → c ∈ Children t → parent h c = Some p.
Hypothesis kids_nodup : ∀ p t, h !! p = Some t → NoDup (Children t).

(** The pointers at depth [d] are followed with any fuel beyond the number
    of objects less [d]: the recursion of the source comes to an end. *)
Lemma forest_total (f d : nat) (ps : list Z) :
  (∀ p, p ∈ ps → depth h p d) → (1 ≤ f)%nat → (size h < f + d)%nat →
  is_Some (forest f h ps).
Proof.
  revert d ps. induction f as [|f IHf]; intros d ps Hd Hf Hsz; [lia|].
  induction ps as [|p ps IHps]; [by eexists|].
  assert (depth h p d) as Hp by (apply Hd; left).
  destruct (depth_heap _ _ _ Hp) as [t Ht].
  pose proof (depth_bound _ _ _ Hp).
  destruct (IHf (S d) (Children t)) as [kids Hkids]; [|lia|lia|].
  { intros c Hc. eapply depth_child; eauto. }
  destruct IHps as [rest Hrest].
  { intros q Hq. apply Hd. by right. }
  rewrite forest_cons, Ht. simpl. rewrite Hkids. simpl. rewrite Hrest.
  by eexists.
Qed.

Lemma below_anc (f : nat) (p : Z) (t : Task) (sub : list Z) (x : Z) :
  (∀ ps l y, buildFlatView f h ps [] = Some l → y ∈ l →
             ∃ k r, r ∈ ps ∧ anc h k y = Some r) →
  h !! p = Some t → below f h t = Some sub → x ∈ sub →
  ∃ k, anc h (S k) x = Some p.
Proof.
  intros IH Ht Hsub Hx. unfold below in Hsub.
  destruct (_ && _).
  - destruct (IH _ _ _ Hsub Hx) as (k & c & Hc & Hk). exists k.
    eapply anc_parent; eauto.
  - injection Hsub as <-. by inversion Hx.
Qed.

(** Whatever the walk lists lies below one of the pointers it starts from. *)
Lemma flat_anc (f : nat) (ps l : list Z) (x : Z) :
  buildFlatView f h ps [] = Some l → x ∈ l →
  ∃ k r, r ∈ ps ∧ anc h k x = Some r.
Proof.
  revert ps l x. induction f as [|f IHf]; [done|].
  induction ps as [|p ps IHps]; intros l x.
  { intros [= <-]. by inversion 1. }
  intros (t & sub & rest & Ht & Hsub & Hrest & ->)%flat_cons_inv.
  rewrite elem_of_cons, elem_of_app. intros [->|[Hx|Hx]].
  - exists 0%nat, p. split; [left|done].
  - destruct (below_anc f p t sub x IHf Ht Hsub Hx) as [k Hk].
    exists (S k), p. split; [left|done].
  - destruct (IHps _ _ Hrest Hx) as (k & r & Hr & Hk).
    exists k, r. split; [by right|done].
Qed.

Lemma below_anc' (f : nat) (p : Z) (t : Task) (sub : list Z) (x : Z) :
  h !! p = Some t → below f h t = Some sub → x ∈ sub →
  ∃ k, anc h (S k) x = Some p.
Proof. apply below_anc. intros ps l y. apply flat_anc. Qed.

(** No object is listed twice. *)
Lemma flat_NoDup (f d : nat) (ps l : list Z) :
  NoDup ps → (∀ p, p ∈ ps → depth h p d) →
  buildFlatView f h ps [] = Some l → NoDup l.
Proof.
  revert d ps l. induction f as [|f IHf]; [done|]. intros d.
  induction ps as [|p ps IHps]; intros l Hnd Hd.
  { intros [= <-]. constructor. }
  intros (t & sub & rest & Ht & Hsub & Hrest & ->)%flat_cons_inv.
  apply NoDup_cons in Hnd as [Hp Hnd].
  assert (depth h p d) as Hdp by (apply Hd; left).
  assert (∀ x, x ∈ sub → ∃ k, depth h x (S k + d)) as Hsubd.
  { intros x Hx. destruct (below_anc' f p t sub x Ht Hsub Hx) as [k Hk].
    exists k. by eapply depth_anc. }
  assert (∀ x, x ∈ rest → ∃ k r, r ∈ ps ∧ anc h k x = Some r
                                 ∧ depth h x (k + d)) as Hrestd.
  { intros x Hx. destruct (flat_anc _ _ _ _ Hrest Hx) as (k & r & Hr & Hk).
    exists k, r. split_and!; [done..|]. eapply depth_anc; [done|].
    apply Hd. by right. }
  assert (NoDup sub) as Hnsub.
  { unfold below in Hsub. destruct (_ && _).
    - apply (IHf (S d) (Children t)); [by eapply kids_nodup| |done].
      intros c Hc. eapply depth_child; eauto.
    - injection Hsub as <-. constructor. }
  assert (NoDup rest) as Hnrest.
  { apply IHps; [done| |done]. intros q Hq. apply Hd. by right. }
  constructor.
  - rewrite elem_of_app. intros [Hx|Hx].
    + destruct (Hsubd _ Hx) as [k Hk].
      pose proof (depth_fun _ _ _ _ Hdp Hk). lia.
    + destruct (Hrestd _ Hx) as (k & r & Hr & Hk & Hdk).
      pose proof (depth_fun _ _ _ _ Hdp Hdk).
      assert (k = 0)%nat as -> by lia. simpl in Hk. congruence.
  - apply NoDup_app. split_and!; [done| |done].
    intros x Hx Hx'.
    destruct (below_anc' f p t sub x Ht Hsub Hx) as [k Hk].
    pose proof (depth_anc _ _ _ _ _ Hk Hdp) as Hd1.
    destruct (Hrestd _ Hx') as (k' & r & Hr & Hk' & Hdk).
    pose proof (depth_fun _ _ _ _ Hd1 Hdk).
    assert (k' = S k) as -> by lia. congruence.
Qed.

End Forest.

(** The walk from the roots of a well-formed forest comes to an end, lists
    no object twice, and is the pre-order walk of the forest. *)
Lemma wf_forest_total (h : gmap Z Task) (roots : list Z) :
  wf_forest h roots → is_Some (forest (fuel_of h) h roots).
Proof.
  intros [? Hr ? ? ?]. apply (forest_total h) with (d := 0%nat); try done.
  - intros p Hp. by apply depth_top, Hr.
  - unfold fuel_of. lia.
  - unfold fuel_of. lia.
Qed.

Lemma wf_flat_total (h : gmap Z Task) (roots : list Z) :
  wf_forest h roots → is_Some (buildFlatView (fuel_of h) h roots []).
Proof.
  intros [F HF]%wf_forest_total.
  destruct (forest_flat _ _ _ _ HF) as (l & Hl & _). by exists l.
Qed.

Lemma wf_flat_NoDup (h : gmap Z Task) (roots l : list Z) (f : nat) :
  wf_forest h roots → buildFlatView f h roots [] = Some l → NoDup l.
Proof.
  intros [? Hr ? ? ?]. apply (flat_NoDup h) with (d := 0%nat); try done.
  intros p Hp. by apply depth_top, Hr.
Qed.

(** ** Collapsing and expanding one object *)

Ltac list_assoc :=
  repeat (progress (simpl; rewrite <-?app_assoc)); done.

Section Toggle.

Context (h : gmap Z Task) (p : Z) (t : Task) (b : bool).
Hypothesis Hp : h !! p = Some t.

Local Abbreviation h' := (<[p := set_IsExpanded b t]> h).

Lemma toggle_similar : similar h h'.
Proof. by apply (similar_insert h p t). Qed.

Lemma toggle_lookup (q : Z) (tq : Task) :
  h' !! q = Some tq →
  ∃ t0, h !! q = Some t0 ∧ Children tq = Children t0.
Proof.
  destruct (decide (p = q)) as [<-|Hne].
  - rewrite lookup_insert_eq. intros [= <-]. by exists t.
  - rewrite lookup_insert_ne by done. intros Hq. by exists tq.
Qed.

Lemma toggle_size : size h' = size h.
Proof. apply map_size_insert_Some. by exists t. Qed.

Lemma toggle_fuel : fuel_of h' = fuel_of h.
Proof. unfold fuel_of. by rewrite toggle_size. Qed.

Lemma toggle_wf (roots : list Z) : wf_forest h roots → wf_forest h' roots.
Proof.
  pose proof toggle_similar as Hsim.
  intros [Hnd Hr Hcn Hc Hid]. split.
  - done.
  - intros r (t0 & Ht0 & Hpar)%Hr.
    destruct (similar_lookup _ _ _ _ Hsim Ht0)
      as (t2 & ? & _ & _ & _ & _ & ?).
    exists t2. split; [done|congruence].
  - intros q tq (t0 & Ht0 & ->)%toggle_lookup. eauto.
  - intros q tq c (t0 & Ht0 & ->)%toggle_lookup Hin.
    rewrite <-(similar_parent _ _ _ Hsim). eauto.
  - intros q tq Hq.
    destruct (similar_lookup _ _ _ _ (similar_sym _ _ Hsim) Hq)
      as (t0 & Ht0 & Hid0 & _). rewrite <-Hid0. eauto.
Qed.

Lemma toggle_sorted (roots : list Z) :
  sorted_heap h roots → sorted_heap h' roots.
Proof.
  pose proof toggle_similar as Hsim. intros [Hr Hc]. split.
  - by apply (similar_sorted h).
  - intros q tq (t0 & Ht0 & ->)%toggle_lookup.
    apply (similar_sorted h); eauto.
Qed.

(** A walk that does not meet [p] does not see the change. *)
Lemma flat_skip (f : nat) (ts l : list Z) :
  buildFlatView f h ts [] = Some l → p ∉ l →
  buildFlatView f h' ts [] = Some l.
Proof.
  revert ts l. induction f as [|f IHf]; [done|].
  induction ts as [|task ts IHts]; intros l; [done|].
  intros (tq & sub & rest & Ht & Hsub & Hrest & ->)%flat_cons_inv.
  rewrite not_elem_of_cons, not_elem_of_app. intros (Hne & Hs & Hr).
  rewrite flat_cons, lookup_insert_ne by done.
  rewrite Ht. simpl.
  assert (below f h' tq = Some sub) as ->.
  { unfold below in *. destruct (_ && _); [by apply IHf|done]. }
  simpl. by rewrite (IHts _ Hrest Hr).
Qed.

End Toggle.

Lemma below_mono (f f' : nat) (h : gmap Z Task) (t : Task) (l : list Z) :
  f ≤ f' → below f h t = Some l → below f' h t = Some l.
Proof. unfold below. destruct (_ && _); [apply flat_mono|done]. Qed.

(** Collapsing [p] takes out of the view what was shown below it, and
    nothing else. *)
Lemma flat_collapse (h : gmap Z Task) (p : Z) (t : Task) (f : nat)
    (ts l : list Z) :
  h !! p = Some t →
  buildFlatView f h ts [] = Some l → NoDup l → p ∈ l →
  ∃ pre sub post,
    l = pre ++ p :: sub ++ post
    ∧ below f h t = Some sub
    ∧ buildFlatView f (<[p := set_IsExpanded false t]> h) ts []
      = Some (pre ++ p :: post).
Proof.
  intros Hp. revert ts l. induction f as [|f IHf]; [done|].
  induction ts as [|task ts IHts]; intros l.
  { intros [= <-]. by inversion 2. }
  intros (tq & sub & rest & Ht & Hsub & Hrest & ->)%flat_cons_inv.
  intros [Hn1 [Hns [Hdisj Hnr]]%NoDup_app]%NoDup_cons.
  rewrite not_elem_of_app in Hn1. destruct Hn1 as [Hn1 Hn2].
  rewrite elem_of_cons, elem_of_app. intros Hin.
  rewrite flat_cons.
  destruct (decide (p = task)) as [<-|Hne].
  - (* the object itself *)
    assert (tq = t) as -> by congruence.
    exists [], sub, rest. split_and!; [done|apply (below_mono f); [lia|done]|].
    rewrite lookup_insert_eq. simpl.
    by rewrite (flat_skip h p t false (S f) ts rest Hrest Hn2).
  - rewrite lookup_insert_ne by done. rewrite Ht. simpl.
    destruct Hin as [?|[Hin|Hin]]; [done| |].
    + (* below this sibling *)
      unfold below in Hsub.
      destruct (IsExpanded tq && (0 <? len (Children tq))%Z) eqn:Hc;
        [|injection Hsub as <-; by inversion Hin].
      destruct (IHf _ _ Hsub Hns Hin) as (pre & s & post & -> & Hs & Hb).
      exists (task :: pre), s, (post ++ rest). split_and!.
      * list_assoc.
      * apply (below_mono f); [lia|done].
      * unfold below. rewrite Hc, Hb. simpl.
        rewrite (flat_skip h p t false (S f) ts rest Hrest).
        -- list_assoc.
        -- intros Hr. apply (Hdisj p); [|done].
           rewrite elem_of_app, elem_of_cons. auto.
    + (* below a later sibling *)
      destruct (IHts _ Hrest Hnr Hin) as (pre & s & post & -> & Hs & Hb).
      exists (task :: sub ++ pre), s, post. split_and!.
      * list_assoc.
      * done.
      * assert (below f (<[p:=set_IsExpanded false t]> h) tq = Some sub)
          as ->.
        { revert Hsub. unfold below. destruct (_ && _); [|done].
          intros Hsub. apply flat_skip; [done|]. intros Hs'. apply (Hdisj p); [done|].
          rewrite elem_of_app, elem_of_cons. auto. }
        simpl. rewrite Hb. list_assoc.
Qed.

(** ** The methods keep the invariant *)

Lemma frame_refl (tm : TaskManager) : frame tm tm.
Proof. by split. Qed.

Lemma frame_trans (tm1 tm2 tm3 : TaskManager) :
  frame tm1 tm2 → frame tm2 tm3 → frame tm1 tm3.
Proof. intros [] []. split; congruence. Qed.

Lemma core_ext (tm tm' : TaskManager) :
  heap tm' = heap tm → tasks tm' = tasks tm → flatView tm' = flatView tm →
  core tm → core tm'.
Proof. intros Hh Ht Hf [? ? ?]. split; by rewrite Hh, Ht, ?Hf. Qed.

Lemma core_frame (tm tm' : TaskManager) : frame tm tm' → core tm → core tm'.
Proof. intros []. by apply core_ext. Qed.

Lemma rebuilt_refl (tm : TaskManager) : rebuilt tm tm.
Proof.
  exists (db tm), (heap tm), (tasks tm), (flatView tm), (currentIndex tm),
    (scrollOffset tm). by destruct tm.
Qed.

Lemma set_core_id (tm : TaskManager) :
  set_tasks (tasks tm) (set_heap (heap tm) (set_db (db tm) tm)) = tm.
Proof. by destruct tm. Qed.

Lemma adjustScroll_eq (w : World) (tm : TaskManager) :
  adjustScroll w tm = set_scrollOffset (scrollOffset (adjustScroll w tm)) tm.
Proof.
  unfold adjustScroll. destruct tm. simpl. repeat case_match; done.
Qed.

Lemma adjustScroll_frame (w : World) (tm : TaskManager) :
  frame tm (adjustScroll w tm).
Proof. rewrite adjustScroll_eq. by split. Qed.

Lemma adjustScroll_currentIndex (w : World) (tm : TaskManager) :
  currentIndex (adjustScroll w tm) = currentIndex tm.
Proof. by rewrite adjustScroll_eq. Qed.

Lemma clampCursor_eq (tm : TaskManager) :
  clampCursor tm = set_currentIndex (currentIndex (clampCursor tm)) tm.
Proof. unfold clampCursor. destruct tm. simpl. repeat case_match; done. Qed.

Lemma clampCursor_valid (tm : TaskManager) : valid_cursor (clampCursor tm).
Proof.
  unfold valid_cursor, clampCursor.
  assert ((flatView tm = [] ∧ len (flatView tm) = 0)
          ∨ 0 < len (flatView tm))%Z as Hn.
  { destruct (flatView tm); [by left|right]. unfold len. simpl. lia. }
  destruct (Z.leb_spec (len (flatView tm)) (currentIndex tm)); simpl.
  - destruct (Z.ltb_spec (len (flatView tm) - 1) 0); simpl;
      destruct Hn as [[? ?]|?]; try lia; auto; left; lia.
  - destruct (Z.ltb_spec (currentIndex tm) 0); simpl;
      destruct Hn as [[? ?]|?]; try lia; auto; left; lia.
Qed.

Lemma clampCursor_keep (tm : TaskManager) :
  (0 ≤ currentIndex tm < len (flatView tm))%Z → clampCursor tm = tm.
Proof.
  intros H. unfold clampCursor.
  destruct (Z.leb_spec (len (flatView tm)) (currentIndex tm)); [lia|].
  destruct (Z.ltb_spec (currentIndex tm) 0); [lia|done].
Qed.

Lemma rebuildFlatView_eq (w : World) (tm : TaskManager) :
  rebuildFlatView w tm
  = fv ← buildFlatView (fuel_of (heap tm)) (heap tm) (tasks tm) [];
    Some (adjustScroll w (clampCursor (set_flatView fv tm))).
Proof. reflexivity. Qed.

(** On a well-formed forest [rebuildFlatView] returns, with the walk as the
    view and a valid cursor. *)
Lemma rebuildFlatView_spec (w : World) (tm : TaskManager) :
  wf_forest (heap tm) (tasks tm) → sorted_heap (heap tm) (tasks tm) →
  ∃ tm' fv,
    rebuildFlatView w tm = Some tm'
    ∧ buildFlatView (fuel_of (heap tm)) (heap tm) (tasks tm) [] = Some fv
    ∧ tm' = adjustScroll w (clampCursor (set_flatView fv tm))
    ∧ core tm' ∧ valid_cursor tm'.
Proof.
  intros Hwf Hs. destruct (wf_flat_total _ _ Hwf) as [fv Hfv].
  exists (adjustScroll w (clampCursor (set_flatView fv tm))), fv.
  rewrite rebuildFlatView_eq, Hfv. split_and!; [done..| |].
  - rewrite adjustScroll_eq, clampCursor_eq. by split.
  - pose proof (clampCursor_valid (set_flatView fv tm)) as Hv.
    unfold valid_cursor in *.
    by rewrite adjustScroll_currentIndex, (frame_flatView _ _
      (adjustScroll_frame w _)).
Qed.

Lemma rebuildFlatView_rebuilt (w : World) (tm tm' : TaskManager) :
  rebuildFlatView w tm = Some tm' → rebuilt tm tm'.
Proof.
  rewrite rebuildFlatView_eq.
  destruct (buildFlatView _ _ _ _) as [fv|]; [|done]. intros [= <-].
  rewrite adjustScroll_eq, clampCursor_eq.
  eexists (db tm), (heap tm), (tasks tm), fv, _, _.
  by rewrite set_core_id.
Qed.

Lemma loadTasks_cases (tm : TaskManager) :
  (∃ e, loadTasks tm = (set_db (Sql.Query_tasks (db tm)).1 tm, Some e))
  ∨ (∃ rows, Sql.Query_tasks (db tm) = ((Sql.Query_tasks (db tm)).1, inr rows)
      ∧ loadTasks tm
        = (set_tasks (buildForest rows).2
             (set_heap (buildForest rows).1
                (set_db (Sql.Query_tasks (db tm)).1 tm)), None)).
Proof.
  unfold loadTasks. destruct (Sql.Query_tasks (db tm)) as [d [e|rows]].
  - left. by exists e.
  - right. by exists rows.
Qed.

(** [loadTasks] followed by [rebuildFlatView] returns and sets up the
    invariant again, whether the query fails or not. *)
Lemma reload_spec (w : World) (tm : TaskManager) :
  core tm →
  ∃ tm', reload w tm = Some tm' ∧ core tm' ∧ valid_cursor tm'
         ∧ rebuilt tm tm'.
Proof.
  intros Hc. unfold reload.
  assert (wf_forest (heap (loadTasks tm).1) (tasks (loadTasks tm).1)
          ∧ sorted_heap (heap (loadTasks tm).1) (tasks (loadTasks tm).1)
          ∧ rebuilt tm (loadTasks tm).1) as (Hwf & Hs & Hr).
  { destruct (loadTasks_cases tm) as [[e ->]|(rows & _ & ->)]; simpl.
    - destruct Hc. split_and!; [done..|].
      exists (Sql.Query_tasks (db tm)).1, (heap tm), (tasks tm),
        (flatView tm), (currentIndex tm), (scrollOffset tm).
      by destruct tm.
    - split_and!; [apply buildForest_wf|apply buildForest_sorted|].
      exists (Sql.Query_tasks (db tm)).1, (buildForest rows).1,
        (buildForest rows).2, (flatView tm), (currentIndex tm),
        (scrollOffset tm).
      by destruct tm. }
  destruct (rebuildFlatView_spec w _ Hwf Hs) as (tm' & fv & Hre & _ & _ & ? & ?).
  exists tm'. split_and!; [done..|].
  apply rebuildFlatView_rebuilt in Hre.
  destruct Hre as (d' & h' & r' & fv' & c' & so' & ->).
  destruct Hr as (d & h & r & fv1 & c1 & so1 & Heq). rewrite Heq.
  by exists d', h', r', fv', c', so'.
Qed.

(** With no fault pending the reload reads the table as it is. *)
Lemma reload_ok (w : World) (tm : TaskManager) :
  faults (db tm) = [] →
  ∃ tm', reload w tm = Some tm' ∧ core tm' ∧ valid_cursor tm'
         ∧ rebuilt tm tm' ∧ db tm' = db tm
         ∧ heap tm' = (buildForest (sort_by Sql.row_before (table (db tm)))).1
         ∧ tasks tm'
           = (buildForest (sort_by Sql.row_before (table (db tm)))).2.
Proof.
  intros Hf. unfold reload, loadTasks, Sql.Query_tasks, Sql.call.
  rewrite Hf. simpl.
  set (rows := sort_by Sql.row_before (table (db tm))).
  set (tm1 := set_tasks _ _).
  destruct (rebuildFlatView_spec w tm1) as (tm' & fv & Hre & _ & Heq & ? & ?).
  { apply buildForest_wf. } { apply buildForest_sorted. }
  exists tm'. split_and!; [done..| | | |].
  - apply rebuildFlatView_rebuilt in Hre.
    destruct Hre as (d' & h' & r' & fv' & c' & so' & ->).
    by eexists d', h', r', fv', c', so'.
  - rewrite Heq, adjustScroll_eq, clampCursor_eq. simpl. by destruct tm.
  - by rewrite Heq, adjustScroll_eq, clampCursor_eq.
  - by rewrite Heq, adjustScroll_eq, clampCursor_eq.
Qed.

Lemma rebuilt_editMode (tm tm' : TaskManager) :
  rebuilt tm tm' → editMode tm' = editMode tm.
Proof. by intros (d & h & r & fv & c & so & ->). Qed.

Lemma index_Some {A} (l : list A) (i : Z) (x : A) :
  index l i = Some x → (0 ≤ i < len l)%Z ∧ l !! Z.to_nat i = Some x.
Proof.
  unfold index, len. destruct (Z.ltb_spec i 0); [done|]. intros Hl.
  split; [|done]. apply lookup_lt_Some in Hl. lia.
Qed.

Lemma current_Some (tm : TaskManager) (p : Z) (t : Task) :
  current tm = Some (p, t) →
  (0 ≤ currentIndex tm < len (flatView tm))%Z
  ∧ flatView tm !! Z.to_nat (currentIndex tm) = Some p
  ∧ heap tm !! p = Some t.
Proof.
  unfold current. intros H.
  destruct (index _ _) as [p'|] eqn:Hi; simpl in H; [|done].
  destruct (heap tm !! p') as [t'|] eqn:Hh; simpl in H; [|done].
  injection H as <- <-. apply index_Some in Hi as [? ?]. done.
Qed.

(** In a state of the invariant a valid cursor selects an object. *)
Lemma current_total (tm : TaskManager) :
  core tm → (0 ≤ currentIndex tm < len (flatView tm))%Z →
  ∃ p t, current tm = Some (p, t).
Proof.
  intros [_ _ Hflat] Hci. unfold current, index, len in *.
  destruct (Z.ltb_spec (currentIndex tm) 0); [lia|].
  destruct (lookup_lt_is_Some_2 (flatView tm) (Z.to_nat (currentIndex tm)))
    as [p Hp]; [lia|].
  rewrite Hp. simpl.
  destruct (flat_elem_heap _ _ _ _ p Hflat) as [t Ht].
  { by eapply list_elem_of_lookup_2. }
  rewrite Ht. by exists p, t.
Qed.

Section Operations.

Context (w : World) (tm : TaskManager).
Hypothesis Hcore : core tm.

Lemma reload_status (d : DB) (msg : string) :
  ∃ tm', reload w (set_statusMsg msg (set_db d tm)) = Some tm'
         ∧ core tm' ∧ editMode tm' = editMode tm.
Proof.
  destruct (reload_spec w (set_statusMsg msg (set_db d tm)))
    as (tm' & Hre & Hc & _ & Hr).
  { by apply (core_ext tm). }
  exists tm'. split_and!; [done..|]. by rewrite (rebuilt_editMode _ _ Hr).
Qed.

Lemma addTask_spec (ttl : string) (prio : Z) (parentID : option Z) :
  ∃ tm' e, addTask w ttl prio parentID tm = Some (tm', e)
           ∧ core tm' ∧ editMode tm' = editMode tm.
Proof.
  unfold addTask. destruct (Sql.Exec_insert _ _ _ _ _) as [d [e|i]].
  - eexists _, _. split_and!; [done| |done]. by apply (core_ext tm).
  - destruct (reload_status d
      ("Added task: " +:+ ttl +:+ " (ID: " +:+ itoa i +:+ ")"))
      as (tm' & -> & ? & ?).
    by eexists _, _.
Qed.

Lemma deleteTask_spec (taskID : Z) :
  ∃ tm' e, deleteTask w taskID tm = Some (tm', e)
           ∧ core tm' ∧ editMode tm' = editMode tm.
Proof.
  unfold deleteTask. destruct (Sql.Exec_delete _ _) as [d [e|]].
  - eexists _, _. split_and!; [done| |done]. by apply (core_ext tm).
  - destruct (reload_status d ("Deleted task ID: " +:+ itoa taskID))
      as (tm' & -> & ? & ?).
    by eexists _, _.
Qed.

Lemma updateTask_spec (taskID : Z) (ttl : string) (prio : Z) :
  ∃ tm' e, updateTask w taskID ttl prio tm = Some (tm', e)
           ∧ core tm' ∧ editMode tm' = editMode tm.
Proof.
  unfold updateTask. destruct (Sql.Exec_update _ _ _ _) as [d [e|]].
  - eexists _, _. split_and!; [done| |done]. by apply (core_ext tm).
  - destruct (reload_status d ("Updated task ID: " +:+ itoa taskID))
      as (tm' & -> & ? & ?).
    by eexists _, _.
Qed.

Lemma updateTaskPriority_spec (taskID : Z) (priorityChange : Z) :
  ∃ tm' e, updateTaskPriority w taskID priorityChange tm = Some (tm', e)
           ∧ core tm' ∧ editMode tm' = editMode tm.
Proof.
  unfold updateTaskPriority.
  destruct (Sql.QueryRow_priority _ _) as [d [e|cur]].
  { eexists _, _. split_and!; [done| |done]. by apply (core_ext tm). }
  destruct (Sql.Exec_set_priority _ _ _) as [d' [e|]].
  - eexists _, _. split_and!; [done| |done]. by apply (core_ext tm).
  - destruct (reload_status d'
      ("Updated task priority: " +:+ itoa cur +:+ " -> "
       +:+ itoa (clamp (cur + priorityChange))))
      as (tm' & -> & ? & ?).
    by eexists _, _.
Qed.

Lemma toggle_spec (tm' : TaskManager) :
  toggle w tm = Some tm' → core tm' ∧ editMode tm' = editMode tm.
Proof.
  unfold toggle. destruct (hasCurrent tm); [|by intros [= <-]].
  destruct (current tm) as [[p t]|] eqn:Hcur; simpl; [|done].
  destruct (0 <? len (Children t))%Z; [|by intros [= <-]].
  apply current_Some in Hcur as (_ & _ & Hp). destruct Hcore as [Hwf Hs _].
  set (tm1 := set_heap _ tm). intros Hre.
  destruct (rebuildFlatView_spec w tm1) as (tm2 & fv & Hre' & _ & _ & ? & _).
  { by apply toggle_wf. } { by apply toggle_sorted. }
  assert (tm2 = tm') as <- by congruence. split; [done|].
  by rewrite (rebuilt_editMode _ _ (rebuildFlatView_rebuilt _ _ _ Hre)).
Qed.

Lemma scrollHalfPageDown_frame : frame tm (scrollHalfPageDown w tm).
Proof.
  unfold scrollHalfPageDown. eapply frame_trans; [|apply adjustScroll_frame].
  case_match; by split.
Qed.

Lemma scrollHalfPageUp_frame : frame tm (scrollHalfPageUp w tm).
Proof.
  unfold scrollHalfPageUp. eapply frame_trans; [|apply adjustScroll_frame].
  case_match; by split.
Qed.

Lemma normalKey_spec (key : Key) (tm' : TaskManager) :
  normalKey w key tm = Some tm' → core tm' ∧ editMode tm' = editMode tm.
Proof.
  destruct key; simpl; try (by intros [= <-]).
  - intros [= <-]. pose proof scrollHalfPageDown_frame as Hf.
    split; [by apply (core_frame tm)|by destruct Hf].
  - intros [= <-]. pose proof scrollHalfPageUp_frame as Hf.
    split; [by apply (core_frame tm)|by destruct Hf].
  - apply toggle_spec.
Qed.

End Operations.

Lemma inv_normal (tm : TaskManager) : core tm → editMode tm = false → inv tm.
Proof. intros Hc He. split; [done|]. by rewrite He. Qed.

Ltac frame_step tm :=
  apply inv_normal; [by apply (core_ext tm)|done].

Lemma normalCh_inv (w : World) (ch : Z) (tm tm' : TaskManager) (q : bool) :
  core tm → editMode tm = false →
  normalCh w ch tm = Some (tm', q) → inv tm'.
Proof.
  intros Hc He. unfold normalCh.
  pose proof (adjustScroll_frame w) as Hadj.
  destruct (ch =? rune "q")%Z; [intros [= <- <-]; by apply inv_normal|].
  intros (tm1 & H1 & [= <- <-])%bind_Some.
  repeat match type of H1 with
         | (if (ch =? ?c)%Z then _ else _) = _ => destruct (ch =? c)%Z
         end.
  - destruct (_ <? _)%Z; injection H1 as <-; [|by apply inv_normal].
    apply inv_normal.
    + eapply core_frame; [apply Hadj|]. by apply (core_ext tm).
    + by rewrite (frame_editMode _ _ (Hadj _)).
  - destruct (_ <? _)%Z; injection H1 as <-; [|by apply inv_normal].
    apply inv_normal.
    + eapply core_frame; [apply Hadj|]. by apply (core_ext tm).
    + by rewrite (frame_editMode _ _ (Hadj _)).
  - destruct (hasCurrent tm); [|injection H1 as <-; by apply inv_normal].
    destruct (current tm) as [[p t]|]; simpl in H1; [|done].
    destruct (updateTaskPriority_spec w tm Hc (ID t) (-1))
      as (tm2 & e & Hop & ? & ?).
    rewrite Hop in H1. injection H1 as <-. apply inv_normal; congruence.
  - destruct (hasCurrent tm); [|injection H1 as <-; by apply inv_normal].
    destruct (current tm) as [[p t]|]; simpl in H1; [|done].
    destruct (updateTaskPriority_spec w tm Hc (ID t) 1)
      as (tm2 & e & Hop & ? & ?).
    rewrite Hop in H1. injection H1 as <-. apply inv_normal; congruence.
  - injection H1 as <-. apply inv_normal.
    + eapply core_frame; [apply Hadj|]. by apply (core_ext tm).
    + by rewrite (frame_editMode _ _ (Hadj _)).
  - injection H1 as <-. apply inv_normal.
    + eapply core_frame; [apply Hadj|]. by apply (core_ext tm).
    + by rewrite (frame_editMode _ _ (Hadj _)).
  - injection H1 as <-. frame_step tm.
  - destruct (hasCurrent tm); injection H1 as <-; [frame_step tm|].
    by apply inv_normal.
  - destruct (hasCurrent tm); [|injection H1 as <-; by apply inv_normal].
    destruct (current tm) as [[p t]|]; simpl in H1; [|done].
    destruct (deleteTask_spec w tm Hc (ID t)) as (tm2 & e & Hop & ? & ?).
    rewrite Hop in H1. injection H1 as <-. apply inv_normal; congruence.
  - destruct (hasCurrent tm); [|injection H1 as <-; by apply inv_normal].
    destruct (current tm) as [[p t]|] eqn:Hcur; simpl in H1; [|done].
    injection H1 as <-. apply current_Some in Hcur as (Hci & _).
    split; [by apply (core_ext tm)|done].
  - injection H1 as <-. by apply inv_normal.
Qed.

Lemma handleNormalMode_inv (w : World) (key : Key) (ch : Z)
    (tm tm' : TaskManager) (q : bool) :
  core tm → editMode tm = false →
  handleNormalMode w key ch tm = Some (tm', q) → inv tm'.
Proof.
  intros Hc He. unfold handleNormalMode.
  assert (core (set_statusMsg "" tm)) as Hc' by by apply (core_ext tm).
  assert (∀ tm1, normalKey w key (set_statusMsg "" tm) = Some tm1 →
                 normalCh w ch tm1 = Some (tm', q) → inv tm') as Hgo.
  { intros tm1 [? He1]%normalKey_spec; [|done].
    apply normalCh_inv; [done|]. by rewrite He1. }
  destruct key;
    try (intros (tm1 & H1 & H2)%bind_Some; by apply (Hgo tm1)).
  intros [= <- <-]. by apply inv_normal.
Qed.

Lemma handleInputMode_inv (w : World) (key : Key) (ch : Z)
    (tm tm' : TaskManager) (q : bool) :
  core tm → editMode tm = false →
  handleInputMode w key ch tm = Some (tm', q) → inv tm'.
Proof.
  intros Hc He. unfold handleInputMode, typeInput.
  destruct key;
    try (repeat case_match; intros [= <- <-]; frame_step tm).
  intros H. destruct (inputStep tm =? 0)%Z.
  { destruct (String.eqb _ _); injection H as <- <-; frame_step tm. }
  cbv zeta in H. apply bind_Some in H as (parentID & _ & H).
  match type of H with
  | context [addTask w ?a ?b ?c tm] =>
      destruct (addTask_spec w tm Hc a b c) as (tm2 & e & Hop & Hc2 & He2)
  end.
  rewrite Hop in H. simpl in H. destruct e; injection H as <- <-.
  all: apply inv_normal; [by apply (core_ext tm2)|simpl; congruence].
Qed.

Lemma handleEditMode_inv (w : World) (key : Key) (ch : Z)
    (tm tm' : TaskManager) (q : bool) :
  inv tm → editMode tm = true →
  handleEditMode w key ch tm = Some (tm', q) → inv tm'.
Proof.
  intros Hinv He. pose proof Hinv as [Hc Hed]. specialize (Hed He).
  unfold handleEditMode.
  assert (∀ b, inv (set_editBuffer b tm)) as Hbuf.
  { intros b. split; [by apply (core_ext tm)|done]. }
  destruct key;
    try (repeat case_match; intros [= <- <-]; first [done|by apply Hbuf]).
  - intros [= <- <-]. frame_step tm.
  - intros (tm1 & H1 & [= <- <-])%bind_Some.
    assert (core tm1) as Hc1.
    { destruct (hasCurrent tm); [|by injection H1 as <-].
      destruct (current tm) as [[p task]|]; simpl in H1; [|done].
      destruct (SplitN2 _ _) as [|part0 [|part1 [|]]];
        try by injection H1 as <-.
      match type of H1 with
      | context [updateTask w ?a ?b ?c tm] =>
          destruct (updateTask_spec w tm Hc a b c) as (tm2 & e & Hop & ? & _)
      end.
      rewrite Hop in H1. by injection H1 as <-. }
    frame_step tm1.
Qed.

Lemma handleInput_inv (w : World) (ev : Event) (tm tm' : TaskManager)
    (q : bool) :
  inv tm → handleInput w ev tm = Some (tm', q) → inv tm'.
Proof.
  intros Hinv. destruct ev as [key ch|]; simpl; [|by intros [= <- <-]].
  destruct (editMode tm) eqn:He; [by apply handleEditMode_inv|].
  destruct Hinv as [Hc _].
  destruct (negb _); [by apply handleInputMode_inv|].
  by apply handleNormalMode_inv.
Qed.

Lemma core_initial (d : DB) :
  core {| db := d; heap := ∅; tasks := []; currentIndex := 0;
          scrollOffset := 0; flatView := []; editMode := false;
          editBuffer := ""; statusMsg := ""; inputMode := "";
          inputStep := 0; inputTitle := ""; inputPriority := "" |}.
Proof.
  split; simpl.
  - split; try done; [apply NoDup_nil_2|by inversion 1].
  - split; [constructor|done].
  - done.
Qed.

Lemma NewTaskManager_inv (w : World) (f : File) (io : list (option string))
    (tm : TaskManager) :
  NewTaskManager w f io = Some tm → inv tm.
Proof.
  unfold NewTaskManager. destruct (initDB f io) as [d [e|]]; [done|].
  intros Hre.
  destruct (reload_spec w _ (core_initial d)) as (tm' & Hre' & Hc & _ & Hr).
  assert (tm' = tm) as -> by congruence.
  apply inv_normal; [done|]. by rewrite (rebuilt_editMode _ _ Hr).
Qed.

(** Every reachable state satisfies the invariant. *)
Lemma reachable_inv (tm : TaskManager) : reachable tm → inv tm.
Proof.
  induction 1 as [w f io tm Hnew|w ev tm tm' q _ IH Hstep].
  - by eapply NewTaskManager_inv.
  - by eapply handleInput_inv.
Qed.

(** ** The example states are reachable *)

Lemma reached_new (w : World) (f : File) (io : list (option string)) :
  reached (NewTaskManager w f io).
Proof. intros tm H. by eapply reach_new. Qed.

Lemma reached_press (w : World) (key : Key) (ch : ascii)
    (o : option TaskManager) :
  reached o → reached (press w key ch o).
Proof.
  intros Ho tm' H. unfold press in H. destruct o as [tm|]; [|done].
  change (fst <$> handleInput w (EventKey key (rune ch)) tm = Some tm') in H.
  destruct (handleInput w (EventKey key (rune ch)) tm)
    as [[tm1 q]|] eqn:E; [|done].
  injection H as <-. eapply reach_step; [by apply Ho|exact E].
Qed.

Lemma reached_hit (w : World) (key : Key) (o : option TaskManager) :
  reached o → reached (hit w key o).
Proof.
  intros Ho tm' H. unfold hit in H. destruct o as [tm|]; [|done].
  change (fst <$> handleInput w (EventKey key 0) tm = Some tm') in H.
  destruct (handleInput w (EventKey key 0) tm) as [[tm1 q]|] eqn:E; [|done].
  injection H as <-. eapply reach_step; [by apply Ho|exact E].
Qed.

Ltac reached :=
  repeat first [apply reached_press | apply reached_hit | apply reached_new].

(** * The claims *)

(** ** C1: delete and the descendants *)

(** What the statement of [deleteTask] removes when the store accepts it:
    the rows with the id, and the rows with the id as parent. *)
Lemma Exec_delete_table (d : DB) (i : Z) :
  faults d = [] →
  table (Sql.Exec_delete d i).1
  = filter (λ r, row_id r ≠ i ∧ row_parent_id r ≠ Some i) (table d).
Proof.
  intros Hf. unfold Sql.Exec_delete, Sql.call. rewrite Hf. simpl.
  apply list_filter_iff. intros r. unfold Sql.has_id, Sql.has_parent.
  rewrite orb_false_iff, !bool_decide_eq_false. done.
Qed.

(** C1.  The claim says that deleting a task removes the records of all its
    transitive descendants from the store.  On the chain A > B > C, deleting
    A with the key [d] removes the rows of A and of its child B, and leaves
    the row of the grandchild C in the table: the statement of [deleteTask]
    matches [id] and [parent_id] only, and the connection does not enforce
    the clause [ON DELETE CASCADE] of the schema.  The flat view is empty
    afterwards, since C has become an orphan. *)
Lemma C1_delete_leaves_grandchild_row :
  ∃ tm tm',
    st_chain = Some tm
    ∧ flatView tm = [1; 2; 3]%Z ∧ currentIndex tm = 0%Z
    ∧ table (db tm) = [row_A; row_B; row_C]
    ∧ handleInput (world 24) (EventKey KeyNone (rune "d")) tm
      = Some (tm', false)
    ∧ table (db tm') = [row_C]
    ∧ flatView tm' = [].
Proof.
  eexists _, _. split; [vm_compute; reflexivity|].
  split_and!; vm_compute; reflexivity.
Qed.

(** ** C2: orphaned records *)

(** C2, as the specification states it, fails: a record whose parent is not
    in the set does not become a root.  The one record of [file_orphan],
    with id 2 and parent 7, is loaded into an object, and the forest and the
    flat view are empty. *)
Lemma C2_orphan_is_not_a_root :
  ∃ tm,
    NewTaskManager (world 24) file_orphan [] = Some tm
    ∧ is_Some (heap tm !! 2%Z)
    ∧ tasks tm = [] ∧ flatView tm = [].
Proof.
  eexists. split; [vm_compute; reflexivity|].
  split_and!; [|done..]. by eexists.
Qed.

Lemma anc_outside (h : gmap Z Task) (k : nat) (x r : Z) :
  h !! x = None → anc h k x = Some r → k = 0%nat ∧ r = x.
Proof.
  intros Hx. destruct k as [|k]; simpl; [by intros [= <-]|].
  unfold parent. by rewrite Hx.
Qed.

(** C2, amended: for a record set without duplicate ids, a record whose
    parent id is the id of no record is left out of the forest.  It is not
    among the roots, it is the child of no object, and the flat view, which
    exists, does not list it. *)
Theorem C2_orphans_are_left_out (rows : list Row) (r : Row) (pid : Z) :
  NoDup (row_id <$> rows) →
  r ∈ rows →
  row_parent_id r = Some pid →
  pid ∉ row_id <$> rows →
  let h := (buildForest rows).1 in
  let roots := (buildForest rows).2 in
  (row_id r ∉ roots)
  ∧ (∀ q tq, h !! q = Some tq → row_id r ∉ Children tq)
  ∧ ∃ fv, buildFlatView (fuel_of h) h roots [] = Some fv ∧ row_id r ∉ fv.
Proof.
  intros Hnd Hr Hpar Hpid h roots.
  pose proof (buildTaskMap_unique rows r Hnd Hr) as Hmap.
  pose proof (buildForest_wf rows) as Hwf.
  pose proof (buildForest_similar rows) as Hsim.
  assert (buildTaskMap rows !! pid = None) as Hnone.
  { destruct (buildTaskMap rows !! pid) as [t0|] eqn:Ht0; [|done].
    apply buildTaskMap_lookup in Ht0 as (r' & Hr' & _ & <-).
    destruct Hpid. by apply list_elem_of_fmap_2. }
  assert (h !! pid = None) as Hhnone.
  { unfold h. rewrite buildForest_lookup. by rewrite Hnone. }
  assert (row_id r ∉ roots) as Hroots.
  { unfold roots. rewrite buildForest_roots. unfold sortTasks.
    rewrite sort_by_elem, elem_of_roots_of. intros (t & Ht & Hp).
    rewrite Hmap in Ht. injection Ht as <-. simpl in Hp. congruence. }
  split_and!; [done| |].
  - intros q tq. unfold h. rewrite buildForest_lookup.
    destruct (buildTaskMap rows !! q) as [t0|] eqn:Ht0; [|done].
    intros [= <-]. simpl. unfold sortTasks.
    rewrite sort_by_elem, elem_of_kids_of. intros (t & Ht & Hp).
    rewrite Hmap in Ht. injection Ht as <-. simpl in Hp.
    assert (q = pid) as -> by congruence. congruence.
  - destruct (wf_flat_total _ _ Hwf) as [fv Hfv]. exists fv.
    split; [done|]. intros Hin.
    destruct (flat_anc h (wf_children _ _ Hwf) _ _ _ _ Hfv Hin)
      as (k & root & Hroot & Hk).
    destruct k as [|k]; simpl in Hk.
    + injection Hk as <-. done.
    + assert (parent h (row_id r) = Some pid) as Hp.
      { unfold h. rewrite <-(similar_parent _ _ _ Hsim).
        unfold parent. by rewrite Hmap. }
      rewrite Hp in Hk. simpl in Hk.
      apply anc_outside in Hk as [_ ->]; [|done].
      destruct (wf_roots _ _ Hwf _ Hroot) as (t & Ht & _).
      fold h in Ht. congruence.
Qed.

Lemma C2_orphans_are_left_out_witness :
  let rows := file_table file_orphan in
  let h := (buildForest rows).1 in
  let roots := (buildForest rows).2 in
  (2%Z ∉ roots)
  ∧ (∀ q tq, h !! q = Some tq → 2%Z ∉ Children tq)
  ∧ ∃ fv, buildFlatView (fuel_of h) h roots [] = Some fv ∧ 2%Z ∉ fv.
Proof.
  apply (C2_orphans_are_left_out (file_table file_orphan)
           (mkRow 2 "B" 50 11 (Some 7%Z)) 7%Z).
  - simpl. apply NoDup_singleton.
  - simpl. apply list_elem_of_singleton. reflexivity.
  - reflexivity.
  - simpl. rewrite list_elem_of_singleton. lia.
Defined.

(** ** C3: the cursor *)

(** C3.  The claim says that after a jump to the last row the cursor is 0
    on an empty view.  With no task in the store the view is empty, and the
    key [G] sets the cursor to [len(flatView) - 1], which is -1;
    [adjustScroll] does not touch the cursor.  [rebuildFlatView] has the
    test for a negative cursor that this path lacks. *)
Lemma C3_jump_to_last_on_empty_view :
  ∃ tm tm',
    NewTaskManager (world 24) file_empty [] = Some tm
    ∧ flatView tm = [] ∧ currentIndex tm = 0%Z
    ∧ handleInput (world 24) (EventKey KeyNone (rune "G")) tm
      = Some (tm', false)
    ∧ flatView tm' = []
    ∧ currentIndex tm' = (-1)%Z.
Proof.
  eexists _, _. split; [vm_compute; reflexivity|].
  split_and!; vm_compute; reflexivity.
Qed.

(** The half-page jump has the same flaw on a terminal of two rows, where
    half a page is -1 row: the cursor leaves a view that is not empty, and
    the next key that reads the selected task panics. *)
Example half_page_down_on_two_rows :
  ∃ tm tm',
    NewTaskManager (world 2) file_chain [] = Some tm
    ∧ flatView tm = [1; 2; 3]%Z ∧ currentIndex tm = 0%Z
    ∧ handleInput (world 2) (EventKey KeyCtrlD 0) tm = Some (tm', false)
    ∧ flatView tm' = [1; 2; 3]%Z
    ∧ currentIndex tm' = (-1)%Z
    ∧ handleInput (world 2) (EventKey KeySpace 0) tm' = None.
Proof.
  eexists _, _. split; [vm_compute; reflexivity|].
  split_and!; vm_compute; reflexivity.
Qed.

(** What does hold: [rebuildFlatView] leaves a valid cursor. *)
Lemma rebuildFlatView_valid_cursor (w : World) (tm tm' : TaskManager) :
  rebuildFlatView w tm = Some tm' → valid_cursor tm'.
Proof.
  rewrite rebuildFlatView_eq.
  destruct (buildFlatView _ _ _ _) as [fv|]; [|done]. intros [= <-].
  pose proof (clampCursor_valid (set_flatView fv tm)) as Hv.
  unfold valid_cursor in *.
  by rewrite adjustScroll_currentIndex,
    (frame_flatView _ _ (adjustScroll_frame w _)).
Qed.

(** ** C6: the scroll offset *)

(** C6, as stated, fails in its second half: it bounds the scroll offset
    after any call of [adjustScroll], but on a terminal of four rows or less
    (no row for tasks) the call returns at once and the offset stays what it
    was.  Three tasks are shown one row at a time with the cursor on the
    last, offset 2; the terminal shrinks to four rows and two tasks are
    deleted.  One task is left, the cursor 0 is valid, and after
    [adjustScroll] the offset is 2, beyond [max(0, 1 - 0)]. *)
Lemma C6_offset_kept_without_rows :
  ∃ tm,
    st_short = Some tm
    ∧ reachable tm
    ∧ flatView tm = [1%Z] ∧ currentIndex tm = 0%Z
    ∧ valid_cursor tm
    ∧ scrollOffset (adjustScroll (world 4) tm) = 2%Z
    ∧ ¬ (0 ≤ scrollOffset (adjustScroll (world 4) tm)
         ≤ Z.max 0 (len (flatView (adjustScroll (world 4) tm))
                    - (height (world 4) - 4)))%Z.
Proof.
  eexists. split; [vm_compute; reflexivity|].
  split_and!; try (vm_compute; reflexivity).
  - assert (reached st_short) as H by (unfold st_short; reached).
    apply H. vm_compute. reflexivity.
  - left. vm_compute. split; [discriminate|reflexivity].
  - vm_compute. intros [_ H]. by apply H.
Qed.

Ltac scroll_cases :=
  repeat (match goal with
          | |- context [if (?a <? ?b)%Z then _ else _] =>
              destruct (Z.ltb_spec a b); simpl in *
          | |- context [if (?a <=? ?b)%Z then _ else _] =>
              destruct (Z.leb_spec a b); simpl in *
          end); try lia.

(** C6, amended: for a state with a valid cursor and a window of
    [height - 4] rows, after [adjustScroll] the cursor lies in the window
    whenever [1 <= windowHeight <= totalLength], and the offset lies between
    0 and [max(0, totalLength - windowHeight)] whenever
    [1 <= windowHeight]; with [windowHeight <= 0] the state is unchanged.
    The call changes the offset only. *)
Theorem C6_adjustScroll_window (w : World) (tm : TaskManager) :
  valid_cursor tm →
  let windowHeight := (height w - 4)%Z in
  let tm' := adjustScroll w tm in
  (1 ≤ windowHeight ≤ len (flatView tm) →
   scrollOffset tm' ≤ currentIndex tm' < scrollOffset tm' + windowHeight)%Z
  ∧ (1 ≤ windowHeight →
     0 ≤ scrollOffset tm'
       ≤ Z.max 0 (len (flatView tm') - windowHeight))%Z
  ∧ (windowHeight ≤ 0 → tm' = tm)%Z
  ∧ tm' = set_scrollOffset (scrollOffset tm') tm.
Proof.
  intros Hv windowHeight tm'.
  assert (0 ≤ len (flatView tm))%Z as Hlen by (unfold len; lia).
  assert (len (flatView tm) = 0 → currentIndex tm = 0)%Z as H0.
  { destruct Hv as [?|[-> ?]]; [lia|done]. }
  assert (0 < len (flatView tm) → 0 ≤ currentIndex tm < len (flatView tm))%Z
    as H1.
  { destruct Hv as [?|[Hnil ?]]; [done|]. rewrite Hnil. unfold len. simpl.
    lia. }
  split_and!; [| | |apply adjustScroll_eq]; unfold tm', adjustScroll;
    fold windowHeight; intros Hw; cbv zeta.
  - destruct (Z.leb_spec windowHeight 0); [lia|]. scroll_cases.
  - destruct (Z.leb_spec windowHeight 0); [lia|]. scroll_cases.
  - destruct (Z.leb_spec windowHeight 0); [done|lia].
Qed.

Lemma C6_adjustScroll_window_witness :
  ∃ tm,
    NewTaskManager (world 5) file_three [] = Some tm
    ∧ let tm' := adjustScroll (world 5) (set_currentIndex 2 tm) in
      (1 ≤ 1 ≤ len (flatView (set_currentIndex 2 tm)) →
       scrollOffset tm' ≤ currentIndex tm' < scrollOffset tm' + 1)%Z
      ∧ (1 ≤ 1 →
         0 ≤ scrollOffset tm' ≤ Z.max 0 (len (flatView tm') - 1))%Z
      ∧ (1 ≤ 0 → tm' = set_currentIndex 2 tm)%Z
      ∧ tm' = set_scrollOffset (scrollOffset tm') (set_currentIndex 2 tm).
Proof.
  eexists. split; [vm_compute; reflexivity|].
  apply (C6_adjustScroll_window (world 5)).
  left. vm_compute. split; [discriminate|reflexivity].
Defined.

(** ** C7: the title step of creation mode *)

Lemma handleInput_input (w : World) (key : Key) (ch : Z) (tm : TaskManager) :
  editMode tm = false → inputMode tm ≠ "" →
  handleInput w (EventKey key ch) tm = handleInputMode w key ch tm.
Proof.
  intros He Hm. simpl. rewrite He.
  by apply String.eqb_neq in Hm as ->.
Qed.

Lemma handleInput_edit (w : World) (key : Key) (ch : Z) (tm : TaskManager) :
  editMode tm = true →
  handleInput w (EventKey key ch) tm = handleEditMode w key ch tm.
Proof. intros He. simpl. by rewrite He. Qed.

Lemma handleInput_normal (w : World) (key : Key) (ch : Z)
    (tm : TaskManager) :
  editMode tm = false → inputMode tm = "" →
  handleInput w (EventKey key ch) tm = handleNormalMode w key ch tm.
Proof. intros He Hm. simpl. by rewrite He, Hm. Qed.

(** C7.  In creation mode at the title step, confirm with an empty title
    buffer changes the status message and nothing else: the step stays 0,
    the mode stays, the store is not touched.  Confirm with a title moves to
    the priority step, and no other event at the title step does. *)
Theorem C7_empty_title_blocks_advance (w : World) (tm : TaskManager) :
  editMode tm = false →
  inputMode tm ≠ "" →
  inputStep tm = 0%Z →
  (∀ ch, inputTitle tm = "" →
         handleInput w (EventKey KeyEnter ch) tm
         = Some (set_statusMsg "Task title cannot be empty" tm, false))
  ∧ (∀ ch, inputTitle tm ≠ "" →
           handleInput w (EventKey KeyEnter ch) tm
           = Some (set_inputStep 1 tm, false))
  ∧ (∀ ev tm' q,
       handleInput w ev tm = Some (tm', q) → inputStep tm' ≠ 0%Z →
       ∃ ch, ev = EventKey KeyEnter ch ∧ inputTitle tm ≠ ""
             ∧ tm' = set_inputStep 1 tm).
Proof.
  intros He Hm Hstep. split_and!.
  - intros ch Ht. rewrite handleInput_input by done.
    unfold handleInputMode. by rewrite Hstep, Ht.
  - intros ch Ht. rewrite handleInput_input by done.
    unfold handleInputMode. rewrite Hstep. simpl.
    by apply String.eqb_neq in Ht as ->.
  - intros [key ch|] tm' q; [|intros [= <- <-]; congruence].
    rewrite handleInput_input by done.
    unfold handleInputMode, typeInput, leaveInput, clearInput.
    rewrite Hstep. simpl.
    destruct key; try (repeat case_match; intros [= <- <-]; simpl; congruence).
    destruct (String.eqb_spec (inputTitle tm) ""); intros [= <- <-];
      simpl; [congruence|]. intros _. by exists ch.
Qed.

Lemma C7_empty_title_blocks_advance_witness :
  ∃ tm,
    st_title = Some tm
    ∧ inputTitle tm = ""
    ∧ handleInput (world 24) (EventKey KeyEnter 0) tm
      = Some (set_statusMsg "Task title cannot be empty" tm, false).
Proof.
  eexists. split; [vm_compute; reflexivity|]. split; [reflexivity|].
  eapply (C7_empty_title_blocks_advance (world 24)); reflexivity || discriminate.
Defined.

(** ** Confirm in edit mode *)

Lemma cut_contains (sep : ascii) (s : string) :
  cut sep s = None ↔ contains sep s = false.
Proof.
  induction s as [|c s IH]; simpl; [done|].
  destruct (Ascii.eqb c sep); simpl; [done|].
  rewrite <-IH. by destruct (cut sep s) as [[a b]|].
Qed.

(** [SplitN] yields two parts exactly if the buffer contains a colon. *)
Lemma SplitN2_two_parts (s : string) :
  length (SplitN2 s ":") ≠ 2%nat ↔ contains ":" s = false.
Proof.
  rewrite <-cut_contains. unfold SplitN2.
  destruct (cut ":" s) as [[a b]|]; simpl; [|done].
  split; [lia|done].
Qed.

Lemma Exec_update_ok (d : DB) (ttl : string) (prio i : Z) :
  faults d = [] →
  Sql.Exec_update d ttl prio i
  = (Sql.with_table
       ((λ r, if Sql.has_id i r
              then mkRow (row_id r) ttl prio (row_created_at r)
                     (row_parent_id r)
              else r) <$> table d) (seq d) d, None).
Proof.
  intros Hf. unfold Sql.Exec_update, Sql.call. rewrite Hf. by destruct d.
Qed.

(** The title of an object is the title of a row with its id. *)
Lemma buildForest_title (rows : list Row) (k : Z) (t : Task) :
  (buildForest rows).1 !! k = Some t →
  ∃ r, r ∈ rows ∧ row_id r = k ∧ Title t = row_title r
       ∧ Priority t = row_priority r.
Proof.
  rewrite buildForest_lookup.
  destruct (buildTaskMap rows !! k) as [t0|] eqn:Ht0; [|done].
  intros [= <-]. apply buildTaskMap_lookup in Ht0 as (r & ? & -> & ?).
  by exists r.
Qed.

(** Confirm in edit mode on a buffer with a colon, the store accepting the
    statement: the row of the selected task gets the trimmed left part as
    title and the clamped priority, and the objects are loaded anew. *)
Lemma edit_confirm (w : World) (ch : Z) (tm : TaskManager) (a b : string) :
  reachable tm → editMode tm = true → faults (db tm) = [] →
  cut ":" (editBuffer tm) = Some (a, b) →
  ∃ tm' p task,
    current tm = Some (p, task)
    ∧ handleInput w (EventKey KeyEnter ch) tm = Some (tm', false)
    ∧ editMode tm' = false
    ∧ table (db tm')
      = (λ r, if Sql.has_id (ID task) r
              then mkRow (row_id r) (TrimSpace a)
                     (clamp (default (Priority task) (Atoi (TrimSpace b))))
                     (row_created_at r) (row_parent_id r)
              else r) <$> table (db tm)
    ∧ heap tm'
      = (buildForest (sort_by Sql.row_before (table (db tm')))).1.
Proof.
  intros [Hc Hed]%reachable_inv He Hf Hcut. specialize (Hed He).
  destruct (current_total tm Hc Hed) as (p & task & Hcur).
  rewrite handleInput_edit by done. unfold handleEditMode.
  assert (hasCurrent tm = true) as ->.
  { unfold hasCurrent. apply andb_true_iff. split; apply Z.ltb_lt; lia. }
  rewrite Hcur. simpl. unfold SplitN2. rewrite Hcut.
  unfold updateTask. rewrite Exec_update_ok by done.
  set (prio := clamp _). set (d := Sql.with_table _ _ _).
  set (tm1 := set_statusMsg _ _).
  destruct (reload_ok w tm1) as (tm' & -> & _ & _ & Hr & Hdb & Hh & _).
  { unfold tm1, d. simpl. done. }
  exists (leaveEdit tm'), p, task. simpl.
  split_and!; [done..| |].
  - rewrite Hdb. unfold tm1, d, prio. simpl.
    by destruct (Atoi (TrimSpace b)).
  - by rewrite Hh, Hdb.
Qed.

(** ** C9: a buffer without a colon *)

(** C9.  Confirm in edit mode returns and leaves edit mode whatever the
    buffer is.  When [SplitN] does not yield two parts, that is when the
    buffer has no colon, the state changes in the edit mode and the buffer
    only: no statement is run on the store, and the objects, with the title
    and priority of the selected task, are what they were. *)
Theorem C9_edit_without_colon_is_discarded (w : World) (ch : Z)
    (tm : TaskManager) :
  reachable tm →
  editMode tm = true →
  ∃ tm',
    handleInput w (EventKey KeyEnter ch) tm = Some (tm', false)
    ∧ editMode tm' = false
    ∧ (length (SplitN2 (editBuffer tm) ":") ≠ 2%nat
       ↔ contains ":" (editBuffer tm) = false)
    ∧ (length (SplitN2 (editBuffer tm) ":") ≠ 2%nat →
       tm' = set_editBuffer "" (set_editMode false tm)
       ∧ db tm' = db tm ∧ heap tm' = heap tm ∧ flatView tm' = flatView tm).
Proof.
  intros Hreach He. pose proof (reachable_inv _ Hreach) as [Hc Hed].
  specialize (Hed He).
  destruct (current_total tm Hc Hed) as (p & task & Hcur).
  rewrite handleInput_edit by done. unfold handleEditMode.
  assert (hasCurrent tm = true) as ->.
  { unfold hasCurrent. apply andb_true_iff. split; apply Z.ltb_lt; lia. }
  rewrite Hcur. simpl. unfold SplitN2.
  destruct (cut ":" (editBuffer tm)) as [[a b]|] eqn:Hcut.
  - destruct (updateTask_spec w tm Hc (ID task) (TrimSpace a)
                (clamp (default (Priority task) (Atoi (TrimSpace b)))))
      as (tm1 & e & Hop & _ & _).
    replace (match Atoi (TrimSpace b) with
             | Some p0 => p0
             | None => Priority task
             end) with (default (Priority task) (Atoi (TrimSpace b)))
      by by destruct (Atoi (TrimSpace b)).
    rewrite Hop. simpl. eexists. split_and!; [done|done| |simpl; lia].
    pose proof (SplitN2_two_parts (editBuffer tm)) as Hs.
    unfold SplitN2 in Hs. by rewrite Hcut in Hs.
  - simpl. eexists. split_and!; [done|done| |done].
    pose proof (SplitN2_two_parts (editBuffer tm)) as Hs.
    unfold SplitN2 in Hs. by rewrite Hcut in Hs.
Qed.

Lemma C9_edit_without_colon_is_discarded_witness :
  ∃ tm,
    st_edit_no_colon = Some tm
    ∧ editBuffer tm = "A"
    ∧ ∃ tm',
    handleInput (world 24) (EventKey KeyEnter 0) tm = Some (tm', false)
    ∧ editMode tm' = false
    ∧ (length (SplitN2 (editBuffer tm) ":") ≠ 2%nat
       ↔ contains ":" (editBuffer tm) = false)
    ∧ (length (SplitN2 (editBuffer tm) ":") ≠ 2%nat →
       tm' = set_editBuffer "" (set_editMode false tm)
       ∧ db tm' = db tm ∧ heap tm' = heap tm ∧ flatView tm' = flatView tm).
Proof.
  eexists. split; [vm_compute; reflexivity|]. split; [reflexivity|].
  apply (C9_edit_without_colon_is_discarded (world 24) 0).
  - assert (reached st_edit_no_colon) as H
      by (unfold st_edit_no_colon, st_chain; reached).
    apply H. vm_compute. reflexivity.
  - reflexivity.
Defined.

(** ** C10: an edit may empty the title *)

(** C10.  Confirm in edit mode on a buffer whose part before the first
    colon trims to the empty string, the store accepting the statement:
    the update is run for the selected task with the empty title, no row
    with its id keeps a title, and the object loaded for it has the empty
    title.  Nothing in edit mode rejects the empty title. *)
Theorem C10_edit_stores_empty_title (w : World) (ch : Z) (tm : TaskManager)
    (a b : string) :
  reachable tm →
  editMode tm = true →
  faults (db tm) = [] →
  cut ":" (editBuffer tm) = Some (a, b) →
  TrimSpace a = "" →
  ∃ tm' p task prio,
    current tm = Some (p, task)
    ∧ handleInput w (EventKey KeyEnter ch) tm = Some (tm', false)
    ∧ table (db tm')
      = (λ r, if Sql.has_id (ID task) r
              then mkRow (row_id r) "" prio (row_created_at r)
                     (row_parent_id r)
              else r) <$> table (db tm)
    ∧ (∀ r, r ∈ table (db tm') → row_id r = ID task → row_title r = "")
    ∧ (∀ t', heap tm' !! ID task = Some t' → Title t' = "").
Proof.
  intros Hreach He Hf Hcut Htrim.
  destruct (edit_confirm w ch tm a b Hreach He Hf Hcut)
    as (tm' & p & task & Hcur & Hstep & _ & Htab & Hheap).
  rewrite Htrim in Htab.
  exists tm', p, task,
    (clamp (default (Priority task) (Atoi (TrimSpace b)))).
  assert (∀ r, r ∈ table (db tm') → row_id r = ID task → row_title r = "")
    as Hrows.
  { intros r. rewrite Htab. intros (r0 & -> & _)%list_elem_of_fmap.
    unfold Sql.has_id. case_bool_decide; simpl; [done|congruence]. }
  split_and!; [done..|].
  intros t'. rewrite Hheap. intros (r & Hr & Hid & -> & _)%buildForest_title.
  apply Hrows; [|done]. by rewrite sort_by_elem in Hr.
Qed.

Lemma C10_edit_stores_empty_title_witness :
  ∃ tm,
    st_edit = Some tm
    ∧ editBuffer tm = ":30"
    ∧ ∃ tm' p task prio,
        current tm = Some (p, task)
        ∧ handleInput (world 24) (EventKey KeyEnter 0) tm = Some (tm', false)
        ∧ table (db tm')
          = (λ r, if Sql.has_id (ID task) r
                  then mkRow (row_id r) "" prio (row_created_at r)
                         (row_parent_id r)
                  else r) <$> table (db tm)
        ∧ (∀ r, r ∈ table (db tm') → row_id r = ID task → row_title r = "")
        ∧ (∀ t', heap tm' !! ID task = Some t' → Title t' = "").
Proof.
  eexists. split; [vm_compute; reflexivity|]. split; [reflexivity|].
  apply (C10_edit_stores_empty_title (world 24) 0 _ "" "30").
  - assert (reached st_edit) as H by (unfold st_edit, st_chain; reached).
    apply H. vm_compute. reflexivity.
  - reflexivity.
  - reflexivity.
  - reflexivity.
  - reflexivity.
Defined.

(** The row of A after the edit [":30"]: the empty title, priority 30 *)
Example edit_colon_30 :
  (λ tm, table (db tm)) <$> hit (world 24) KeyEnter st_edit
  = Some [mkRow 1 "" 30 10 None; row_B; row_C].
Proof. vm_compute. reflexivity. Qed.

(** ** C8: priority input that does not parse *)

Lemma Exec_insert_ok (d : DB) (t : Z) (ttl : string) (prio : Z)
    (parent : option Z) :
  faults d = [] →
  ∃ i, Sql.Exec_insert d t ttl prio parent
       = (Sql.with_table (table d ++ [mkRow i ttl prio t parent]) i d, inr i).
Proof.
  intros Hf. unfold Sql.Exec_insert, Sql.call. rewrite Hf. simpl.
  eexists. by destruct d.
Qed.

(** Confirm at the priority step of a subtask with the cursor above the
    first row: the guard [len(tm.flatView) > 0 && tm.currentIndex <
    len(tm.flatView)] lets the index through and [tm.flatView[tm.currentIndex]]
    panics, whatever the priority buffer holds. *)
Lemma subtask_confirm_panics (w : World) (ch : Z) (tm : TaskManager) :
  editMode tm = false → inputMode tm = "addsubtask" → inputStep tm ≠ 0%Z →
  flatView tm ≠ [] → (currentIndex tm < 0)%Z →
  handleInput w (EventKey KeyEnter ch) tm = None.
Proof.
  intros He Hm Hstep Hfv Hci.
  rewrite handleInput_input by (by rewrite ?Hm).
  unfold handleInputMode. apply Z.eqb_neq in Hstep as ->. cbv zeta.
  rewrite Hm. simpl.
  assert (hasCurrent tm = true) as ->.
  { unfold hasCurrent, len. destruct (flatView tm); [done|].
    apply andb_true_iff. split; apply Z.ltb_lt; simpl; lia. }
  unfold current, index. by destruct (Z.ltb_spec (currentIndex tm) 0); [|lia].
Qed.

(** C8.  Priority input that does not parse is meant to fall back to 50, and
    the claim holds that it never raises an error.  On a terminal of two
    rows half a page is -1 row: [Ctrl-D] on the chain moves the cursor to -1
    ([scrollHalfPageDown] has no test for a negative index), [s] opens the
    creation of a subtask, and with the title ["T"] entered the confirm of
    the priority step panics at [tm.flatView[tm.currentIndex]]: no task is
    created, with the empty priority buffer or any other. *)
Theorem C8_subtask_confirm_panics_above_first_row :
  ∃ tm,
    st_lost_cursor = Some tm
    ∧ reachable tm
    ∧ editMode tm = false ∧ inputMode tm = "addsubtask"
    ∧ inputStep tm = 1%Z ∧ inputTitle tm = "T" ∧ inputPriority tm = ""
    ∧ faults (db tm) = []
    ∧ flatView tm = [1; 2; 3]%Z ∧ currentIndex tm = (-1)%Z
    ∧ handleInput (world 2) (EventKey KeyEnter 0) tm = None
    ∧ ∀ s, handleInput (world 2) (EventKey KeyEnter 0)
             (set_inputPriority s tm) = None.
Proof.
  eexists. split; [vm_compute; reflexivity|].
  split.
  { assert (reached st_lost_cursor) as H by (unfold st_lost_cursor; reached).
    apply H. vm_compute. reflexivity. }
  split_and!; [vm_compute; reflexivity..|].
  intros s. by apply subtask_confirm_panics.
Qed.

(** ** C5: the flat view is the pre-order walk of the sorted forest *)

Lemma sorted_tasks (h : gmap Z Task) (ps : list Z) (ts : list Task) :
  Forall2 (λ p t, h !! p = Some t) ps ts →
  StronglySorted (ptr_le h) ps → StronglySorted task_le ts.
Proof.
  induction 1 as [|p t ps ts Hp Hall IH]; intros Hs; [constructor|].
  apply StronglySorted_inv in Hs as [Hs Hle].
  constructor; [by apply IH|].
  clear IH Hs. induction Hall as [|q tq ps ts Hq Hall IH]; [constructor|].
  apply Forall_cons in Hle as [(tp & tq' & ? & ? & ?) Hle].
  constructor; [|by apply IH]. by simplify_eq.
Qed.

Lemma forest_ordered (h : gmap Z Task) (f : nat) (ps : list Z)
    (F : list Tree) :
  (∀ p t, h !! p = Some t → StronglySorted (ptr_le h) (Children t)) →
  forest f h ps = Some F → Forall ordered F.
Proof.
  intros Hs. revert ps F. induction f as [|f IHf]; [done|].
  induction ps as [|p ps IHps]; intros F.
  - intros [= <-]. constructor.
  - intros (t & kids & rest & Ht & Hkids & Hrest & ->)%forest_cons_inv.
    constructor; [|by apply IHps]. constructor; [|by eapply IHf].
    eapply sorted_tasks; [by eapply forest_roots|]. by eapply Hs.
Qed.

Lemma pointers_ids (h : gmap Z Task) (ps : list Z) (ts : list Task) :
  (∀ p t, h !! p = Some t → ID t = p) →
  Forall2 (λ p t, h !! p = Some t) ps ts → ps = ID <$> ts.
Proof.
  intros Hid. induction 1 as [|p t ps ts Hp Hall IH]; [done|].
  rewrite fmap_cons. f_equal; [symmetry; by apply Hid|exact IH].
Qed.

(** C5.  In every reachable state the objects below the root slice form a
    forest; the root list and the children of every node of that forest are
    in the order of the specification, priority descending and creation
    time ascending among equal priorities; and the flat view points, in
    order, to the tasks of the pre-order walk of that forest which skips
    what is below a collapsed node and keeps the node. *)
Theorem C5_flat_view_is_sorted_preorder (tm : TaskManager) :
  reachable tm →
  ∃ F,
    forest (fuel_of (heap tm)) (heap tm) (tasks tm) = Some F
    ∧ StronglySorted task_le (root <$> F)
    ∧ Forall ordered F
    ∧ Forall2 (λ p t, heap tm !! p = Some t) (flatView tm)
        (flat_map preorder F)
    ∧ flatView tm = ID <$> flat_map preorder F.
Proof.
  intros [[Hwf [Hsr Hsc] Hflat] _]%reachable_inv.
  destruct (wf_forest_total _ _ Hwf) as [F HF]. exists F.
  destruct (forest_flat _ _ _ _ HF) as (l & Hl & Hall).
  assert (l = flatView tm) as -> by congruence.
  split_and!; [done| | |done|].
  - eapply sorted_tasks; [by eapply forest_roots|done].
  - by eapply forest_ordered.
  - eapply pointers_ids; [apply (wf_id _ _ Hwf)|done].
Qed.

Lemma C5_flat_view_is_sorted_preorder_witness :
  ∃ tm,
    st_hidden = Some tm
    ∧ flatView tm = [1; 2]%Z
    ∧ ∃ F,
        forest (fuel_of (heap tm)) (heap tm) (tasks tm) = Some F
        ∧ StronglySorted task_le (root <$> F)
        ∧ Forall ordered F
        ∧ Forall2 (λ p t, heap tm !! p = Some t) (flatView tm)
            (flat_map preorder F)
        ∧ flatView tm = ID <$> flat_map preorder F.
Proof.
  eexists. split; [vm_compute; reflexivity|]. split; [reflexivity|].
  apply C5_flat_view_is_sorted_preorder.
  assert (reached st_hidden) as H by (unfold st_hidden, st_chain; reached).
  apply H. vm_compute. reflexivity.
Defined.

(** ** C4: collapsing and expanding *)

Lemma Tree_rect' (P : Tree → Prop) :
  (∀ task kids, Forall P kids → P (Node task kids)) → ∀ t, P t.
Proof.
  intros H. fix IH 1. intros [task kids]. apply H.
  induction kids as [|kid kids IHkids]; constructor; [apply IH|exact IHkids].
Qed.

Lemma preorder_nodes (t : Tree) :
  Forall (λ d, IsExpanded d = true) (nodes t) → preorder t = nodes t.
Proof.
  induction t as [task kids IH] using Tree_rect'. simpl.
  intros [Hexp Hall]%Forall_cons. rewrite Hexp. simpl. f_equal.
  destruct kids as [|kid kids]; [done|]. simpl.
  change (flat_map preorder (kid :: kids) = flat_map nodes (kid :: kids)).
  clear Hexp. induction IH as [|k ks Hk IH IHks]; [done|]. simpl in *.
  apply Forall_app in Hall as [? ?]. by rewrite Hk, IHks.
Qed.

Lemma preorder_nodes_forest (F : list Tree) :
  Forall (λ d, IsExpanded d = true) (flat_map nodes F) →
  flat_map preorder F = flat_map nodes F.
Proof.
  induction F as [|T F IH]; [done|]. simpl.
  intros [? ?]%Forall_app. by rewrite preorder_nodes, IH.
Qed.

Lemma normalCh_zero (w : World) (tm : TaskManager) :
  normalCh w 0 tm = Some (tm, false).
Proof. reflexivity. Qed.

Lemma toggle_eq (w : World) (tm : TaskManager) (p : Z) (t : Task) :
  current tm = Some (p, t) → Children t ≠ [] →
  toggle w tm
  = rebuildFlatView w
      (set_heap (<[p := set_IsExpanded (negb (IsExpanded t)) t]> (heap tm))
         tm).
Proof.
  intros Hcur Hkids. unfold toggle.
  pose proof (current_Some _ _ _ Hcur) as (Hci & _).
  assert (hasCurrent tm = true) as ->.
  { unfold hasCurrent. apply andb_true_iff. split; apply Z.ltb_lt; lia. }
  rewrite Hcur. simpl.
  assert ((0 <? len (Children t))%Z = true) as ->; [|done].
  apply Z.ltb_lt. unfold len. destruct (Children t); [done|simpl; lia].
Qed.

(** The objects that the flat view lists have a depth. *)
Lemma flat_depth (h : gmap Z Task) (roots l : list Z) (f : nat) (x : Z) :
  wf_forest h roots → buildFlatView f h roots [] = Some l → x ∈ l →
  ∃ d, depth h x d.
Proof.
  intros Hwf Hl Hx.
  destruct (flat_anc h (wf_children _ _ Hwf) _ _ _ _ Hl Hx)
    as (k & r & Hr & Hk).
  exists (k + 0)%nat. eapply depth_anc; [done|].
  by apply depth_top, (wf_roots _ _ Hwf).
Qed.

(** C4, amended: for a task of the flat view that is expanded and has a
    child, toggling it off shortens the flat view by exactly the number of
    its descendants that the view showed, which is the number of all its
    transitive descendants when none of them is collapsed; toggling it on
    again gives back the flat view, entry by entry, and the objects. *)
Theorem C4_toggle_hides_what_was_shown (w : World) (tm : TaskManager)
    (p : Z) (t : Task) :
  reachable tm →
  editMode tm = false →
  inputMode tm = "" →
  current tm = Some (p, t) →
  Children t ≠ [] →
  IsExpanded t = true →
  ∃ tm1 tm2 sub desc,
    handleInput w (EventKey KeySpace 0) tm = Some (tm1, false)
    ∧ shown_below (heap tm) p = Some sub
    ∧ descendants (heap tm) p = Some desc
    ∧ length (flatView tm) = (length (flatView tm1) + length sub)%nat
    ∧ (Forall (λ d, IsExpanded d = true) desc → length sub = length desc)
    ∧ handleInput w (EventKey KeySpace 0) tm1 = Some (tm2, false)
    ∧ flatView tm2 = flatView tm
    ∧ heap tm2 = heap tm
    ∧ tasks tm2 = tasks tm.
Proof.
  intros [[Hwf Hs Hflat] _]%reachable_inv He Hm Hcur Hkids Hexp.
  pose proof (current_Some _ _ _ Hcur) as (Hci & Hlook & Hp).
  set (h := heap tm) in *. set (l := flatView tm) in *.
  set (h' := <[p := set_IsExpanded false t]> h).
  pose proof (wf_flat_NoDup _ _ _ _ Hwf Hflat) as Hnd.
  assert (p ∈ l) as Hin by by eapply list_elem_of_lookup_2.
  destruct (flat_collapse h p t _ _ _ Hp Hflat Hnd Hin)
    as (pre & sub & post & Hl & Hsub & Hflat').
  assert (Z.to_nat (currentIndex tm) = length pre) as Hpos.
  { eapply NoDup_lookup; [exact Hnd|exact Hlook|].
    rewrite Hl. apply list_lookup_middle. done. }
  (* the first toggle *)
  set (tm0 := set_heap h' (set_statusMsg "" tm)).
  assert (rebuildFlatView w tm0
          = Some (adjustScroll w (set_flatView (pre ++ p :: post) tm0)))
    as Hre1.
  { rewrite rebuildFlatView_eq.
    change (heap tm0) with h'. change (tasks tm0) with (tasks tm).
    unfold h'. rewrite (toggle_fuel h p t false Hp).
    rewrite Hflat'. simpl. rewrite clampCursor_keep; [done|].
    simpl. unfold len in *. rewrite length_app. simpl. lia. }
  set (tm1 := adjustScroll w (set_flatView (pre ++ p :: post) tm0)).
  assert (handleInput w (EventKey KeySpace 0) tm = Some (tm1, false)) as H1.
  { rewrite handleInput_normal by done. unfold handleNormalMode. simpl.
    rewrite (toggle_eq w (set_statusMsg "" tm) p t Hcur Hkids).
    rewrite Hexp. simpl.
    change (rebuildFlatView w tm0 ≫= normalCh w 0 = Some (tm1, false)).
    by rewrite Hre1. }
  (* the second toggle *)
  assert (tm1 = set_scrollOffset (scrollOffset tm1)
                  (set_flatView (pre ++ p :: post) tm0)) as Htm1
    by apply adjustScroll_eq.
  assert (current tm1 = Some (p, set_IsExpanded false t)) as Hcur1.
  { rewrite Htm1. unfold current, index. simpl.
    destruct (Z.ltb_spec (currentIndex tm) 0); [lia|].
    rewrite Hpos, list_lookup_middle by done. simpl.
    unfold h'. by rewrite lookup_insert_eq. }
  assert (<[p := set_IsExpanded true (set_IsExpanded false t)]> h' = h)
    as Hback.
  { unfold h'. rewrite insert_insert_eq.
    replace (set_IsExpanded true (set_IsExpanded false t)) with t.
    - by apply insert_id.
    - destruct t. simpl in *. by subst. }
  set (tm1' := set_heap h (set_statusMsg "" tm1)).
  assert (rebuildFlatView w tm1'
          = Some (adjustScroll w (clampCursor (set_flatView l tm1'))))
    as Hre2.
  { rewrite rebuildFlatView_eq.
    replace (heap tm1') with h by done.
    replace (tasks tm1') with (tasks tm) by (unfold tm1'; by rewrite Htm1).
    by rewrite Hflat. }
  set (tm2 := adjustScroll w (clampCursor (set_flatView l tm1'))).
  assert (handleInput w (EventKey KeySpace 0) tm1 = Some (tm2, false)) as H2.
  { rewrite handleInput_normal by (by rewrite Htm1).
    unfold handleNormalMode. simpl.
    rewrite (toggle_eq w (set_statusMsg "" tm1) p (set_IsExpanded false t)
               Hcur1 Hkids).
    simpl.
    replace (heap tm1) with h' by (by rewrite Htm1).
    rewrite Hback.
    change (rebuildFlatView w tm1' ≫= normalCh w 0 = Some (tm2, false)).
    by rewrite Hre2. }
  (* the descendants *)
  destruct (flat_depth h (tasks tm) l _ p Hwf Hflat Hin) as [d Hd].
  destruct (forest_total h (wf_children _ _ Hwf) (fuel_of h) (S d)
              (Children t)) as [kids Hforest].
  { intros c Hc. eapply depth_child; [done|]. by eapply wf_children. }
  { unfold fuel_of. lia. } { unfold fuel_of. lia. }
  assert (shown_below h p = Some sub) as Hshown.
  { unfold shown_below. rewrite Hp. done. }
  exists tm1, tm2, sub, (flat_map nodes kids).
  split_and!; [done|done| | | |done| | |].
  - unfold descendants. fold h. rewrite Hp. simpl. by rewrite Hforest.
  - replace (flatView tm1) with (pre ++ p :: post) by (by rewrite Htm1).
    fold l. rewrite Hl, !length_app. simpl. rewrite length_app. lia.
  - intros Hall. destruct (forest_flat _ _ _ _ Hforest) as (l0 & Hl0 & Hf2).
    unfold below in Hsub. rewrite Hexp in Hsub.
    assert ((0 <? len (Children t))%Z = true) as Hlen.
    { apply Z.ltb_lt. unfold len. destruct (Children t); [done|simpl; lia]. }
    rewrite Hlen in Hsub. simpl in Hsub.
    assert (l0 = sub) as -> by congruence.
    rewrite (Forall2_length _ _ _ Hf2).
    by rewrite preorder_nodes_forest.
  - unfold tm2. by rewrite adjustScroll_eq, clampCursor_eq.
  - unfold tm2. by rewrite adjustScroll_eq, clampCursor_eq.
  - unfold tm2. rewrite adjustScroll_eq, clampCursor_eq. simpl.
    by rewrite Htm1.
Qed.

Lemma C4_toggle_hides_what_was_shown_witness :
  ∃ tm,
    st_chain = Some tm
    ∧ flatView tm = [1; 2; 3]%Z
    ∧ ∃ tm1 tm2 sub desc,
        handleInput (world 24) (EventKey KeySpace 0) tm = Some (tm1, false)
        ∧ shown_below (heap tm) 1 = Some sub
        ∧ descendants (heap tm) 1 = Some desc
        ∧ length (flatView tm) = (length (flatView tm1) + length sub)%nat
        ∧ (Forall (λ d, IsExpanded d = true) desc →
           length sub = length desc)
        ∧ handleInput (world 24) (EventKey KeySpace 0) tm1
          = Some (tm2, false)
        ∧ flatView tm2 = flatView tm
        ∧ heap tm2 = heap tm
        ∧ tasks tm2 = tasks tm.
Proof.
  eexists. split; [vm_compute; reflexivity|]. split; [reflexivity|].
  apply (C4_toggle_hides_what_was_shown (world 24) _ 1
           (mkTask 1 "A" 50 10 None [2%Z] true)).
  - assert (reached st_chain) as H by (unfold st_chain; reached).
    apply H. vm_compute. reflexivity.
  - reflexivity.
  - reflexivity.
  - vm_compute. reflexivity.
  - discriminate.
  - reflexivity.
Defined.

(** C4, as the specification states it, fails: the flat view shrinks by the
    descendants that were shown, not by all of them.  In the chain
    A > B > C with B collapsed the view is [A; B]; A is expanded and has a
    child; toggling A off leaves [A], one entry less, while A has two
    transitive descendants. *)
Lemma C4_hidden_descendants_are_not_counted :
  ∃ tm tm' t,
    st_hidden = Some tm
    ∧ reachable tm
    ∧ current tm = Some (1%Z, t)
    ∧ Children t = [2%Z] ∧ IsExpanded t = true
    ∧ flatView tm = [1; 2]%Z
    ∧ handleInput (world 24) (EventKey KeySpace 0) tm = Some (tm', false)
    ∧ flatView tm' = [1%Z]
    ∧ length <$> descendants (heap tm) 1 = Some 2%nat.
Proof.
  eexists _, _, _. split; [vm_compute; reflexivity|].
  split.
  { assert (reached st_hidden) as H by (unfold st_hidden, st_chain; reached).
    apply H. vm_compute. reflexivity. }
  split; [vm_compute; reflexivity|].
  split_and!; vm_compute; reflexivity.
Qed.

(** * Further properties of the code *)

(** ** The commands of normal mode on the store *)

Lemma hasCurrent_current (tm : TaskManager) (p : Z) (t : Task) :
  current tm = Some (p, t) → hasCurrent tm = true.
Proof.
  intros (Hci & _)%current_Some. unfold hasCurrent.
  apply andb_true_iff. split; apply Z.ltb_lt; lia.
Qed.

Lemma handleInput_char (w : World) (ch : Z) (tm : TaskManager) :
  normalMode tm →
  handleInput w (char ch) tm = normalCh w ch (set_statusMsg "" tm).
Proof. intros [He Hm]. unfold char. by rewrite handleInput_normal. Qed.

Lemma normalCh_d (w : World) (tm : TaskManager) (p : Z) (t : Task) :
  current tm = Some (p, t) →
  normalCh w (rune "d") tm
  = tm' ← fst <$> deleteTask w (ID t) tm; Some (tm', false).
Proof.
  intros Hcur. unfold normalCh. simpl.
  by rewrite (hasCurrent_current _ _ _ Hcur), Hcur.
Qed.

Lemma normalCh_J (w : World) (tm : TaskManager) (p : Z) (t : Task) :
  current tm = Some (p, t) →
  normalCh w (rune "J") tm
  = tm' ← fst <$> updateTaskPriority w (ID t) (-1) tm; Some (tm', false).
Proof.
  intros Hcur. unfold normalCh. simpl.
  by rewrite (hasCurrent_current _ _ _ Hcur), Hcur.
Qed.

Lemma normalCh_K (w : World) (tm : TaskManager) (p : Z) (t : Task) :
  current tm = Some (p, t) →
  normalCh w (rune "K") tm
  = tm' ← fst <$> updateTaskPriority w (ID t) 1 tm; Some (tm', false).
Proof.
  intros Hcur. unfold normalCh. simpl.
  by rewrite (hasCurrent_current _ _ _ Hcur), Hcur.
Qed.

Lemma rebuilt_statusMsg (tm tm' : TaskManager) :
  rebuilt tm tm' → statusMsg tm' = statusMsg tm.
Proof. by intros (d & h & r & fv & c & so & ->). Qed.

Lemma rebuilt_modes (tm tm' : TaskManager) :
  rebuilt tm tm' →
  editMode tm' = editMode tm ∧ editBuffer tm' = editBuffer tm
  ∧ inputMode tm' = inputMode tm ∧ inputStep tm' = inputStep tm
  ∧ inputTitle tm' = inputTitle tm ∧ inputPriority tm' = inputPriority tm.
Proof. by intros (d & h & r & fv & c & so & ->). Qed.

Lemma Exec_delete_ok (d : DB) (i : Z) :
  faults d = [] →
  ∃ d', Sql.Exec_delete d i = (d', None) ∧ faults d' = [] ∧ seq d' = seq d
        ∧ table d'
          = filter (λ r, row_id r ≠ i ∧ row_parent_id r ≠ Some i) (table d).
Proof.
  intros Hf. pose proof (Exec_delete_table d i Hf) as Ht. revert Ht.
  unfold Sql.Exec_delete, Sql.call. rewrite Hf. simpl. intros Ht.
  eexists. by split_and!.
Qed.

(** X1.  The key [d] in normal mode, the store accepting the statements:
    the table loses the row of the selected task and the rows that name it
    as parent, and keeps every other row in place; the status line names
    the task and the cursor is valid on the view that is loaded. *)
Theorem X1_delete_key (w : World) (tm : TaskManager) (p : Z) (t : Task) :
  reachable tm →
  normalMode tm →
  faults (db tm) = [] →
  current tm = Some (p, t) →
  ∃ tm',
    handleInput w (char (rune "d")) tm = Some (tm', false)
    ∧ table (db tm')
      = filter (λ r, row_id r ≠ ID t ∧ row_parent_id r ≠ Some (ID t))
          (table (db tm))
    ∧ statusMsg tm' = "Deleted task ID: " +:+ itoa (ID t)
    ∧ normalMode tm'
    ∧ valid_cursor tm'.
Proof.
  intros Hreach Hn Hf Hcur. rewrite handleInput_char by done.
  rewrite (normalCh_d w (set_statusMsg "" tm) p t Hcur). unfold deleteTask. simpl.
  destruct (Exec_delete_ok (db tm) (ID t) Hf) as (d' & -> & Hf' & _ & Ht).
  set (tm1 := set_statusMsg _ (set_db d' _)).
  destruct (reload_ok w tm1) as (tm' & -> & _ & Hv & Hr & Hdb & _);
    [done|].
  simpl. exists tm'. split_and!; [done| | | |done].
  - by rewrite Hdb.
  - by rewrite (rebuilt_statusMsg _ _ Hr).
  - destruct (rebuilt_modes _ _ Hr) as (He & _ & Hm & _).
    destruct Hn. split; [by rewrite He|by rewrite Hm].
Qed.

Lemma X1_delete_key_witness :
  ∃ tm,
    st_chain = Some tm
    ∧ ∃ tm',
        handleInput (world 24) (char (rune "d")) tm = Some (tm', false)
        ∧ table (db tm')
          = filter (λ r, row_id r ≠ 1%Z ∧ row_parent_id r ≠ Some 1%Z)
              (table (db tm))
        ∧ statusMsg tm' = "Deleted task ID: " +:+ itoa 1
        ∧ normalMode tm'
        ∧ valid_cursor tm'.
Proof.
  eexists. split; [vm_compute; reflexivity|].
  apply (X1_delete_key (world 24) _ 1 (mkTask 1 "A" 50 10 None [2%Z] true)).
  - assert (reached st_chain) as H by (unfold st_chain; reached).
    apply H. vm_compute. reflexivity.
  - split; reflexivity.
  - reflexivity.
  - vm_compute. reflexivity.
Defined.


Lemma clamp_id (p : Z) : (1 ≤ p ≤ 100)%Z → clamp p = p.
Proof.
  intros H. unfold clamp. destruct (Z.ltb_spec p 1); [lia|].
  destruct (Z.ltb_spec 100 p); [lia|done].
Qed.






Lemma filter_none {A} (P : A → Prop) `{∀ x, Decision (P x)} (l : list A) :
  (∀ x, x ∈ l → ¬ P x) → filter P l = [].
Proof.
  induction l as [|x l IH]; intros Hl; [done|].
  rewrite filter_cons. rewrite decide_False by (apply Hl; left).
  apply IH. intros y Hy. apply Hl. by right.
Qed.

(** X3.  [updateTaskPriority] for an id that no row has, the store being
    available: the query finds no row, the method returns that error, and
    the state is what it was: no statement is run, nothing is reloaded, no
    status message is set. *)
Theorem X3_priority_of_missing_task (w : World) (tm : TaskManager)
    (taskID priorityChange : Z) :
  faults (db tm) = [] →
  taskID ∉ row_id <$> table (db tm) →
  updateTaskPriority w taskID priorityChange tm
  = Some (tm, Some "sql: no rows in result set").
Proof.
  intros Hf Hid. unfold updateTaskPriority, Sql.QueryRow_priority, Sql.call.
  rewrite Hf, filter_none; [by destruct tm|].
  intros r Hr Hhas. apply Hid. unfold Sql.has_id in Hhas.
  apply bool_decide_eq_true in Hhas as <-. by apply list_elem_of_fmap_2.
Qed.

Lemma X3_priority_of_missing_task_witness :
  ∃ tm,
    st_chain = Some tm
    ∧ updateTaskPriority (world 24) 9 1 tm
      = Some (tm, Some "sql: no rows in result set").
Proof.
  eexists. split; [vm_compute; reflexivity|].
  apply X3_priority_of_missing_task; [reflexivity|].
  simpl. rewrite !elem_of_cons, elem_of_nil. lia.
Defined.

(** ** Statements that the store refuses *)

Lemma call_fault (d : DB) (e : string) (io : list (option string)) :
  faults d = Some e :: io →
  Sql.call d = ({| table := table d; seq := seq d; faults := io |}, Some e).
Proof. intros Hf. unfold Sql.call. by rewrite Hf. Qed.

(** X4.  When the store refuses the statement, the keys [d], [J] and [K]
    of normal mode and confirm in edit mode drop the error: the handler
    returns with an empty status message, the table, the objects, the view
    and the cursor as they were, and (in edit mode) the edit discarded. *)
Theorem X4_refused_write_is_dropped (w : World) (tm : TaskManager) (p : Z)
    (t : Task) (e : string) (io : list (option string)) :
  current tm = Some (p, t) →
  faults (db tm) = Some e :: io →
  let d := {| table := table (db tm); seq := seq (db tm); faults := io |} in
  (normalMode tm →
   ∀ ch, ch ∈ [rune "d"; rune "J"; rune "K"] →
         handleInput w (char ch) tm
         = Some (set_db d (set_statusMsg "" tm), false))
  ∧ (editMode tm = true →
     ∀ ch, contains ":" (editBuffer tm) = true →
           handleInput w (EventKey KeyEnter ch) tm
           = Some (leaveEdit (set_db d tm), false)).
Proof.
  intros Hcur Hf d. split.
  - intros Hn ch Hch. rewrite handleInput_char by done.
    repeat (apply elem_of_cons in Hch as [->|Hch]); [| | |by inversion Hch].
    + rewrite (normalCh_d w (set_statusMsg "" tm) p t Hcur).
      unfold deleteTask, Sql.Exec_delete. simpl.
      by rewrite (call_fault _ _ _ Hf).
    + rewrite (normalCh_J w (set_statusMsg "" tm) p t Hcur).
      unfold updateTaskPriority, Sql.QueryRow_priority. simpl.
      by rewrite (call_fault _ _ _ Hf).
    + rewrite (normalCh_K w (set_statusMsg "" tm) p t Hcur).
      unfold updateTaskPriority, Sql.QueryRow_priority. simpl.
      by rewrite (call_fault _ _ _ Hf).
  - intros He ch Hcolon. rewrite handleInput_edit by done.
    unfold handleEditMode.
    rewrite (hasCurrent_current _ _ _ Hcur), Hcur. simpl.
    unfold SplitN2.
    destruct (cut ":" (editBuffer tm)) as [[a b]|] eqn:Hcut.
    + unfold updateTask, Sql.Exec_update.
      by rewrite (call_fault _ _ _ Hf).
    + apply cut_contains in Hcut. congruence.
Qed.

Lemma X4_refused_write_is_dropped_witness :
  ∃ tm,
    st_failing = Some tm
    ∧ faults (db tm) = [Some "disk I/O error"]
    ∧ handleInput (world 24) (char (rune "d")) tm
      = Some (set_db {| table := table (db tm); seq := seq (db tm);
                        faults := [] |} (set_statusMsg "" tm), false).
Proof.
  eexists. split; [vm_compute; reflexivity|]. split; [reflexivity|].
  eapply (proj1 (X4_refused_write_is_dropped (world 24) _ 1
                   (mkTask 1 "A" 50 10 None [2%Z] true)
                   "disk I/O error" [] _ _)).
  - split; reflexivity.
  - left.
  Unshelve.
  + vm_compute. reflexivity.
  + reflexivity.
Defined.

(** X5.  Confirm at the priority step of creation mode when the store
    refuses the insert: the status line reports the error, creation mode is
    left with its buffers cleared, and the table, the objects, the view and
    the cursor are as they were. *)
Theorem X5_refused_insert_is_reported (w : World) (ch : Z)
    (tm : TaskManager) (e : string) (io : list (option string)) :
  reachable tm →
  editMode tm = false →
  inputMode tm ≠ "" →
  inputStep tm ≠ 0%Z →
  (0 ≤ currentIndex tm)%Z →
  faults (db tm) = Some e :: io →
  let d := {| table := table (db tm); seq := seq (db tm); faults := io |} in
  handleInput w (EventKey KeyEnter ch) tm
  = Some (leaveInput (set_statusMsg ("Error adding task: " +:+ e)
                        (set_db d tm)), false).
Proof.
  intros [Hc _]%reachable_inv He Hm Hstep Hci Hf d.
  rewrite handleInput_input by done. unfold handleInputMode.
  apply Z.eqb_neq in Hstep as ->. cbv zeta.
  assert (∃ parentID,
    (if String.eqb (inputMode tm) "addsubtask" && hasCurrent tm
     then '(_, currentTask) ← current tm; Some (Some (ID currentTask))
     else Some None) = Some parentID) as [parentID ->].
  { destruct (String.eqb _ _ && hasCurrent tm) eqn:Hsel; [|by eexists].
    apply andb_true_iff in Hsel as [_ Hcur]. unfold hasCurrent in Hcur.
    apply andb_true_iff in Hcur as [_ Hlt%Z.ltb_lt].
    destruct (current_total tm Hc) as (p & t & ->); [lia|]. by eexists. }
  simpl. unfold addTask, Sql.Exec_insert.
  by rewrite (call_fault _ _ _ Hf).
Qed.

Lemma X5_refused_insert_is_reported_witness :
  ∃ tm,
    st_create_failing = Some tm
    ∧ handleInput (world 24) (EventKey KeyEnter 0) tm
      = Some (leaveInput
                (set_statusMsg ("Error adding task: " +:+ "disk I/O error")
                   (set_db {| table := table (db tm); seq := seq (db tm);
                              faults := [] |} tm)), false).
Proof.
  eexists. split; [vm_compute; reflexivity|].
  apply (X5_refused_insert_is_reported (world 24) 0 _ "disk I/O error" []).
  - assert (reached st_create_failing) as H
      by (unfold st_create_failing, st_failing; reached).
    apply H. vm_compute. reflexivity.
  - reflexivity.
  - discriminate.
  - discriminate.
  - discriminate.
  - reflexivity.
Defined.

(** ** What a reload shows *)

Lemma flat_heads (f : nat) (h : gmap Z Task) (ps l : list Z) (x : Z) :
  buildFlatView f h ps [] = Some l → x ∈ ps → x ∈ l.
Proof.
  destruct f as [|f]; [done|]. revert l.
  induction ps as [|p ps IH]; intros l; [by inversion 2|].
  intros (t & sub & rest & _ & _ & Hrest & ->)%flat_cons_inv.
  intros [->|Hx]%elem_of_cons; [left|].
  right. apply elem_of_app. right. by apply IH.
Qed.

(** The children of an expanded task of the view are in the view. *)
Lemma flat_children (f : nat) (h : gmap Z Task) (ps l : list Z) (p c : Z)
    (t : Task) :
  buildFlatView f h ps [] = Some l → p ∈ l →
  h !! p = Some t → IsExpanded t = true → c ∈ Children t → c ∈ l.
Proof.
  intros Hl Hp Ht Hexp Hc. revert ps l Hl Hp.
  induction f as [|f IHf]; [done|].
  induction ps as [|q ps IHps]; intros l.
  { intros [= <-]. by inversion 1. }
  intros (tq & sub & rest & Hq & Hsub & Hrest & ->)%flat_cons_inv.
  rewrite !elem_of_cons, !elem_of_app. intros [->|[Hp|Hp]].
  - right. left. assert (tq = t) as -> by congruence.
    unfold below in Hsub. rewrite Hexp in Hsub.
    assert ((0 <? len (Children t))%Z = true) as Hlen.
    { apply Z.ltb_lt. unfold len. destruct (Children t); [by inversion Hc|].
      simpl. lia. }
    rewrite Hlen in Hsub. simpl in Hsub. by eapply flat_heads.
  - right. left. unfold below in Hsub. destruct (_ && _).
    + by eapply IHf.
    + injection Hsub as <-. by inversion Hp.
  - right. right. by eapply IHps.
Qed.

(** An entry of the view is a root or a child of an entry of the view. *)
Lemma flat_origin (f : nat) (h : gmap Z Task) (ps l : list Z) (x : Z) :
  buildFlatView f h ps [] = Some l → x ∈ l →
  x ∈ ps ∨ ∃ q t, q ∈ l ∧ h !! q = Some t ∧ x ∈ Children t.
Proof.
  revert ps l. induction f as [|f IHf]; [done|].
  induction ps as [|p ps IHps]; intros l.
  { intros [= <-]. by inversion 1. }
  intros (t & sub & rest & Ht & Hsub & Hrest & ->)%flat_cons_inv.
  rewrite elem_of_cons, elem_of_app. intros [->|[Hx|Hx]].
  - left. left.
  - right. unfold below in Hsub. destruct (_ && _);
      [|injection Hsub as <-; by inversion Hx].
    destruct (IHf _ _ Hsub Hx) as [Hc|(q & tq & Hq & Htq & Hc)].
    + exists p, t. split_and!; [left|done|done].
    + exists q, tq. split_and!; [|done|done].
      right. apply elem_of_app. by left.
  - destruct (IHps _ Hrest Hx) as [Hc|(q & tq & Hq & Htq & Hc)].
    + left. by right.
    + right. exists q, tq. split_and!; [|done|done].
      right. apply elem_of_app. by right.
Qed.

Lemma flat_parent (h : gmap Z Task) (roots l : list Z) (f : nat) (x p : Z) :
  wf_forest h roots → buildFlatView f h roots [] = Some l →
  x ∈ l → parent h x = Some p → p ∈ l.
Proof.
  intros Hwf Hl Hx Hp.
  destruct (flat_origin _ _ _ _ _ Hl Hx) as [Hr|(q & t & Hq & Ht & Hc)].
  - apply (wf_roots _ _ Hwf), top_parent in Hr. congruence.
  - pose proof (wf_children _ _ Hwf _ _ _ Ht Hc). congruence.
Qed.

Lemma flat_complete (h : gmap Z Task) (roots l : list Z) (f : nat) :
  (∀ r, top h r → r ∈ roots) →
  (∀ c p t, parent h c = Some p → h !! p = Some t → c ∈ Children t) →
  (∀ k t, h !! k = Some t → IsExpanded t = true) →
  buildFlatView f h roots [] = Some l →
  ∀ d x, depth h x d → x ∈ l.
Proof.
  intros Htop Hkids Hexp Hl. induction d as [|d IH]; intros x.
  - intros (r & [= <-] & Hr). eapply flat_heads; [done|]. by apply Htop.
  - intros (r & Hr & Hrtop). simpl in Hr.
    destruct (parent h x) as [p|] eqn:Hp; [|done]. simpl in Hr.
    assert (depth h p d) as Hd by by exists r.
    destruct (depth_heap _ _ _ Hd) as [t Ht].
    eapply flat_children; eauto.
Qed.

Lemma buildForest_keys (rows : list Row) (k : Z) :
  is_Some ((buildForest rows).1 !! k) ↔ k ∈ row_id <$> rows.
Proof.
  rewrite buildForest_lookup, fmap_is_Some. split.
  - intros [t (r & Hr & _ & <-)%buildTaskMap_lookup].
    by apply list_elem_of_fmap_2.
  - intros (r & -> & Hr)%list_elem_of_fmap. revert Hr.
    unfold buildTaskMap. induction rows as [|r' rows IH] using rev_ind;
      [by inversion 1|].
    rewrite foldl_snoc, elem_of_app, list_elem_of_singleton.
    destruct (decide (row_id r' = row_id r)) as [->|Hne].
    + rewrite lookup_insert_eq. by eexists.
    + rewrite lookup_insert_ne by done. intros [?| ->]; [auto|done].
Qed.

Lemma buildForest_expanded (rows : list Row) (k : Z) (t : Task) :
  (buildForest rows).1 !! k = Some t → IsExpanded t = true.
Proof.
  rewrite buildForest_lookup.
  destruct (buildTaskMap rows !! k) as [t0|] eqn:Ht0; [|done].
  intros [= <-]. by apply buildTaskMap_lookup in Ht0 as (r & _ & -> & _).
Qed.

Lemma buildForest_tops (rows : list Row) (r : Z) :
  top (buildForest rows).1 r → r ∈ (buildForest rows).2.
Proof.
  intros (t & Ht & Hp). rewrite buildForest_roots. unfold sortTasks.
  rewrite sort_by_elem, elem_of_roots_of.
  destruct (similar_lookup _ _ _ _
              (similar_sym _ _ (buildForest_similar rows)) Ht)
    as (t0 & Ht0 & _ & _ & _ & _ & Hp0).
  exists t0. split; [done|congruence].
Qed.

Lemma buildForest_kids (rows : list Row) (c p : Z) (t : Task) :
  parent (buildForest rows).1 c = Some p →
  (buildForest rows).1 !! p = Some t → c ∈ Children t.
Proof.
  rewrite <-(similar_parent _ _ _ (buildForest_similar rows)).
  unfold parent. intros Hc. rewrite buildForest_lookup.
  destruct (buildTaskMap rows !! p) as [t0|]; [|done]. intros [= <-].
  simpl. unfold sortTasks. rewrite sort_by_elem, elem_of_kids_of.
  destruct (buildTaskMap rows !! c) as [tc|]; [|done]. by exists tc.
Qed.

(** X6.  [loadTasks] followed by [rebuildFlatView], as every command runs
    them, on a store that answers: every row has an object and every object
    a row; every object is expanded, whatever was collapsed before; and the
    flat view lists, once each, exactly the tasks whose chain of parents
    ends at a task without parent. *)
Theorem X6_reload_shows_rooted_tasks (w : World) (tm : TaskManager) :
  faults (db tm) = [] →
  ∃ tm',
    rebuildFlatView w (loadTasks tm).1 = Some tm'
    ∧ (∀ k, is_Some (heap tm' !! k) ↔ k ∈ row_id <$> table (db tm))
    ∧ (∀ k t, heap tm' !! k = Some t → IsExpanded t = true)
    ∧ NoDup (flatView tm')
    ∧ (∀ x, x ∈ flatView tm' ↔ ∃ d, depth (heap tm') x d).
Proof.
  intros Hf.
  destruct (reload_ok w tm Hf) as (tm' & Hre & [Hwf _ Hflat] & _ & _ & _
                                   & Hh & Ht).
  exists tm'. split; [done|]. rewrite Hh in *. rewrite Ht in *.
  split_and!.
  - intros k. rewrite buildForest_keys.
    split; intros (r & -> & Hr)%list_elem_of_fmap; apply list_elem_of_fmap_2.
    + by apply sort_by_elem in Hr.
    + by apply sort_by_elem.
  - apply buildForest_expanded.
  - by eapply wf_flat_NoDup.
  - intros x. split.
    + by eapply flat_depth.
    + intros [d Hd]. eapply flat_complete; eauto.
      * apply buildForest_tops.
      * apply buildForest_kids.
      * apply buildForest_expanded.
Qed.

Lemma X6_reload_shows_rooted_tasks_witness :
  ∃ tm,
    st_hidden = Some tm
    ∧ flatView tm = [1; 2]%Z
    ∧ ∃ tm',
        rebuildFlatView (world 24) (loadTasks tm).1 = Some tm'
        ∧ (∀ k, is_Some (heap tm' !! k) ↔ k ∈ row_id <$> table (db tm))
        ∧ (∀ k t, heap tm' !! k = Some t → IsExpanded t = true)
        ∧ NoDup (flatView tm')
        ∧ (∀ x, x ∈ flatView tm' ↔ ∃ d, depth (heap tm') x d).
Proof.
  eexists. split; [vm_compute; reflexivity|]. split; [reflexivity|].
  apply (X6_reload_shows_rooted_tasks (world 24)). reflexivity.
Defined.

(** ** The depth that [render] indents by *)

Lemma findID_found (h : gmap Z Task) (fv : list Z) (x : Z) :
  (∀ p, p ∈ fv → ∃ t, h !! p = Some t ∧ ID t = p) →
  x ∈ fv → findID h fv x = Some (Some x).
Proof.
  induction fv as [|p fv IH]; intros Hfv; [by inversion 1|].
  destruct (Hfv p) as (t & Ht & Hid); [left|]. simpl. rewrite Ht. simpl.
  rewrite Hid. destruct (Z.eqb_spec p x) as [->|Hne]; [done|].
  intros [?|Hx]%elem_of_cons; [congruence|].
  apply IH; [|done]. intros q Hq. apply Hfv. by right.
Qed.

Section TaskDepth.

Context (tm : TaskManager).
Hypothesis Hcore : core tm.

Lemma view_objects (p : Z) :
  p ∈ flatView tm → ∃ t, heap tm !! p = Some t ∧ ID t = p.
Proof.
  destruct Hcore as [Hwf _ Hflat]. intros Hp.
  destruct (flat_elem_heap _ _ _ _ p Hflat Hp) as [t Ht].
  exists t. split; [done|]. by apply (wf_id _ _ Hwf).
Qed.

Lemma getTaskDepth_depth (d f : nat) (x : Z) :
  (d < f)%nat → x ∈ flatView tm → depth (heap tm) x d →
  getTaskDepth f tm x = Some (Z.of_nat d).
Proof.
  destruct Hcore as [Hwf _ Hflat].
  revert f x. induction d as [|d IH]; intros [|f] x Hf Hx Hd; try lia.
  - destruct (view_objects x Hx) as (t & Ht & Hid). simpl.
    rewrite Ht. simpl. rewrite Hid, (findID_found _ _ _ view_objects Hx).
    simpl. destruct Hd as (r & [= <-] & (t' & Ht' & Hp)).
    assert (t' = t) as -> by congruence. by rewrite Hp.
  - destruct (view_objects x Hx) as (t & Ht & Hid). simpl.
    rewrite Ht. simpl. rewrite Hid, (findID_found _ _ _ view_objects Hx).
    simpl. destruct Hd as (r & Hr & Htop). simpl in Hr.
    destruct (parent (heap tm) x) as [p|] eqn:Hp; [|done]. simpl in Hr.
    assert (ParentID t = Some p) as ->.
    { unfold parent in Hp. by rewrite Ht in Hp. }
    assert (p ∈ flatView tm) as Hpin by by eapply flat_parent.
    rewrite (findID_found _ _ _ view_objects Hpin). simpl.
    rewrite (IH f p); [|lia|done|by exists r]. simpl. f_equal. lia.
Qed.

End TaskDepth.

(** X7.  In a reachable state, for every task of the flat view,
    [getTaskDepth] returns, and what it returns is the number of ancestors
    of the task: the length of its chain of parents up to a task without
    parent. *)
Theorem X7_getTaskDepth_counts_ancestors (tm : TaskManager) (x : Z) :
  reachable tm →
  x ∈ flatView tm →
  ∃ d : nat,
    depth (heap tm) x d
    ∧ getTaskDepth (fuel_of (heap tm)) tm x = Some (Z.of_nat d).
Proof.
  intros [Hc _]%reachable_inv Hx. pose proof Hc as [Hwf _ Hflat].
  destruct (flat_depth _ _ _ _ x Hwf Hflat Hx) as [d Hd]. exists d.
  split; [done|]. apply getTaskDepth_depth; [done| |done|done].
  pose proof (depth_bound _ _ _ Hd). unfold fuel_of. lia.
Qed.

Lemma X7_getTaskDepth_counts_ancestors_witness :
  ∃ tm,
    st_chain = Some tm
    ∧ ∃ d : nat,
        depth (heap tm) 3 d
        ∧ getTaskDepth (fuel_of (heap tm)) tm 3 = Some (Z.of_nat d).
Proof.
  eexists. split; [vm_compute; reflexivity|].
  apply X7_getTaskDepth_counts_ancestors.
  - assert (reached st_chain) as H by (unfold st_chain; reached).
    apply H. vm_compute. reflexivity.
  - vm_compute. do 2 right. left.
Defined.

(** The depth of C in the chain A > B > C *)
Example getTaskDepth_chain :
  (tm ← st_chain; getTaskDepth (fuel_of (heap tm)) tm 3) = Some 2%Z.
Proof. vm_compute. reflexivity. Qed.

(** ** The cursor along a run *)

Lemma valid_ext (tm tm' : TaskManager) :
  currentIndex tm' = currentIndex tm → flatView tm' = flatView tm →
  valid_cursor tm → valid_cursor tm'.
Proof. unfold valid_cursor. by intros -> ->. Qed.

Lemma valid_frame (tm tm' : TaskManager) :
  frame tm tm' → currentIndex tm' = currentIndex tm →
  valid_cursor tm → valid_cursor tm'.
Proof. intros [] Hci. by apply valid_ext. Qed.

Lemma valid_adjust (w : World) (tm : TaskManager) :
  valid_cursor tm → valid_cursor (adjustScroll w tm).
Proof.
  apply valid_ext; [apply adjustScroll_currentIndex|].
  apply (frame_flatView _ _ (adjustScroll_frame w tm)).
Qed.

Lemma valid_nonempty (tm : TaskManager) :
  valid_cursor tm → flatView tm ≠ [] →
  (0 ≤ currentIndex tm < len (flatView tm))%Z.
Proof. by intros [?|[? _]]. Qed.

Lemma len_nonempty {A} (l : list A) : l ≠ [] → (0 < len l)%Z.
Proof. unfold len. destruct l; [done|simpl; lia]. Qed.

Lemma len_empty {A} (l : list A) : (len l ≤ 0)%Z → l = [].
Proof. unfold len. destruct l; [done|simpl; lia]. Qed.

Lemma hasCurrent_valid (tm : TaskManager) :
  core tm → valid_cursor tm → hasCurrent tm = true →
  ∃ p t, current tm = Some (p, t).
Proof.
  intros Hc Hv Hhas. apply current_total; [done|].
  unfold hasCurrent in Hhas.
  apply andb_true_iff in Hhas as [Hlen%Z.ltb_lt _].
  apply valid_nonempty; [done|]. intros Hnil. rewrite Hnil in Hlen. done.
Qed.

Section Cursor.

Context (w : World) (tm : TaskManager).
Hypothesis Hcore : core tm.
Hypothesis Hvalid : valid_cursor tm.

Lemma reload_status_cursor (d : DB) (msg : string) :
  ∃ tm', reload w (set_statusMsg msg (set_db d tm)) = Some tm'
         ∧ valid_cursor tm'.
Proof.
  destruct (reload_spec w (set_statusMsg msg (set_db d tm)))
    as (tm' & Hre & _ & Hv & _).
  { by apply (core_ext tm). }
  by exists tm'.
Qed.

Ltac op_cursor :=
  match goal with
  | |- Some (_, _) = Some (_, _) → _ =>
      intros [= <- <-]; by apply (valid_ext tm)
  | |- context [reload w (set_statusMsg ?msg (set_db ?d tm))] =>
      destruct (reload_status_cursor d msg) as (tm2 & -> & ?);
      simpl; by intros [= <- <-]
  end.

Lemma addTask_cursor (ttl : string) (prio : Z) (parentID : option Z)
    (tm' : TaskManager) (e : option string) :
  addTask w ttl prio parentID tm = Some (tm', e) → valid_cursor tm'.
Proof.
  unfold addTask. destruct (Sql.Exec_insert _ _ _ _ _) as [d [err|i]];
    op_cursor.
Qed.

Lemma deleteTask_cursor (taskID : Z) (tm' : TaskManager)
    (e : option string) :
  deleteTask w taskID tm = Some (tm', e) → valid_cursor tm'.
Proof.
  unfold deleteTask. destruct (Sql.Exec_delete _ _) as [d [err|]]; op_cursor.
Qed.

Lemma updateTask_cursor (taskID : Z) (ttl : string) (prio : Z)
    (tm' : TaskManager) (e : option string) :
  updateTask w taskID ttl prio tm = Some (tm', e) → valid_cursor tm'.
Proof.
  unfold updateTask. destruct (Sql.Exec_update _ _ _ _) as [d [err|]];
    op_cursor.
Qed.

Lemma updateTaskPriority_cursor (taskID priorityChange : Z)
    (tm' : TaskManager) (e : option string) :
  updateTaskPriority w taskID priorityChange tm = Some (tm', e) →
  valid_cursor tm'.
Proof.
  unfold updateTaskPriority.
  destruct (Sql.QueryRow_priority _ _) as [d [err|cur]]; [op_cursor|].
  destruct (Sql.Exec_set_priority _ _ _) as [d' [err|]]; op_cursor.
Qed.

Lemma toggle_cursor (tm' : TaskManager) :
  toggle w tm = Some tm' → valid_cursor tm'.
Proof.
  unfold toggle. destruct (hasCurrent tm); [|by intros [= <-]].
  destruct (current tm) as [[p t]|]; simpl; [|done].
  destruct (0 <? len (Children t))%Z; [|by intros [= <-]].
  apply rebuildFlatView_valid_cursor.
Qed.

Lemma toggle_total : ∃ tm', toggle w tm = Some tm'.
Proof.
  unfold toggle. destruct (hasCurrent tm) eqn:Hhas; [|by eexists].
  destruct (hasCurrent_valid tm Hcore Hvalid Hhas) as (p & t & Hcur).
  rewrite Hcur. simpl.
  destruct (0 <? len (Children t))%Z; [|by eexists].
  apply current_Some in Hcur as (_ & _ & Hp). destruct Hcore as [Hwf Hs _].
  destruct (rebuildFlatView_spec w
              (set_heap (<[p:=set_IsExpanded (negb (IsExpanded t)) t]>
                           (heap tm)) tm)) as (tm' & fv & -> & _).
  { by apply toggle_wf. } { by apply toggle_sorted. }
  by eexists.
Qed.

Lemma halfPage_nonneg : (4 ≤ height w → 0 ≤ (height w - 4) ÷ 2)%Z.
Proof. intros H. apply Z.quot_pos; lia. Qed.

Lemma scrollHalfPageDown_cursor :
  (4 ≤ height w)%Z → flatView tm ≠ [] →
  valid_cursor (scrollHalfPageDown w tm).
Proof.
  intros Hh%halfPage_nonneg Hne. pose proof (valid_nonempty _ Hvalid Hne).
  unfold scrollHalfPageDown. apply valid_adjust. left. simpl.
  destruct (Z.leb_spec (len (flatView tm))
              (currentIndex tm + (height w - 4) ÷ 2)); simpl; lia.
Qed.

Lemma scrollHalfPageUp_cursor :
  (4 ≤ height w)%Z → valid_cursor (scrollHalfPageUp w tm).
Proof.
  intros Hh%halfPage_nonneg. unfold scrollHalfPageUp. apply valid_adjust.
  unfold valid_cursor. simpl.
  destruct (Z.ltb_spec (currentIndex tm - (height w - 4) ÷ 2) 0); simpl;
    destruct Hvalid as [?|[? ?]]; try (left; lia); right; split; try done; lia.
Qed.

Lemma normalKey_cursor (key : Key) (tm' : TaskManager) :
  (4 ≤ height w)%Z → (flatView tm = [] → key ≠ KeyCtrlD) →
  normalKey w key tm = Some tm' → valid_cursor tm'.
Proof.
  intros Hh Hne. destruct key; simpl; try (by intros [= <-]).
  - intros [= <-]. apply scrollHalfPageDown_cursor; [done|].
    intros Hnil. by apply Hne.
  - intros [= <-]. by apply scrollHalfPageUp_cursor.
  - apply toggle_cursor.
Qed.

Lemma normalKey_total (key : Key) : ∃ tm', normalKey w key tm = Some tm'.
Proof. destruct key; simpl; try (by eexists). apply toggle_total. Qed.

Lemma normalCh_cursor (ch : Z) (tm' : TaskManager) (q : bool) :
  (flatView tm = [] → (ch =? rune "G")%Z = false) →
  normalCh w ch tm = Some (tm', q) → valid_cursor tm'.
Proof.
  intros HG. unfold normalCh.
  destruct (ch =? rune "q")%Z; [by intros [= <- <-]|].
  intros (tm1 & H1 & [= <- <-])%bind_Some.
  repeat match type of H1 with
         | (if (ch =? ?c)%Z then _ else _) = _ =>
             destruct (ch =? c)%Z eqn:?
         end.
  - destruct (Z.ltb_spec (currentIndex tm) (len (flatView tm) - 1));
      injection H1 as <-; [|done].
    apply valid_adjust. left. simpl.
    destruct Hvalid as [?|[Hnil ?]]; [lia|]. rewrite Hnil in *.
    unfold len in *. simpl in *. lia.
  - destruct (Z.ltb_spec 0 (currentIndex tm)); injection H1 as <-; [|done].
    apply valid_adjust. left. simpl.
    destruct Hvalid as [?|[Hnil ?]]; lia.
  - destruct (hasCurrent tm); [|by injection H1 as <-].
    destruct (current tm) as [[p t]|]; simpl in H1; [|done].
    destruct (updateTaskPriority w (ID t) (-1) tm) as [[tm2 e]|] eqn:Hop;
      [|done].
    injection H1 as <-. by eapply updateTaskPriority_cursor.
  - destruct (hasCurrent tm); [|by injection H1 as <-].
    destruct (current tm) as [[p t]|]; simpl in H1; [|done].
    destruct (updateTaskPriority w (ID t) 1 tm) as [[tm2 e]|] eqn:Hop;
      [|done].
    injection H1 as <-. by eapply updateTaskPriority_cursor.
  - injection H1 as <-. apply valid_adjust. unfold valid_cursor. simpl.
    destruct (flatView tm) eqn:Hfv; [by right|left].
    unfold len. simpl. lia.
  - injection H1 as <-. apply valid_adjust. left. simpl.
    assert (flatView tm ≠ []) as Hne%len_nonempty; [|lia].
    intros Hnil. specialize (HG Hnil). congruence.
  - injection H1 as <-. by apply (valid_ext tm).
  - destruct (hasCurrent tm); injection H1 as <-; [|done].
    by apply (valid_ext tm).
  - destruct (hasCurrent tm); [|by injection H1 as <-].
    destruct (current tm) as [[p t]|]; simpl in H1; [|done].
    destruct (deleteTask w (ID t) tm) as [[tm2 e]|] eqn:Hop; [|done].
    injection H1 as <-. by eapply deleteTask_cursor.
  - destruct (hasCurrent tm); [|by injection H1 as <-].
    destruct (current tm) as [[p t]|]; simpl in H1; [|done].
    injection H1 as <-. by apply (valid_ext tm).
  - by injection H1 as <-.
Qed.

Lemma normalCh_total (ch : Z) : ∃ tm' q, normalCh w ch tm = Some (tm', q).
Proof.
  unfold normalCh. destruct (ch =? rune "q")%Z; [by eexists _, _|].
  assert (∀ o : option TaskManager, is_Some o →
            ∃ tm' q, (tm1 ← o; Some (tm1, false)) = Some (tm', q)) as Hgo.
  { intros o [tm1 ->]. by eexists _, _. }
  apply Hgo.
  assert (∀ k : Task → option TaskManager,
            (∀ t, is_Some (k t)) →
            is_Some (if hasCurrent tm
                     then '(_, t) ← current tm; k t else Some tm)) as Hsel.
  { intros k Hk. destruct (hasCurrent tm) eqn:Hhas; [|done].
    destruct (hasCurrent_valid tm Hcore Hvalid Hhas) as (p & t & ->).
    apply Hk. }
  repeat match goal with
         | |- is_Some (if (ch =? ?c)%Z then _ else _) =>
             destruct (ch =? c)%Z
         end; try (repeat case_match; done).
  - apply (Hsel (λ t, fst <$> updateTaskPriority w (ID t) (-1) tm)).
    intros t.
    destruct (updateTaskPriority_spec w tm Hcore (ID t) (-1))
      as (tm2 & e & -> & _). done.
  - apply (Hsel (λ t, fst <$> updateTaskPriority w (ID t) 1 tm)).
    intros t.
    destruct (updateTaskPriority_spec w tm Hcore (ID t) 1)
      as (tm2 & e & -> & _). done.
  - apply (Hsel (λ t, fst <$> deleteTask w (ID t) tm)). intros t.
    destruct (deleteTask_spec w tm Hcore (ID t)) as (tm2 & e & -> & _).
    done.
  - apply (Hsel (λ t, Some (set_editBuffer
                              (Title t +:+ ":" +:+ itoa (Priority t))
                              (set_editMode true tm)))). done.
Qed.

End Cursor.

Lemma handleInputMode_cursor (w : World) (key : Key) (ch : Z)
    (tm tm' : TaskManager) (q : bool) :
  core tm → valid_cursor tm →
  handleInputMode w key ch tm = Some (tm', q) → valid_cursor tm'.
Proof.
  intros Hc Hv. unfold handleInputMode, typeInput.
  destruct key;
    try (repeat case_match; intros [= <- <-]; first [done|by apply (valid_ext tm)]).
  intros H. destruct (inputStep tm =? 0)%Z.
  { destruct (String.eqb _ _); injection H as <- <-; by apply (valid_ext tm). }
  cbv zeta in H. apply bind_Some in H as (parentID & _ & H).
  apply bind_Some in H as ([tm2 e] & Hop & H).
  apply (addTask_cursor w tm Hc Hv) in Hop.
  destruct e; injection H as <- <-; by apply (valid_ext tm2).
Qed.

Lemma handleInputMode_total (w : World) (key : Key) (ch : Z)
    (tm : TaskManager) :
  core tm → valid_cursor tm →
  ∃ tm' q, handleInputMode w key ch tm = Some (tm', q).
Proof.
  intros Hc Hv. unfold handleInputMode, typeInput.
  destruct key; try (repeat case_match; by eexists _, _).
  destruct (inputStep tm =? 0)%Z.
  { destruct (String.eqb _ _); by eexists _, _. }
  cbv zeta.
  assert (∃ parentID,
    (if String.eqb (inputMode tm) "addsubtask" && hasCurrent tm
     then '(_, currentTask) ← current tm; Some (Some (ID currentTask))
     else Some None) = Some parentID) as [parentID ->].
  { destruct (String.eqb _ _ && hasCurrent tm) eqn:Hsel; [|by eexists].
    apply andb_true_iff in Hsel as [_ Hhas].
    destruct (hasCurrent_valid tm Hc Hv Hhas) as (p & t & ->). by eexists. }
  simpl.
  match goal with
  | |- context [addTask w ?a ?b ?c tm] =>
      destruct (addTask_spec w tm Hc a b c) as (tm2 & e & -> & _)
  end.
  simpl. by eexists _, _.
Qed.

Lemma handleEditMode_cursor (w : World) (key : Key) (ch : Z)
    (tm tm' : TaskManager) (q : bool) :
  core tm → valid_cursor tm →
  handleEditMode w key ch tm = Some (tm', q) → valid_cursor tm'.
Proof.
  intros Hc Hv. unfold handleEditMode.
  destruct key;
    try (repeat case_match; intros [= <- <-]; first [done|by apply (valid_ext tm)]).
  intros (tm1 & H1 & [= <- <-])%bind_Some.
  apply (valid_ext tm1); [done..|].
  destruct (hasCurrent tm); [|by injection H1 as <-].
  destruct (current tm) as [[p task]|]; simpl in H1; [|done].
  destruct (SplitN2 _ _) as [|part0 [|part1 [|]]]; try by injection H1 as <-.
  apply fmap_Some in H1 as ([tm2 e] & Hop & ->).
  by apply (updateTask_cursor w tm Hc Hv) in Hop.
Qed.

Lemma handleEditMode_total (w : World) (key : Key) (ch : Z)
    (tm : TaskManager) :
  core tm → valid_cursor tm →
  ∃ tm' q, handleEditMode w key ch tm = Some (tm', q).
Proof.
  intros Hc Hv. unfold handleEditMode.
  destruct key; try (repeat case_match; by eexists _, _).
  assert (∃ tm1,
    (if hasCurrent tm then
       '(_, task) ← current tm;
       match SplitN2 (editBuffer tm) ":" with
       | [part0; part1] =>
           fst <$> updateTask w (ID task) (TrimSpace part0)
                     (clamp match Atoi (TrimSpace part1) with
                            | Some p => p
                            | None => Priority task
                            end) tm
       | _ => Some tm
       end
     else Some tm) = Some tm1) as [tm1 ->]; [|by eexists _, _].
  destruct (hasCurrent tm) eqn:Hhas; [|by eexists].
  destruct (hasCurrent_valid tm Hc Hv Hhas) as (p & t & ->). simpl.
  destruct (SplitN2 _ _) as [|part0 [|part1 [|]]]; try by eexists.
  match goal with
  | |- context [updateTask w ?a ?b ?c tm] =>
      destruct (updateTask_spec w tm Hc a b c) as (tm2 & e & -> & _)
  end.
  by eexists.
Qed.

(** X8.  The cursor stays valid.  From a reachable state with a valid
    cursor, on a terminal of at least four rows, an event that carries a
    key or a character leaves a valid cursor again, in every mode, unless
    it is [G] or Ctrl-D in normal mode on an empty view. *)
Theorem X8_cursor_stays_valid (w : World) (ev : Event)
    (tm tm' : TaskManager) (q : bool) :
  reachable tm →
  valid_cursor tm →
  plain ev →
  (4 ≤ height w)%Z →
  (flatView tm = [] → normalMode tm → jumps_down ev = false) →
  handleInput w ev tm = Some (tm', q) →
  valid_cursor tm'.
Proof.
  intros [Hc _]%reachable_inv Hv Hplain Hh Hjump.
  destruct ev as [key ch|]; [|by intros [= <- <-]]. simpl.
  destruct (editMode tm) eqn:He; [by apply handleEditMode_cursor|].
  destruct (String.eqb_spec (inputMode tm) "") as [Hm|Hm]; simpl;
    [|by apply handleInputMode_cursor].
  assert (core (set_statusMsg "" tm)) as Hc0 by by apply (core_ext tm).
  assert (valid_cursor (set_statusMsg "" tm)) as Hv0 by by apply (valid_ext tm).
  assert (flatView tm = [] → jumps_down (EventKey key ch) = false) as Hj.
  { intros Hnil. by apply Hjump. }
  unfold handleNormalMode.
  destruct Hplain as [->| ->].
  - simpl. apply normalCh_cursor; [done..|]. intros Hnil. by apply Hj.
  - assert (∀ tm1, normalKey w key (set_statusMsg "" tm) = Some tm1 →
                   valid_cursor tm1) as Hkey.
    { intros tm1. apply normalKey_cursor; [done..|].
      intros Hnil ->. by specialize (Hj Hnil). }
    destruct key;
      try (intros (tm1 & H1 & H2)%bind_Some; rewrite normalCh_zero in H2;
           injection H2 as <- <-; by apply Hkey).
    intros [= <- <-]. done.
Qed.

Lemma X8_cursor_stays_valid_witness :
  ∃ tm tm',
    st_chain = Some tm
    ∧ handleInput (world 24) (EventKey KeyCtrlD 0) tm = Some (tm', false)
    ∧ valid_cursor tm'.
Proof.
  eexists _, _. split; [vm_compute; reflexivity|].
  split; [vm_compute; reflexivity|].
  eapply (X8_cursor_stays_valid (world 24) (EventKey KeyCtrlD 0)).
  - assert (reached st_chain) as H by (unfold st_chain; reached).
    apply H. vm_compute. reflexivity.
  - left. vm_compute. split; [discriminate|reflexivity].
  - right. reflexivity.
  - vm_compute. discriminate.
  - vm_compute. discriminate.
  - vm_compute. reflexivity.
Defined.

(** X9.  No panic with a valid cursor.  From a reachable state with a
    valid cursor, the handler returns for every event that carries a key or
    a character: no index is out of range and every walk comes to an
    end. *)
Theorem X9_no_panic_with_valid_cursor (w : World) (ev : Event)
    (tm : TaskManager) :
  reachable tm →
  valid_cursor tm →
  plain ev →
  ∃ tm' q, handleInput w ev tm = Some (tm', q).
Proof.
  intros [Hc _]%reachable_inv Hv Hplain.
  destruct ev as [key ch|]; [|by eexists _, _]. simpl.
  destruct (editMode tm) eqn:He; [by apply handleEditMode_total|].
  destruct (String.eqb_spec (inputMode tm) "") as [Hm|Hm]; simpl;
    [|by apply handleInputMode_total].
  assert (core (set_statusMsg "" tm)) as Hc0 by by apply (core_ext tm).
  assert (valid_cursor (set_statusMsg "" tm)) as Hv0 by by apply (valid_ext tm).
  unfold handleNormalMode. destruct Hplain as [->| ->].
  - simpl. by apply normalCh_total.
  - destruct (normalKey_total w _ Hc0 Hv0 key) as [tm1 H1].
    destruct key; try (by eexists _, _);
      rewrite H1; simpl; rewrite normalCh_zero; by eexists _, _.
Qed.

Lemma X9_no_panic_with_valid_cursor_witness :
  ∃ tm,
    st_hidden = Some tm
    ∧ ∃ tm' q,
        handleInput (world 24) (EventKey KeySpace 0) tm = Some (tm', q).
Proof.
  eexists. split; [vm_compute; reflexivity|].
  apply X9_no_panic_with_valid_cursor.
  - assert (reached st_hidden) as H by (unfold st_hidden, st_chain; reached).
    apply H. vm_compute. reflexivity.
  - left. vm_compute. split; [discriminate|reflexivity].
  - right. reflexivity.
Defined.
(** * Creating and editing: what the confirm writes *)

(** Confirm at the priority step, the store accepting the statement: a row
    is added with the priority that [handleInputMode] works out and, for a
    subtask, the selected task as parent. *)
Lemma create_confirm (w : World) (ch : Z) (tm : TaskManager) :
  reachable tm → editMode tm = false → inputMode tm ≠ "" →
  inputStep tm ≠ 0%Z →
  (inputMode tm = "addsubtask" → (0 ≤ currentIndex tm)%Z) →
  faults (db tm) = [] →
  ∃ tm',
    handleInput w (EventKey KeyEnter ch) tm = Some (tm', false)
    ∧ table (db tm')
      = table (db tm)
        ++ [mkRow (next_id (db tm)) (inputTitle tm)
              (match Atoi (inputPriority tm) with
               | Some p => if (1 <=? p)%Z && (p <=? 100)%Z then p else 50%Z
               | None => 50%Z
               end) (now w)
              (if String.eqb (inputMode tm) "addsubtask"
               then (λ pt, ID pt.2) <$> current tm else None)]
    ∧ normalMode tm'
    ∧ inputStep tm' = 0%Z ∧ inputTitle tm' = "" ∧ inputPriority tm' = ""
    ∧ statusMsg tm'
      = "Added task: " +:+ inputTitle tm +:+ " (ID: "
        +:+ itoa (next_id (db tm)) +:+ ")"
    ∧ valid_cursor tm'.
Proof.
  intros [Hc _]%reachable_inv He Hm Hstep Hci Hf.
  rewrite handleInput_input by done. unfold handleInputMode.
  apply Z.eqb_neq in Hstep as ->. cbv zeta.
  set (prio := if String.eqb (inputPriority tm) "" then _ else _).
  assert (prio = match Atoi (inputPriority tm) with
                 | Some p => if (1 <=? p)%Z && (p <=? 100)%Z then p else 50%Z
                 | None => 50%Z
                 end) as Hprio.
  { unfold prio. by destruct (String.eqb_spec (inputPriority tm) "") as [->|]. }
  rewrite <-Hprio. clearbody prio.
  set (parent := if String.eqb (inputMode tm) "addsubtask"
                 then (λ pt, ID pt.2) <$> current tm else None).
  assert ((if String.eqb (inputMode tm) "addsubtask" && hasCurrent tm
           then '(_, currentTask) ← current tm; Some (Some (ID currentTask))
           else Some None) = Some parent) as ->.
  { unfold parent.
    destruct (String.eqb_spec (inputMode tm) "addsubtask") as [Hsub|];
      simpl; [|done].
    destruct (hasCurrent tm) eqn:Hcur.
    - unfold hasCurrent in Hcur.
      apply andb_true_iff in Hcur as [_ Hlt%Z.ltb_lt].
      destruct (current_total tm Hc) as (p & t & ->); [|done].
      specialize (Hci Hsub). lia.
    - unfold hasCurrent in Hcur. unfold current, index.
      destruct (Z.ltb_spec (currentIndex tm) 0); [done|].
      rewrite lookup_ge_None_2; [done|].
      apply andb_false_iff in Hcur as [H0%Z.ltb_ge|H0%Z.ltb_ge];
        unfold len in H0; lia. }
  simpl. unfold addTask, Sql.Exec_insert, Sql.call. rewrite Hf. simpl.
  fold (next_id (db tm)).
  set (tm1 := set_statusMsg _ _).
  destruct (reload_ok w tm1) as (tm' & -> & _ & Hv & Hr & Hdb & _).
  { by unfold tm1. }
  simpl. exists (leaveInput tm').
  destruct (rebuilt_modes _ _ Hr) as (Hed & _).
  split_and!; [done| |split; [by rewrite <-He|done]|done..| |].
  - simpl. by rewrite Hdb.
  - simpl. by rewrite (rebuilt_statusMsg _ _ Hr).
  - by apply (valid_ext tm').
Qed.

(** X10.  Away from a cursor above the first row, priority input that does
    not parse raises no error.  In creation mode at the priority step, for a
    root task and for a subtask whose cursor is not negative, confirm on a
    priority buffer that is no integer (the empty buffer is none) or an
    integer outside [1,100] adds the task with priority 50 and returns to
    normal mode.  In edit mode, confirm on a buffer whose part after the
    first colon is, once trimmed, no integer runs the update with the
    priority of the selected task, clamped to [1,100].  Both for a store
    that accepts the statement. *)
Theorem X10_priority_falls_back (w : World) (ch : Z) (tm : TaskManager) :
  reachable tm →
  faults (db tm) = [] →
  (editMode tm = false → inputMode tm ≠ "" → inputStep tm ≠ 0%Z →
   (inputMode tm = "addsubtask" → (0 ≤ currentIndex tm)%Z) →
   (∀ p, Atoi (inputPriority tm) = Some p → (p < 1 ∨ 100 < p)%Z) →
   ∃ tm' i parent,
     handleInput w (EventKey KeyEnter ch) tm = Some (tm', false)
     ∧ table (db tm')
       = table (db tm) ++ [mkRow i (inputTitle tm) 50 (now w) parent]
     ∧ inputMode tm' = ""
     ∧ statusMsg tm'
       = "Added task: " +:+ inputTitle tm +:+ " (ID: " +:+ itoa i +:+ ")")
  ∧ (editMode tm = true →
     ∀ a b, cut ":" (editBuffer tm) = Some (a, b) →
     Atoi (TrimSpace b) = None →
     ∃ tm' p task,
       current tm = Some (p, task)
       ∧ handleInput w (EventKey KeyEnter ch) tm = Some (tm', false)
       ∧ table (db tm')
         = (λ r, if Sql.has_id (ID task) r
                 then mkRow (row_id r) (TrimSpace a) (clamp (Priority task))
                        (row_created_at r) (row_parent_id r)
                 else r) <$> table (db tm)).
Proof.
  intros Hreach Hf. split.
  - intros He Hm Hstep Hci Hbad.
    destruct (create_confirm w ch tm Hreach He Hm Hstep Hci Hf)
      as (tm' & Hstep' & Htab & [_ Hmode] & _ & _ & _ & Hmsg & _).
    eexists tm', _, _. split_and!; [done| |done..].
    rewrite Htab. do 2 f_equal.
    destruct (Atoi (inputPriority tm)) as [p|]; [|done].
    destruct (Hbad p eq_refl).
    + destruct (Z.leb_spec 1 p); [lia|done].
    + destruct (Z.leb_spec p 100); [lia|]. by rewrite andb_false_r.
  - intros He a b Hcut Hbad.
    destruct (edit_confirm w ch tm a b Hreach He Hf Hcut)
      as (tm' & p & task & Hcur & Hstep & _ & Htab & _).
    exists tm', p, task. split_and!; [done..|].
    by rewrite Htab, Hbad.
Qed.

Lemma X10_priority_falls_back_witness :
  (∃ tm,
     st_create = Some tm
     ∧ inputPriority tm = "0"
     ∧ ∃ tm' i parent,
         handleInput (world 24) (EventKey KeyEnter 0) tm = Some (tm', false)
         ∧ table (db tm')
           = table (db tm)
             ++ [mkRow i (inputTitle tm) 50 (now (world 24)) parent]
         ∧ inputMode tm' = ""
         ∧ statusMsg tm'
           = "Added task: " +:+ inputTitle tm +:+ " (ID: " +:+ itoa i
             +:+ ")")
  ∧ (∃ tm,
       st_edit_bad_priority = Some tm
       ∧ editBuffer tm = "A:x"
       ∧ ∃ tm' p task,
           current tm = Some (p, task)
           ∧ handleInput (world 24) (EventKey KeyEnter 0) tm
             = Some (tm', false)
           ∧ table (db tm')
             = (λ r, if Sql.has_id (ID task) r
                     then mkRow (row_id r) (TrimSpace "A")
                            (clamp (Priority task))
                            (row_created_at r) (row_parent_id r)
                     else r) <$> table (db tm)).
Proof.
  split.
  - eexists. split; [vm_compute; reflexivity|]. split; [reflexivity|].
    eapply (proj1 (X10_priority_falls_back (world 24) 0 _ _ _)).
    + reflexivity.
    + discriminate.
    + discriminate.
    + intros _. discriminate.
    + intros p [= <-]. left. reflexivity.
  - eexists. split; [vm_compute; reflexivity|]. split; [reflexivity|].
    eapply (proj2 (X10_priority_falls_back (world 24) 0 _ _ _)).
    + reflexivity.
    + reflexivity.
    + reflexivity.
Unshelve.
  all: try reflexivity.
  all: match goal with
       | |- reachable _ =>
           first [ assert (reached st_create) as H
                     by (unfold st_create, st_chain; reached);
                   apply H; vm_compute; reflexivity
                 | assert (reached st_edit_bad_priority) as H
                     by (unfold st_edit_bad_priority, st_chain; reached);
                   apply H; vm_compute; reflexivity ]
       end.
Defined.
(** * Editing and creating: the flows over several keys *)

(** ** Strings *)

Lemma append_cons (x : ascii) (a b : string) :
  String x a +:+ b = String x (a +:+ b).
Proof. reflexivity. Qed.

Lemma append_assoc (a b c : string) : (a +:+ b) +:+ c = a +:+ (b +:+ c).
Proof.
  induction a as [|x a IH]; [done|]. by rewrite !append_cons, IH.
Qed.

Lemma append_nil_r (a : string) : a +:+ "" = a.
Proof. induction a as [|x a IH]; [done|]. by rewrite append_cons, IH. Qed.

Lemma cut_app (sep : ascii) (a b : string) :
  contains sep a = false → cut sep (a +:+ String sep b) = Some (a, b).
Proof.
  induction a as [|x a IH]; simpl.
  - intros _. by rewrite Ascii.eqb_refl.
  - intros [Hx Ha]%orb_false_iff. by rewrite Hx, (IH Ha).
Qed.

Lemma contains_app (sep : ascii) (a b : string) :
  contains sep (a +:+ b) = contains sep a || contains sep b.
Proof.
  induction a as [|x a IH]; simpl; [done|]. by rewrite IH, orb_assoc.
Qed.

Lemma digits_contains (s : string) (n : Z) :
  contains ":" s = true → digits s n = None.
Proof.
  revert n. induction s as [|x s IH]; simpl; intros n; [done|].
  destruct (Ascii.eqb_spec x ":") as [->|_]; simpl; [done|].
  intros Hs. destruct (is_digit x); [by apply IH|done].
Qed.

Lemma Atoi_contains (s : string) : contains ":" s = true → Atoi s = None.
Proof.
  destruct s as [|x s]; [done|]. intros Hs. unfold Atoi.
  set (neg := Ascii.eqb x "-"). cbv zeta.
  assert (contains ":" (if neg || Ascii.eqb x "+" then s else String x s)
          = true) as Hb.
  { destruct (neg || Ascii.eqb x "+") eqn:Hsign; [|done].
    simpl in Hs. apply orb_true_iff in Hs as [Hx|]; [|done].
    apply Ascii.eqb_eq in Hx as ->. done. }
  destruct (if neg || Ascii.eqb x "+" then s else String x s) as [|y r];
    [done|].
  by rewrite (digits_contains _ _ Hb).
Qed.

(** [TrimSpace] removes white space only. *)
Lemma contains_elem (c : ascii) (s : string) :
  contains c s = true ↔ c ∈ list_ascii_of_string s.
Proof.
  induction s as [|x s IH]; simpl.
  - split; [done|]. by intros ?%elem_of_nil.
  - rewrite orb_true_iff, IH, elem_of_cons.
    destruct (Ascii.eqb_spec x c) as [->|Hx]; [by split; left|].
    split; (intros [?|?]; [done|by right]).
Qed.

Lemma elem_of_rev {A} (x : A) (l : list A) : x ∈ rev l ↔ x ∈ l.
Proof.
  replace (rev l) with (reverse l) by (unfold reverse; by rewrite <-rev_alt).
  apply elem_of_reverse.
Qed.

Lemma strip_app (p l l' : list ascii) : strip p l = Some l' → l = p ++ l'.
Proof.
  revert l. induction p as [|a p IH]; intros [|b l]; simpl; try done.
  - by intros [= ->].
  - by intros [= ->].
  - destruct (Ascii.eqb_spec a b) as [->|]; [|done].
    by intros ->%IH.
Qed.

Lemma stripSpace_app (pats : list (list ascii)) (l l' : list ascii) :
  stripSpace pats l = Some l' → ∃ p, p ∈ pats ∧ l = p ++ l'.
Proof.
  induction pats as [|p pats IH]; simpl; [done|].
  destruct (strip p l) as [l1|] eqn:Hs.
  - intros [= <-]. exists p. split; [by left|by apply strip_app].
  - intros (q & ? & ?)%IH. exists q. split; [by right|done].
Qed.

Lemma trimLeft_keeps (c : ascii) (pats : list (list ascii)) (fuel : nat)
    (l : list ascii) :
  Forall (λ p, c ∉ p) pats → c ∈ l → c ∈ trimLeft fuel pats l.
Proof.
  intros Hp. revert l. induction fuel as [|fuel IH]; intros l Hc; [done|].
  simpl. destruct (stripSpace pats l) as [l'|] eqn:Hs; [|done].
  apply stripSpace_app in Hs as (p & Hin & ->). apply IH.
  apply elem_of_app in Hc as [Hc|]; [|done].
  by eapply Forall_forall in Hp.
Qed.

Lemma spaces_no_colon :
  Forall (λ p : list ascii, ":"%char ∉ p) (map (map ascii_of) spaces)
  ∧ Forall (λ p : list ascii, ":"%char ∉ p)
      (map (@rev ascii) (map (map ascii_of) spaces)).
Proof. split; apply (bool_decide_unpack _); vm_compute; exact I. Qed.

Lemma TrimSpace_contains (s : string) :
  contains ":" s = true → contains ":" (TrimSpace s) = true.
Proof.
  rewrite !contains_elem. unfold TrimSpace. cbv zeta.
  rewrite list_ascii_of_string_of_list_ascii. intros Hc.
  destruct spaces_no_colon as [Hfwd Hbwd].
  unfold trimBy. rewrite elem_of_rev.
  apply trimLeft_keeps; [done|]. rewrite elem_of_rev.
  by apply trimLeft_keeps.
Qed.

(** The priorities that the program writes print and parse back. *)
Lemma Atoi_itoa (p : Z) :
  (1 ≤ p ≤ 100)%Z → TrimSpace (itoa p) = itoa p ∧ Atoi (itoa p) = Some p.
Proof.
  intros Hp.
  assert (forallb (λ p, bool_decide (TrimSpace (itoa p) = itoa p)
                        && bool_decide (Atoi (itoa p) = Some p))
            (seqZ 1 100) = true) as Hall.
  { vm_compute. reflexivity. }
  rewrite forallb_forall in Hall. specialize (Hall p).
  rewrite andb_true_iff, !bool_decide_eq_true in Hall. apply Hall.
  apply list_elem_of_In, elem_of_seqZ. lia.
Qed.

(** ** Runs *)

Lemma run_cons (w : World) (ev : Event) (evs : list Event)
    (tm : TaskManager) :
  run w (ev :: evs) (Some tm)
  = run w evs (fst <$> handleInput w ev tm).
Proof. reflexivity. Qed.

Lemma run_None (w : World) (evs : list Event) : run w evs None = None.
Proof. induction evs as [|ev evs IH]; [done|]. exact IH. Qed.

Lemma run_app (w : World) (evs evs' : list Event)
    (o : option TaskManager) :
  run w (evs ++ evs') o = run w evs' (run w evs o).
Proof. unfold run. by rewrite foldl_app. Qed.

Lemma run_reachable (w : World) (evs : list Event) (tm tm' : TaskManager) :
  reachable tm → run w evs (Some tm) = Some tm' → reachable tm'.
Proof.
  revert tm. induction evs as [|ev evs IH]; intros tm Hr.
  - by intros [= <-].
  - rewrite run_cons.
    destruct (handleInput w ev tm) as [[tm1 q]|] eqn:Hstep; simpl.
    + apply IH. by eapply reach_step.
    + by rewrite run_None.
Qed.

Lemma normalCh_e (w : World) (tm : TaskManager) (p : Z) (t : Task) :
  current tm = Some (p, t) →
  normalCh w (rune "e") tm
  = Some (set_editBuffer (Title t +:+ ":" +:+ itoa (Priority t))
            (set_editMode true tm), false).
Proof.
  intros Hcur. unfold normalCh.
  rewrite (hasCurrent_current tm p t Hcur), Hcur. reflexivity.
Qed.

Lemma run_two (w : World) (ev1 ev2 : Event) (tm tm1 tm2 : TaskManager)
    (q1 q2 : bool) :
  handleInput w ev1 tm = Some (tm1, q1) →
  handleInput w ev2 tm1 = Some (tm2, q2) →
  run w [ev1; ev2] (Some tm) = Some tm2.
Proof. intros H1 H2. unfold run. simpl. rewrite H1. simpl. by rewrite H2. Qed.

(** [Enter] in edit mode on a buffer with a colon, the store accepting the
    statement *)
Lemma edit_confirm_status (w : World) (ch : Z) (tm : TaskManager)
    (p : Z) (task : Task) (a b : string) :
  editMode tm = true → inputMode tm = "" → faults (db tm) = [] →
  current tm = Some (p, task) →
  cut ":" (editBuffer tm) = Some (a, b) →
  ∃ tm',
    handleInput w (EventKey KeyEnter ch) tm = Some (tm', false)
    ∧ table (db tm')
      = updated (ID task) (TrimSpace a)
          (clamp (default (Priority task) (Atoi (TrimSpace b))))
          (table (db tm))
    ∧ normalMode tm'
    ∧ statusMsg tm' = "Updated task ID: " +:+ itoa (ID task)
    ∧ valid_cursor tm'.
Proof.
  intros He Hm Hf Hcur Hcut.
  rewrite handleInput_edit by done. unfold handleEditMode.
  rewrite (hasCurrent_current tm p task Hcur), Hcur. simpl.
  unfold SplitN2. rewrite Hcut.
  unfold updateTask. rewrite Exec_update_ok by done.
  set (prio := clamp _). set (d := Sql.with_table _ _ _).
  set (tm1 := set_statusMsg _ _).
  destruct (reload_ok w tm1) as (tm' & -> & _ & Hv & Hr & Hdb & _).
  { unfold tm1, d. simpl. done. }
  exists (leaveEdit tm'). simpl.
  destruct (rebuilt_modes _ _ Hr) as (_ & _ & Him & _).
  split_and!; [done| | | |].
  - rewrite Hdb. unfold tm1, d, prio, updated. simpl.
    by destruct (Atoi (TrimSpace b)).
  - split; [done|]. simpl. by rewrite Him.
  - by rewrite (rebuilt_statusMsg _ _ Hr).
  - by apply (valid_ext tm').
Qed.

(** [e], then [Enter] on the buffer as it was filled *)
Lemma edit_unchanged (w : World) (tm : TaskManager) (p : Z) (t : Task)
    (a b : string) :
  normalMode tm → faults (db tm) = [] →
  current tm = Some (p, t) →
  cut ":" (Title t +:+ ":" +:+ itoa (Priority t)) = Some (a, b) →
  ∃ tm',
    run w [char (rune "e"); confirm] (Some tm) = Some tm'
    ∧ table (db tm')
      = updated (ID t) (TrimSpace a)
          (clamp (default (Priority t) (Atoi (TrimSpace b))))
          (table (db tm))
    ∧ normalMode tm'
    ∧ statusMsg tm' = "Updated task ID: " +:+ itoa (ID t)
    ∧ valid_cursor tm'.
Proof.
  intros Hn Hf Hcur Hcut.
  pose proof (handleInput_char w (rune "e") tm Hn) as He.
  rewrite (normalCh_e w _ p t) in He by done.
  destruct Hn as [_ Hm].
  destruct (edit_confirm_status w 0
              (set_editBuffer (Title t +:+ ":" +:+ itoa (Priority t))
                 (set_editMode true (set_statusMsg "" tm))) p t a b)
    as (tm' & Hst & Htab & Hn' & Hmsg & Hv); [done..|].
  exists tm'. split; [|done]. by eapply run_two.
Qed.

Lemma updated_same (i : Z) (ttl : string) (prio : Z) (rows : list Row) :
  (∀ r, r ∈ rows → row_id r = i →
        row_title r = ttl ∧ row_priority r = prio) →
  updated i ttl prio rows = rows.
Proof.
  intros Hsame. unfold updated. rewrite <-(list_fmap_id rows) at 2.
  apply list_fmap_ext. intros k r Hr%list_elem_of_lookup_2.
  unfold Sql.has_id. case_bool_decide as Hi; [|done].
  destruct (Hsame r Hr Hi) as [<- <-]. by destruct r.
Qed.

(** X11.  [e] and then [Enter], nothing typed in between, on a task whose
    title holds no colon and no white space at its ends and whose priority
    is within [1,100]: the store accepting the statement, the row of the
    task is rewritten with the title and the priority that the task shows,
    so rows that agree with the task are left as they were; the program is
    back in normal mode with a valid cursor. *)
Theorem X11_edit_unchanged_keeps_row (w : World) (tm : TaskManager)
    (p : Z) (t : Task) :
  normalMode tm →
  faults (db tm) = [] →
  current tm = Some (p, t) →
  contains ":" (Title t) = false →
  TrimSpace (Title t) = Title t →
  (1 ≤ Priority t ≤ 100)%Z →
  ∃ tm',
    run w [char (rune "e"); confirm] (Some tm) = Some tm'
    ∧ table (db tm')
      = updated (ID t) (Title t) (Priority t) (table (db tm))
    ∧ ((∀ r, r ∈ table (db tm) → row_id r = ID t →
             row_title r = Title t ∧ row_priority r = Priority t) →
       table (db tm') = table (db tm))
    ∧ normalMode tm'
    ∧ statusMsg tm' = "Updated task ID: " +:+ itoa (ID t)
    ∧ valid_cursor tm'.
Proof.
  intros Hn Hf Hcur Hcolon Htrim Hprio.
  destruct (edit_unchanged w tm p t (Title t) (itoa (Priority t)))
    as (tm' & Hrun & Htab & Hn' & Hmsg & Hv); [done..| |].
  { by apply cut_app. }
  destruct (Atoi_itoa (Priority t) Hprio) as [Htp Hat].
  rewrite Htrim, Htp, Hat in Htab. simpl in Htab.
  rewrite clamp_id in Htab by done.
  exists tm'. split_and!; [done..| |done|done|done].
  intros Hsame. rewrite Htab. by apply updated_same.
Qed.

Lemma X11_edit_unchanged_keeps_row_witness :
  ∃ tm,
    st_chain = Some tm
    ∧ ∃ tm',
        run (world 24) [char (rune "e"); confirm] (Some tm) = Some tm'
        ∧ table (db tm') = updated 1 "A" 50 (table (db tm))
        ∧ ((∀ r, r ∈ table (db tm) → row_id r = 1%Z →
                 row_title r = "A" ∧ row_priority r = 50%Z) →
           table (db tm') = table (db tm))
        ∧ normalMode tm'
        ∧ statusMsg tm' = "Updated task ID: " +:+ itoa 1
        ∧ valid_cursor tm'.
Proof.
  eexists. split; [vm_compute; reflexivity|].
  apply (X11_edit_unchanged_keeps_row (world 24) _ 1
           (mkTask 1 "A" 50 10 None [2%Z] true)).
  - split; reflexivity.
  - reflexivity.
  - vm_compute. reflexivity.
  - reflexivity.
  - vm_compute. reflexivity.
  - simpl. lia.
Defined.

(** X12.  The edit buffer is cut at its first colon, and a title may hold
    one.  [e] and then [Enter], nothing typed in between, on a task titled
    [a ++ ":" ++ b] with no colon in [a]: the store accepting the statement,
    the row of the task gets the title [a], trimmed, and what follows the
    colon is read as the priority, which it is not; the priority of the task
    is written back, clamped to [1,100]. *)
Theorem X12_edit_cuts_title_at_colon (w : World) (tm : TaskManager)
    (p : Z) (t : Task) (a b : string) :
  normalMode tm →
  faults (db tm) = [] →
  current tm = Some (p, t) →
  Title t = a +:+ ":" +:+ b →
  contains ":" a = false →
  ∃ tm',
    run w [char (rune "e"); confirm] (Some tm) = Some tm'
    ∧ table (db tm')
      = updated (ID t) (TrimSpace a) (clamp (Priority t)) (table (db tm))
    ∧ normalMode tm'
    ∧ statusMsg tm' = "Updated task ID: " +:+ itoa (ID t)
    ∧ valid_cursor tm'.
Proof.
  intros Hn Hf Hcur Httl Hcolon.
  destruct (edit_unchanged w tm p t a (b +:+ ":" +:+ itoa (Priority t)))
    as (tm' & Hrun & Htab & Hn' & Hmsg & Hv); [done..| |].
  { rewrite Httl, append_assoc. by apply cut_app. }
  rewrite Atoi_contains in Htab; [by exists tm'|].
  apply TrimSpace_contains. rewrite contains_app. simpl.
  by rewrite orb_true_r.
Qed.

Lemma X12_edit_cuts_title_at_colon_witness :
  ∃ tm,
    st_colon = Some tm
    ∧ ∃ tm',
        run (world 24) [char (rune "e"); confirm] (Some tm) = Some tm'
        ∧ table (db tm')
          = updated 1 (TrimSpace "a") (clamp 50) (table (db tm))
        ∧ normalMode tm'
        ∧ statusMsg tm' = "Updated task ID: " +:+ itoa 1
        ∧ valid_cursor tm'.
Proof.
  eexists. split; [vm_compute; reflexivity|].
  apply (X12_edit_cuts_title_at_colon (world 24) _ 1
           (mkTask 1 "a:b" 50 10 None [] true) "a" "b").
  - split; reflexivity.
  - reflexivity.
  - vm_compute. reflexivity.
  - reflexivity.
  - reflexivity.
Defined.

Example edit_colon_title :
  (λ tm, table (db tm))
  <$> run (world 24) [char (rune "e"); confirm] st_colon
  = Some [mkRow 1 "a" 50 10 None].
Proof. vm_compute. reflexivity. Qed.

(** ** Typing *)

Lemma encodeRune_nonempty (c : Z) : encodeRune c ≠ "".
Proof. unfold encodeRune. by repeat case_match. Qed.

Lemma typed_nonempty (cs : list Z) : cs ≠ [] → typed cs ≠ "".
Proof.
  destruct cs as [|c cs]; [done|]. intros _. simpl.
  pose proof (encodeRune_nonempty c). by destruct (encodeRune c).
Qed.

Lemma typeInput_nil (tm : TaskManager) : typeInput "" tm = tm.
Proof.
  unfold typeInput. destruct (inputStep tm =? 0)%Z;
    rewrite append_nil_r; by destruct tm.
Qed.

Lemma typeInput_app (s1 s2 : string) (tm : TaskManager) :
  typeInput s2 (typeInput s1 tm) = typeInput (s1 +:+ s2) tm.
Proof.
  unfold typeInput. destruct (inputStep tm =? 0)%Z eqn:Hstep; simpl;
    rewrite Hstep, append_assoc; reflexivity.
Qed.

Lemma handleInput_type (w : World) (c : Z) (tm : TaskManager) :
  editMode tm = false → inputMode tm ≠ "" → c ≠ 0%Z →
  handleInput w (char c) tm = Some (typeInput (encodeRune c) tm, false).
Proof.
  intros He Hm Hc. unfold char. rewrite handleInput_input by done.
  unfold handleInputMode. by apply Z.eqb_neq in Hc as ->.
Qed.

(** The runes typed in creation mode go to the buffer of the current step. *)
Lemma run_type (w : World) (cs : list Z) (tm : TaskManager) :
  editMode tm = false → inputMode tm ≠ "" → Forall (λ c, c ≠ 0%Z) cs →
  run w (char <$> cs) (Some tm) = Some (typeInput (typed cs) tm).
Proof.
  intros He Hm Hcs. revert tm He Hm.
  induction Hcs as [|c cs Hc _ IH]; intros tm He Hm.
  - by rewrite typeInput_nil.
  - rewrite fmap_cons, run_cons, handleInput_type by done.
    change (fst <$> Some (typeInput (encodeRune c) tm, false))
      with (Some (typeInput (encodeRune c) tm)).
    rewrite IH.
    + by rewrite typeInput_app.
    + unfold typeInput. by destruct (inputStep tm =? 0)%Z.
    + unfold typeInput. by destruct (inputStep tm =? 0)%Z.
Qed.

(** The keys of a creation once the mode [m] is entered: the title, confirm,
    the priority, confirm *)
Lemma create_flow (w : World) (tm : TaskManager) (cs ds : list Z) :
  reachable tm → editMode tm = false → inputMode tm ≠ "" →
  inputStep tm = 0%Z → inputTitle tm = "" → inputPriority tm = "" →
  (inputMode tm = "addsubtask" → (0 ≤ currentIndex tm)%Z) →
  faults (db tm) = [] →
  cs ≠ [] → Forall (λ c, c ≠ 0%Z) cs → Forall (λ c, c ≠ 0%Z) ds →
  ∃ tm',
    run w ((char <$> cs) ++ confirm :: (char <$> ds) ++ [confirm]) (Some tm)
    = Some tm'
    ∧ table (db tm')
      = table (db tm)
        ++ [mkRow (next_id (db tm)) (typed cs)
              (match Atoi (typed ds) with
               | Some p => if (1 <=? p)%Z && (p <=? 100)%Z then p else 50%Z
               | None => 50%Z
               end) (now w)
              (if String.eqb (inputMode tm) "addsubtask"
               then (λ pt, ID pt.2) <$> current tm else None)]
    ∧ normalMode tm'
    ∧ statusMsg tm'
      = "Added task: " +:+ typed cs +:+ " (ID: "
        +:+ itoa (next_id (db tm)) +:+ ")"
    ∧ valid_cursor tm'.
Proof.
  intros Hr He Hm Hstep Httl Hprio Hci Hf Hne Hcs Hds.
  set (tm1 := set_inputTitle (typed cs) tm).
  set (tm2 := set_inputStep 1 tm1).
  set (tm3 := set_inputPriority (typed ds) tm2).
  assert (run w (char <$> cs) (Some tm) = Some tm1) as H1.
  { rewrite run_type by done. unfold typeInput. by rewrite Hstep, Httl. }
  assert (handleInput w confirm tm1 = Some (tm2, false)) as H2.
  { unfold confirm. rewrite handleInput_input by done.
    unfold handleInputMode. simpl. rewrite Hstep. simpl.
    pose proof (typed_nonempty cs Hne). by destruct (typed cs). }
  assert (run w (char <$> ds) (Some tm2) = Some tm3) as H3.
  { rewrite run_type by done. unfold typeInput. simpl. by rewrite Hprio. }
  assert (run w ((char <$> cs) ++ confirm :: (char <$> ds)) (Some tm)
          = Some tm3) as H4.
  { by rewrite run_app, H1, run_cons, H2. }
  destruct (create_confirm w 0 tm3) as (tm' & H5 & Htab & Hn & _ & _ & _
    & Hmsg & Hv); [by eapply run_reachable|done..|discriminate|done|done|].
  exists tm'. split_and!; [|done..].
  replace ((char <$> cs) ++ confirm :: (char <$> ds) ++ [confirm])
    with (((char <$> cs) ++ confirm :: (char <$> ds)) ++ [confirm])
    by (by rewrite <-app_assoc).
  rewrite run_app, H4, run_cons. unfold confirm. by rewrite H5.
Qed.

Lemma next_id_fresh (d : DB) : next_id d ∉ row_id <$> table d.
Proof.
  unfold next_id. generalize (Z.max 0 (seq d)). intros m.
  assert (∀ i, i ∈ row_id <$> table d →
               (i ≤ foldr Z.max m (row_id <$> table d))%Z) as Hle.
  { induction (row_id <$> table d) as [|j l IH]; intros i Hi.
    - by apply elem_of_nil in Hi.
    - simpl. apply elem_of_cons in Hi as [->|Hi]; [lia|].
      specialize (IH i Hi). lia. }
  intros Hin. specialize (Hle _ Hin). lia.
Qed.

Lemma normalCh_a (w : World) (tm : TaskManager) :
  normalCh w (rune "a") tm
  = Some (clearInput (set_inputMode "add" tm), false).
Proof. reflexivity. Qed.

Lemma normalCh_s (w : World) (tm : TaskManager) (p : Z) (t : Task) :
  current tm = Some (p, t) →
  normalCh w (rune "s") tm
  = Some (clearInput (set_inputMode "addsubtask" tm), false).
Proof.
  intros Hcur. unfold normalCh.
  rewrite (hasCurrent_current tm p t Hcur). reflexivity.
Qed.

(** X13.  Creating a root task: [a], the runes of a title that is not
    empty, [Enter], the runes of a priority, [Enter].  The store accepting
    the statement, one row is added at the end of the table: a fresh id, the
    title as typed, the priority typed when it is an integer within
    [1,100] and 50 otherwise, the time of the confirm, and no parent.  The
    program is back in normal mode with a valid cursor and reports the new
    id. *)
Theorem X13_create_root_task (w : World) (tm : TaskManager)
    (cs ds : list Z) :
  reachable tm →
  normalMode tm →
  faults (db tm) = [] →
  cs ≠ [] →
  Forall (λ c, c ≠ 0%Z) cs →
  Forall (λ c, c ≠ 0%Z) ds →
  ∃ tm',
    run w (char (rune "a")
           :: ((char <$> cs) ++ confirm :: (char <$> ds) ++ [confirm]))
      (Some tm) = Some tm'
    ∧ table (db tm')
      = table (db tm)
        ++ [mkRow (next_id (db tm)) (typed cs)
              (match Atoi (typed ds) with
               | Some p => if (1 <=? p)%Z && (p <=? 100)%Z then p else 50%Z
               | None => 50%Z
               end) (now w) None]
    ∧ (next_id (db tm) ∉ row_id <$> table (db tm))
    ∧ normalMode tm'
    ∧ statusMsg tm'
      = "Added task: " +:+ typed cs +:+ " (ID: "
        +:+ itoa (next_id (db tm)) +:+ ")"
    ∧ valid_cursor tm'.
Proof.
  intros Hr Hn Hf Hne Hcs Hds.
  pose proof (handleInput_char w (rune "a") tm Hn) as Ha.
  rewrite normalCh_a in Ha. destruct Hn as [He Hm].
  set (tm0 := clearInput _) in Ha.
  destruct (create_flow w tm0 cs ds) as (tm' & Hrun & Htab & Hn' & Hmsg & Hv);
    [by eapply reach_step|done..|discriminate|done|done|done|done|].
  exists tm'. split_and!; [|done|by apply next_id_fresh|done..].
  by rewrite run_cons, Ha.
Qed.

Lemma X13_create_root_task_witness :
  ∃ tm,
    st_chain = Some tm
    ∧ ∃ tm',
        run (world 24)
          (char (rune "a")
           :: ((char <$> [rune "T"]) ++ confirm
               :: (char <$> []) ++ [confirm]))
          (Some tm) = Some tm'
        ∧ table (db tm')
          = table (db tm)
            ++ [mkRow (next_id (db tm)) (typed [rune "T"])
                  (match Atoi (typed []) with
                   | Some p =>
                       if (1 <=? p)%Z && (p <=? 100)%Z then p else 50%Z
                   | None => 50%Z
                   end) (now (world 24)) None]
        ∧ (next_id (db tm) ∉ row_id <$> table (db tm))
        ∧ normalMode tm'
        ∧ statusMsg tm'
          = "Added task: " +:+ typed [rune "T"] +:+ " (ID: "
            +:+ itoa (next_id (db tm)) +:+ ")"
        ∧ valid_cursor tm'.
Proof.
  eexists. split; [vm_compute; reflexivity|].
  apply (X13_create_root_task (world 24) _ [rune "T"] []).
  - assert (reached st_chain) as H by (unfold st_chain; reached).
    apply H. vm_compute. reflexivity.
  - split; reflexivity.
  - reflexivity.
  - discriminate.
  - repeat constructor. discriminate.
  - constructor.
Defined.

Example create_root_T :
  (λ tm, table (db tm))
  <$> run (world 24) [char (rune "a"); char (rune "T"); confirm; confirm]
        st_chain
  = Some [row_A; row_B; row_C; mkRow 4 "T" 50 1000 None].
Proof. vm_compute. reflexivity. Qed.

(** X14.  Creating a subtask: [s] on a selected task, then the keys of a
    creation.  The store accepting the statement, the row added has the id
    of the task that was selected as its parent. *)
Theorem X14_create_subtask (w : World) (tm : TaskManager) (p : Z)
    (t : Task) (cs ds : list Z) :
  reachable tm →
  normalMode tm →
  faults (db tm) = [] →
  current tm = Some (p, t) →
  cs ≠ [] →
  Forall (λ c, c ≠ 0%Z) cs →
  Forall (λ c, c ≠ 0%Z) ds →
  ∃ tm',
    run w (char (rune "s")
           :: ((char <$> cs) ++ confirm :: (char <$> ds) ++ [confirm]))
      (Some tm) = Some tm'
    ∧ table (db tm')
      = table (db tm)
        ++ [mkRow (next_id (db tm)) (typed cs)
              (match Atoi (typed ds) with
               | Some p => if (1 <=? p)%Z && (p <=? 100)%Z then p else 50%Z
               | None => 50%Z
               end) (now w) (Some (ID t))]
    ∧ normalMode tm'
    ∧ valid_cursor tm'.
Proof.
  intros Hr Hn Hf Hcur Hne Hcs Hds.
  pose proof (handleInput_char w (rune "s") tm Hn) as Hs.
  rewrite (normalCh_s w _ p t) in Hs by done. destruct Hn as [He Hm].
  set (tm0 := clearInput _) in Hs.
  destruct (current_Some tm p t Hcur) as (Hci & _).
  destruct (create_flow w tm0 cs ds) as (tm' & Hrun & Htab & Hn' & Hmsg & Hv);
    [by eapply reach_step|done|done|done|done|done| |done|done|done|done|].
  { intros _. simpl. lia. }
  exists tm'. split_and!; [by rewrite run_cons, Hs| |done..].
  rewrite Htab. change (current tm0) with (current tm). by rewrite Hcur.
Qed.

Lemma X14_create_subtask_witness :
  ∃ tm,
    st_chain = Some tm
    ∧ ∃ tm',
        run (world 24)
          (char (rune "s")
           :: ((char <$> [rune "T"]) ++ confirm
               :: (char <$> [rune "7"]) ++ [confirm]))
          (Some tm) = Some tm'
        ∧ table (db tm')
          = table (db tm)
            ++ [mkRow (next_id (db tm)) (typed [rune "T"])
                  (match Atoi (typed [rune "7"]) with
                   | Some p =>
                       if (1 <=? p)%Z && (p <=? 100)%Z then p else 50%Z
                   | None => 50%Z
                   end) (now (world 24))
                  (Some (ID (mkTask 1 "A" 50 10 None [2%Z] true)))]
        ∧ normalMode tm'
        ∧ valid_cursor tm'.
Proof.
  eexists. split; [vm_compute; reflexivity|].
  apply (X14_create_subtask (world 24) _ 1
           (mkTask 1 "A" 50 10 None [2%Z] true) [rune "T"] [rune "7"]).
  - assert (reached st_chain) as H by (unfold st_chain; reached).
    apply H. vm_compute. reflexivity.
  - split; reflexivity.
  - reflexivity.
  - vm_compute. reflexivity.
  - discriminate.
  - repeat constructor. discriminate.
  - repeat constructor. discriminate.
Defined.

Example create_subtask_T7 :
  (λ tm, table (db tm))
  <$> run (world 24)
        [char (rune "s"); char (rune "T"); confirm; char (rune "7"); confirm]
        st_chain
  = Some [row_A; row_B; row_C; mkRow 4 "T" 7 1000 (Some 1%Z)].
Proof. vm_compute. reflexivity. Qed.

(** ** Backspace *)

Lemma dropLast_app (s1 s2 : string) :
  s2 ≠ "" → dropLast (s1 +:+ s2) = s1 +:+ dropLast s2.
Proof.
  intros Hne. induction s1 as [|x s1 IH]; [done|].
  rewrite !append_cons. simpl. rewrite IH.
  destruct (s1 +:+ s2) eqn:Happ; [|done].
  destruct s1; [|done]. by destruct s2.
Qed.

(** X15.  Backspace removes one byte, not one rune.  In creation mode at
    the title step and in edit mode, a rune below 128 typed and then erased
    leaves the state as it was; a rune of two bytes typed and then erased
    leaves its first byte at the end of the buffer.  Backspace on an empty
    buffer changes nothing. *)
Theorem X15_backspace_removes_one_byte (w : World) (tm : TaskManager)
    (c : Z) :
  let back := EventKey KeyBackspace 0 in
  let lead := String (ascii_of (Z.lor 192 (Z.shiftr c 6))) "" in
  (editMode tm = false → inputMode tm ≠ "" → inputStep tm = 0%Z →
   ((0 < c < 128)%Z → run w [char c; back] (Some tm) = Some tm)
   ∧ ((128 ≤ c < 2048)%Z →
      run w [char c; back] (Some tm)
      = Some (set_inputTitle (inputTitle tm +:+ lead) tm))
   ∧ (inputTitle tm = "" → handleInput w back tm = Some (tm, false)))
  ∧ (editMode tm = true →
     ((0 < c < 128)%Z → run w [char c; back] (Some tm) = Some tm)
     ∧ ((128 ≤ c < 2048)%Z →
        run w [char c; back] (Some tm)
        = Some (set_editBuffer (editBuffer tm +:+ lead) tm))
     ∧ (editBuffer tm = "" → handleInput w back tm = Some (tm, false))).
Proof.
  intros back lead.
  assert (∀ s, (0 < c < 128)%Z → dropLast (s +:+ encodeRune c) = s) as Hone.
  { intros s Hc. unfold encodeRune.
    destruct (Z.ltb_spec c 0); [lia|]. destruct (Z.ltb_spec c 128); [|lia].
    rewrite dropLast_app by done. apply append_nil_r. }
  assert (∀ s, (128 ≤ c < 2048)%Z
               → dropLast (s +:+ encodeRune c) = s +:+ lead) as Htwo.
  { intros s Hc. unfold encodeRune.
    destruct (Z.ltb_spec c 0); [lia|]. destruct (Z.ltb_spec c 128); [lia|].
    destruct (Z.ltb_spec c 2048); [|lia]. by rewrite dropLast_app. }
  split.
  - intros He Hm Hstep.
    assert (c ≠ 0%Z → run w [char c; back] (Some tm)
            = Some (set_inputTitle
                      (dropLast (inputTitle tm +:+ encodeRune c)) tm)) as Hrun.
    { intros Hc. eapply run_two; [by apply handleInput_type|].
      unfold back. rewrite handleInput_input.
      - unfold handleInputMode, typeInput. by rewrite Hstep; simpl; rewrite Hstep.
      - unfold typeInput. by rewrite Hstep.
      - unfold typeInput. by rewrite Hstep. }
    split_and!.
    + intros Hc. rewrite Hrun, Hone by lia. by destruct tm.
    + intros Hc. by rewrite Hrun, Htwo by lia.
    + intros Hempty. unfold back. rewrite handleInput_input by done.
      unfold handleInputMode. rewrite Hstep, Hempty. simpl.
      rewrite <-Hempty. by destruct tm.
  - intros He.
    assert (c ≠ 0%Z → run w [char c; back] (Some tm)
            = Some (set_editBuffer
                      (dropLast (editBuffer tm +:+ encodeRune c)) tm)) as Hrun.
    { intros Hc. eapply run_two.
      - unfold char. rewrite handleInput_edit by done. unfold handleEditMode.
        by apply Z.eqb_neq in Hc as ->.
      - unfold back. by rewrite handleInput_edit. }
    split_and!.
    + intros Hc. rewrite Hrun, Hone by lia. by destruct tm.
    + intros Hc. by rewrite Hrun, Htwo by lia.
    + intros Hempty. unfold back. rewrite handleInput_edit by done.
      unfold handleEditMode. rewrite Hempty. simpl.
      rewrite <-Hempty. by destruct tm.
Qed.

Lemma X15_backspace_removes_one_byte_witness :
  ∃ tm,
    st_title = Some tm
    ∧ run (world 24) [char 233; EventKey KeyBackspace 0] (Some tm)
      = Some (set_inputTitle
                (inputTitle tm
                 +:+ String (ascii_of (Z.lor 192 (Z.shiftr 233 6))) "") tm).
Proof.
  eexists. split; [vm_compute; reflexivity|].
  apply (X15_backspace_removes_one_byte (world 24) _ 233).
  - reflexivity.
  - discriminate.
  - reflexivity.
  - lia.
Defined.

Example backspace_after_e_acute :
  inputTitle
  <$> run (world 24) [char 233; EventKey KeyBackspace 0] st_title
  = Some (String (ascii_of 195) "").
Proof. vm_compute. reflexivity. Qed.

(** ** Start-up and reloads *)

Lemma scroll_at_origin (w : World) (tm : TaskManager) :
  currentIndex tm = 0%Z → scrollOffset tm = 0%Z →
  currentIndex (adjustScroll w (clampCursor tm)) = 0%Z
  ∧ scrollOffset (adjustScroll w (clampCursor tm)) = 0%Z.
Proof.
  intros Hci Hso. rewrite adjustScroll_currentIndex.
  assert (currentIndex (clampCursor tm) = 0%Z) as Hci'.
  { unfold clampCursor. rewrite Hci. unfold len.
    destruct (Z.leb_spec (Z.of_nat (length (flatView tm))) 0); simpl;
      [|by rewrite Hci].
    destruct (Z.ltb_spec (Z.of_nat (length (flatView tm)) - 1) 0); simpl;
      [done|lia]. }
  split; [done|].
  assert (scrollOffset (clampCursor tm) = 0%Z) as Hso'.
  { by rewrite clampCursor_eq. }
  unfold adjustScroll. cbv zeta.
  destruct (Z.leb_spec (height w - 4) 0); [done|].
  rewrite Hci', Hso'. simpl.
  destruct (Z.leb_spec (0 + (height w - 4)) 0); [lia|]. rewrite Hso'.
  destruct (Z.ltb_spec (len (flatView (clampCursor tm)) - (height w - 4)) 0);
    simpl.
  - destruct (Z.ltb_spec (len (flatView (clampCursor tm)) - (height w - 4)) 0);
      [done|lia].
  - by rewrite Hso'.
Qed.

Lemma Query_tasks_table (d : DB) :
  table (Sql.Query_tasks d).1 = table d
  ∧ faults (Sql.Query_tasks d).1 = tail (faults d).
Proof.
  unfold Sql.Query_tasks, Sql.call.
  by destruct (faults d) as [|[e|] rest] eqn:Hf.
Qed.

(** [loadTasks] touches the store handle, the objects and the roots. *)
Lemma loadTasks_frame (tm : TaskManager) :
  currentIndex (loadTasks tm).1 = currentIndex tm
  ∧ scrollOffset (loadTasks tm).1 = scrollOffset tm
  ∧ flatView (loadTasks tm).1 = flatView tm
  ∧ statusMsg (loadTasks tm).1 = statusMsg tm
  ∧ editMode (loadTasks tm).1 = editMode tm
  ∧ inputMode (loadTasks tm).1 = inputMode tm
  ∧ db (loadTasks tm).1 = (Sql.Query_tasks (db tm)).1.
Proof.
  by destruct (loadTasks_cases tm) as [[e ->]|(rows & _ & ->)].
Qed.

(** X16.  Start-up.  [NewTaskManager] ends the program exactly when
    [CREATE TABLE] fails.  Otherwise it returns a state in normal mode with
    no message, the cursor and the scroll offset at 0, and the rows of the
    file untouched; and when the first query fails, the error is dropped:
    the state shows no task, whatever the file holds. *)
Theorem X16_startup (w : World) (f : File) (io : list (option string)) :
  (NewTaskManager w f io = None ↔ ∃ e rest, io = Some e :: rest)
  ∧ ∀ tm,
      NewTaskManager w f io = Some tm →
      normalMode tm ∧ statusMsg tm = ""
      ∧ currentIndex tm = 0%Z ∧ scrollOffset tm = 0%Z
      ∧ table (db tm) = file_table f
      ∧ valid_cursor tm
      ∧ ((∃ e rest, io = None :: Some e :: rest) →
         flatView tm = [] ∧ heap tm = ∅ ∧ faults (db tm) = drop 2 io).
Proof.
  unfold NewTaskManager, initDB, Sql.Exec_create, Sql.Open, Sql.call. simpl.
  set (tm0 d := {| db := d; heap := ∅; tasks := []; currentIndex := 0;
                   scrollOffset := 0; flatView := []; editMode := false;
                   editBuffer := ""; statusMsg := ""; inputMode := "";
                   inputStep := 0; inputTitle := ""; inputPriority := "" |}).
  assert (∀ d tm, reload w (tm0 d) = Some tm →
            normalMode tm ∧ statusMsg tm = ""
            ∧ currentIndex tm = 0%Z ∧ scrollOffset tm = 0%Z
            ∧ table (db tm) = table d
            ∧ valid_cursor tm
            ∧ (∀ e rest, faults d = Some e :: rest →
               flatView tm = [] ∧ heap tm = ∅ ∧ faults (db tm) = rest))
    as Hload.
  { intros d tm Hre. unfold reload in Hre.
    pose proof (rebuildFlatView_valid_cursor _ _ _ Hre) as Hv.
    pose proof (rebuildFlatView_rebuilt _ _ _ Hre) as Hr.
    rewrite rebuildFlatView_eq in Hre.
    destruct (buildFlatView _ _ _ _) as [fv|] eqn:Hfv; [|done].
    simpl in Hre. injection Hre as <-.
    set (tm1 := set_flatView fv (loadTasks (tm0 d)).1) in *.
    destruct (loadTasks_frame (tm0 d))
      as (Hci & Hso & _ & Hmsg & He & Hm & Hdb).
    destruct (scroll_at_origin w tm1 Hci Hso) as [Hci' Hso'].
    destruct (Query_tasks_table d) as [Htab Hio].
    assert (db (adjustScroll w (clampCursor tm1)) = (Sql.Query_tasks d).1)
      as Hdb'.
    { by rewrite adjustScroll_eq, clampCursor_eq. }
    split_and!; [| |done|done| |done|].
    - split; by rewrite adjustScroll_eq, clampCursor_eq.
    - by rewrite adjustScroll_eq, clampCursor_eq.
    - by rewrite Hdb'.
    - intros e rest Hf. rewrite Hdb', Hio, Hf.
      rewrite adjustScroll_eq, clampCursor_eq. simpl.
      assert ((loadTasks (tm0 d)).1
              = set_db {| table := table d; seq := seq d; faults := rest |}
                  (tm0 d)) as Hl.
      { unfold loadTasks, Sql.Query_tasks, Sql.call.
        change (db (tm0 d)) with d. by rewrite Hf. }
      rewrite Hl in Hfv |- *. simpl in Hfv. unfold fuel_of in Hfv.
      rewrite buildFlatView_nil in Hfv. by injection Hfv as <-. }
  destruct io as [|[e|] rest]; simpl.
  - destruct (reload_spec w (tm0 (mkDB (file_table f) (file_seq f) [])))
      as (tm & Hre & _); [apply core_initial|].
    unfold tm0 in Hre. split.
    + split; [by rewrite Hre|]. by intros (? & ? & ?).
    + intros tm' Htm'.
      destruct (Hload (mkDB (file_table f) (file_seq f) []) _ Htm')
        as (? & ? & ? & ? & ? & ? & _).
      split_and!; [done..|]. by intros (? & ? & ?).
  - split; [|done]. split; [by eexists _, _|done].
  - destruct (reload_spec w (tm0 (mkDB (file_table f) (file_seq f) rest)))
      as (tm & Hre & _); [apply core_initial|].
    unfold tm0 in Hre. split.
    + split; [by rewrite Hre|]. by intros (? & ? & ?).
    + intros tm' Htm'.
      destruct (Hload (mkDB (file_table f) (file_seq f) rest) _ Htm')
        as (? & ? & ? & ? & ? & ? & Hfail).
      split_and!; [done..|]. intros (e & rest' & [= ->]).
      by apply (Hfail e).
Qed.

Lemma X16_startup_witness :
  ∃ tm,
    NewTaskManager (world 24) file_chain [None; Some "disk I/O error"]
    = Some tm
    ∧ table (db tm) = file_table file_chain
    ∧ flatView tm = [] ∧ heap tm = ∅.
Proof.
  eexists. split; [vm_compute; reflexivity|].
  edestruct (proj2 (X16_startup (world 24) file_chain
                      [None; Some "disk I/O error"]))
    as (_ & _ & _ & _ & Htab & _ & Hfail); [vm_compute; reflexivity|].
  split; [exact Htab|].
  destruct Hfail as (Hfv & Hh & _); [by eexists _, _|]. by split.
Defined.

(** X17.  [adjustScroll] settles in one call: a second call with the same
    terminal changes nothing, whatever the cursor and the offset were. *)
Theorem X17_adjustScroll_idempotent (w : World) (tm : TaskManager) :
  adjustScroll w (adjustScroll w tm) = adjustScroll w tm.
Proof.
  destruct tm as [d h r ci so fv em eb sm im ist it ip].
  unfold adjustScroll. cbv zeta. simpl.
  destruct (Z.leb_spec (height w - 4) 0) as [Hw|Hw]; simpl.
  { destruct (Z.leb_spec (height w - 4) 0); [done|lia]. }
  generalize dependent (len fv). intros n.
  generalize dependent (height w - 4)%Z. intros m Hm.
  scroll_cases; simpl; scroll_cases; f_equal; lia.
Qed.

Lemma Exec_delete_next (d : DB) (i : Z) (io : list (option string)) :
  faults d = None :: io →
  ∃ d', Sql.Exec_delete d i = (d', None) ∧ faults d' = io
        ∧ table d'
          = filter (λ r, row_id r ≠ i ∧ row_parent_id r ≠ Some i) (table d).
Proof.
  intros Hf. unfold Sql.Exec_delete, Sql.call. rewrite Hf. simpl.
  eexists. split_and!; [done..|]. simpl.
  apply list_filter_iff. intros r. unfold Sql.has_id, Sql.has_parent.
  rewrite orb_false_iff, !bool_decide_eq_false. done.
Qed.

(** X18.  The error of the reload that follows a write is dropped.  When
    the store accepts the [DELETE] of [d] and refuses the query of
    [loadTasks], the rows are gone from the table while the objects, the
    view and the cursor stay as they were: the deleted task is still shown,
    under the message that reports the deletion. *)
Theorem X18_failed_reload_leaves_stale_view (w : World) (tm : TaskManager)
    (p : Z) (t : Task) (e : string) (io : list (option string)) :
  reachable tm →
  normalMode tm →
  current tm = Some (p, t) →
  faults (db tm) = None :: Some e :: io →
  ∃ tm',
    handleInput w (char (rune "d")) tm = Some (tm', false)
    ∧ table (db tm')
      = filter (λ r, row_id r ≠ ID t ∧ row_parent_id r ≠ Some (ID t))
          (table (db tm))
    ∧ faults (db tm') = io
    ∧ heap tm' = heap tm ∧ tasks tm' = tasks tm
    ∧ flatView tm' = flatView tm
    ∧ currentIndex tm' = currentIndex tm
    ∧ current tm' = Some (p, t)
    ∧ statusMsg tm' = "Deleted task ID: " +:+ itoa (ID t).
Proof.
  intros [Hc _]%reachable_inv Hn Hcur Hf. rewrite handleInput_char by done.
  rewrite (normalCh_d w (set_statusMsg "" tm) p t Hcur).
  unfold deleteTask. simpl.
  destruct (Exec_delete_next (db tm) (ID t) _ Hf) as (d' & -> & Hf' & Ht).
  set (tm1 := set_statusMsg _ (set_db d' _)).
  assert (loadTasks tm1
          = (set_db {| table := table d'; seq := seq d'; faults := io |} tm1,
             Some e)) as Hl.
  { unfold loadTasks, Sql.Query_tasks, Sql.call.
    change (db tm1) with d'. by rewrite Hf'. }
  unfold reload. rewrite Hl. cbn [fst]. rewrite rebuildFlatView_eq.
  change (heap (set_db _ tm1)) with (heap tm).
  change (tasks (set_db _ tm1)) with (tasks tm).
  rewrite (core_flat _ Hc). simpl.
  destruct (current_Some tm p t Hcur) as (Hci & _).
  rewrite clampCursor_keep by done.
  eexists. split; [done|]. rewrite adjustScroll_eq. simpl.
  split_and!; done.
Qed.

Lemma X18_failed_reload_leaves_stale_view_witness :
  ∃ tm,
    st_reload_failing = Some tm
    ∧ ∃ tm',
        handleInput (world 24) (char (rune "d")) tm = Some (tm', false)
        ∧ table (db tm')
          = filter (λ r, row_id r ≠ 1%Z ∧ row_parent_id r ≠ Some 1%Z)
              (table (db tm))
        ∧ faults (db tm') = []
        ∧ heap tm' = heap tm ∧ tasks tm' = tasks tm
        ∧ flatView tm' = flatView tm
        ∧ currentIndex tm' = currentIndex tm
        ∧ current tm' = Some (1%Z, mkTask 1 "A" 50 10 None [2%Z] true)
        ∧ statusMsg tm' = "Deleted task ID: " +:+ itoa 1.
Proof.
  eexists. split; [vm_compute; reflexivity|].
  apply (X18_failed_reload_leaves_stale_view (world 24) _ 1
           (mkTask 1 "A" 50 10 None [2%Z] true) "disk I/O error" []).
  - assert (reached st_reload_failing) as H
      by (unfold st_reload_failing; reached).
    apply H. vm_compute. reflexivity.
  - split; reflexivity.
  - vm_compute. reflexivity.
  - reflexivity.
Defined.
